(** * BGG analytics dashboard: a shallow embedding of the page logic

    The repository is a three-page Streamlit dashboard over a SQLite file
    ([bgg.db]): [app_mechanic_trends.py], [app_category_trends.py] and
    [app_game_search.py].  Each page filters the data, aggregates it, draws a
    chart and lists game cards with a "show more" counter kept in
    [st.session_state].

    Conventions of the embedding:
    - a DataFrame is the list of its rows, a SQL table the list of its rows;
    - integers are [Z], list lengths and the "show more" counters are [nat];
    - a nullable column (SQL NULL, pandas NaN / None) is an [option];
    - a rating (SQLite REAL, float64) is a rational [Q]; the Impact metric,
      which takes a natural logarithm, lives in [R] through [Q2R];
    - [st.session_state] is a record of optional fields, one per key;
    - a page run is a function from the session state and the widget inputs
      of that run to the new session state and the list of calls made to the
      Streamlit API. *)

From Stdlib Require Import String Ascii List ZArith QArith Qreals Bool.
From Stdlib Require Import Lia Lra Reals Permutation Sorted.
From Stdlib Require DecimalString DecimalZ.
Import ListNotations.

(* ================================================================== *)
(** ** Stable sorting by a boolean order *)
(* ================================================================== *)

(** [DataFrame.sort_values] on several columns and Python's [sorted] are
    stable sorts; both are embedded as a stable insertion sort over a boolean
    "sorts no later than" test. *)

Section Sort.
Context {A : Type}.
Variable leb : A -> A -> bool.

Fixpoint insert (x : A) (l : list A) : list A :=
  match l with
  | [] => [x]
  | y :: l' => if leb x y then x :: y :: l' else y :: insert x l'
  end.

Definition sort_by (l : list A) : list A := fold_right insert [] l.

(** Two rows tie when each sorts no later than the other. *)
Definition tie (x y : A) : bool := leb x y && leb y x.

End Sort.


(* ================================================================== *)
(** ** The pandas operations the pages use *)
(* ================================================================== *)

Module Frame.

(** *** Keeping the first row of each key

    [Series.unique()] and [DataFrame.drop_duplicates(subset=[...])] (with
    the default [keep='first']) walk the rows in order and keep a row when
    its key has not been seen before. *)
Section Dedup.
Context {A K : Type}.
Variable keq : K -> K -> bool.
Variable key : A -> K.

Fixpoint dedup_from (seen : list K) (df : list A) : list A :=
  match df with
  | [] => []
  | r :: df' =>
      if existsb (keq (key r)) seen then dedup_from seen df'
      else r :: dedup_from (key r :: seen) df'
  end.

Definition dedup_on (df : list A) : list A := dedup_from [] df.

End Dedup.

(** [drop_duplicates(subset=["bgg_id"])]. *)
Definition drop_duplicates {A} (bgg_id : A -> Z) (df : list A) : list A :=
  dedup_on Z.eqb bgg_id df.

(** [Series.unique()], in order of first appearance. *)
Definition unique {K} (keq : K -> K -> bool) (col : list K) : list K :=
  dedup_on keq (fun k => k) col.

(** [Series.nunique()] / SQL [COUNT(DISTINCT ...)]. *)
Definition nunique (col : list Z) : nat :=
  List.length (unique Z.eqb col).

(** [df.head(n)]. *)
Definition head {A} (n : nat) (df : list A) : list A := firstn n df.

(** *** Ordering of a game listing

    [sort_values(["overall_rank", "rating_geek"], ascending=[True, False])]
    with the default [na_position='last']: rank ascending, rating
    descending, a missing value after every present one in either column. *)
Definition rank_leb (a b : option Z) : bool :=
  match a, b with
  | Some x, Some y => (x <=? y)%Z
  | Some _, None => true
  | None, Some _ => false
  | None, None => true
  end.

Definition geek_desc_leb (a b : option Q) : bool :=
  match a, b with
  | Some x, Some y => Qle_bool y x
  | Some _, None => true
  | None, Some _ => false
  | None, None => true
  end.

(** Lexicographic order on two sort columns. *)
Definition lex_leb {K1 K2} (leb1 : K1 -> K1 -> bool)
    (leb2 : K2 -> K2 -> bool) (a b : K1 * K2) : bool :=
  leb1 (fst a) (fst b) &&
  (negb (leb1 (fst b) (fst a)) || leb2 (snd a) (snd b)).

Definition listing_leb : option Z * option Q -> option Z * option Q -> bool :=
  lex_leb rank_leb geek_desc_leb.

Section Listing.
Context {A : Type}.
Variable overall_rank : A -> option Z.
Variable rating_geek : A -> option Q.

Definition row_leb (a b : A) : bool :=
  listing_leb (overall_rank a, rating_geek a)
              (overall_rank b, rating_geek b).

Definition sort_values (df : list A) : list A := sort_by row_leb df.
End Listing.

(** *** Aggregation *)

Definition dropna {V} (col : list (option V)) : list V :=
  flat_map (fun v => match v with Some x => [x] | None => [] end) col.

Definition Qsum (l : list Q) : Q := fold_right Qplus 0 l.

(** [Series.mean()] / SQL [AVG]: missing values are skipped, and the mean
    of no value at all is missing. *)
Definition mean (col : list (option Q)) : option Q :=
  match dropna col with
  | [] => None
  | vals => Some (Qsum vals / inject_Z (Z.of_nat (List.length vals)))
  end.

(** One row of [groupby(key).agg(count=("bgg_id", "nunique"),
    avg_geek=("rating_geek", "mean"))]. *)
Record agg (K : Type) : Type := mk_agg {
  gkey : K;
  count : nat;
  avg_geek : option Q
}.
Arguments mk_agg {K}.
Arguments gkey {K}.
Arguments count {K}.
Arguments avg_geek {K}.

Section GroupBy.
Context {A K : Type}.
Variable keq : K -> K -> bool.
Variable kleb : K -> K -> bool.
Variable key : A -> K.
Variable bgg_id : A -> Z.
Variable rating_geek : A -> option Q.

(** The rows of one group. *)
Definition group (k : K) (df : list A) : list A :=
  filter (fun r => keq (key r) k) df.

Definition agg_group (df : list A) (k : K) : agg K :=
  let g := group k df in
  mk_agg k (nunique (map bgg_id g)) (mean (map rating_geek g)).

(** The group keys, each once, in ascending order (groupby sorts its
    keys). *)
Definition group_keys (df : list A) : list K :=
  sort_by kleb (unique keq (map key df)).

Definition groupby_agg (df : list A) : list (agg K) :=
  map (agg_group df) (group_keys df).
End GroupBy.

End Frame.

(** [numpy.log] on the positive reals, and the float product of a possibly
    missing value by a number (NaN propagates). *)
Module Np.
Definition log (x : R) : R := ln x.

Definition mul (a : option R) (b : R) : option R :=
  option_map (fun x => (x * b)%R) a.

(** An integer column read as floats. *)
Definition of_count (n : nat) : R := INR n.

(** A rating column read as floats. *)
Definition of_rating (q : option Q) : option R := option_map Q2R q.
End Np.

(* ================================================================== *)
(** ** The database file *)
(* ================================================================== *)

(** The tables of [bgg.db] that the pages read, with the columns the
    listing, filtering and aggregation logic uses (the remaining game columns
    are only printed on the cards).  [year_published], [rating_geek] and
    [rank] are nullable; identifiers, names and domains are not. *)
Module Db.
Record game : Type := mk_game {
  bgg_id : Z;
  name : string;
  year_published : option Z;
  rating_geek : option Q
}.

(** [ranks]: (game, domain, rank); the domain ["overall"] is the global
    leaderboard. *)
Record rank_row : Type := mk_rank {
  r_bgg_id : Z;
  domain : string;
  rank : option Z
}.

(** [mechanics] and [categories]: (game, name), many-to-many. *)
Record name_row : Type := mk_name {
  n_bgg_id : Z;
  n_name : string
}.

Record t : Type := mk_db {
  games : list game;
  ranks : list rank_row;
  mechanics : list name_row;
  categories : list name_row
}.

(** What is found at [DB_PATH]: nothing, a file the queries fail on, or a
    database. *)
Inductive file : Type :=
| Missing
| Unreadable
| Present (db : t).
End Db.

(* ================================================================== *)
(** ** The Streamlit calls a page makes *)
(* ================================================================== *)

Module St.
(** A point of a line chart: year, series name, plotted value. *)
Record mark : Type := mk_mark {
  m_year : Z;
  m_series : string;
  m_value : option R
}.

Inductive call : Type :=
| title
| warning (msg : string)
| info (msg : string)
| error (msg : string)
| line_chart (marks : list mark)
| bar_chart (bars : list (string * R))
| metrics (popularity : nat) (quality impact : option R)
| card (bgg_id : Z) (list_rank : option nat)
| button (key : string)
| rerun.

Definition is_chart (c : call) : bool :=
  match c with
  | line_chart _ | bar_chart _ => true
  | _ => false
  end.

Definition is_info (c : call) : bool :=
  match c with info _ => true | _ => false end.

(** The game identifiers of the cards drawn, in order. *)
Definition cards (out : list call) : list Z :=
  flat_map (fun c => match c with card i _ => [i] | _ => [] end) out.

(** The result of running a page script once: it returns, leaving a
    session state and the calls it made, or an exception escapes. *)
Inductive outcome (S : Type) : Type :=
| Done (st : S) (out : list call)
| Raised.
Arguments Done {S}.
Arguments Raised {S}.

(** The session a run leaves ([d] when an exception escaped) and the calls
    it made. *)
Definition state_or {S} (d : S) (o : outcome S) : S :=
  match o with Done st _ => st | Raised => d end.

Definition calls {S} (o : outcome S) : list call :=
  match o with Done _ out => out | Raised => [] end.

Definition returned {S} (o : outcome S) : bool :=
  match o with Done _ _ => true | Raised => false end.

(** [v in l] for a list of strings and for a list of integers. *)
Definition mem_str (v : string) (l : list string) : bool :=
  existsb (String.eqb v) l.

Definition mem_Z (v : Z) (l : list Z) : bool := existsb (Z.eqb v) l.
End St.

(** Descending order on a float column with NaN last:
    [sort_values(col, ascending=False)]. *)
Definition desc_nan_last (a b : option R) : bool :=
  match a, b with
  | Some x, Some y => if Rle_dec y x then true else false
  | Some _, None => true
  | None, Some _ => false
  | None, None => true
  end.

(** Python truthiness of a string. *)
Definition truthy (s : string) : bool := negb (String.eqb s EmptyString).

Definition is_empty {A} (l : list A) : bool :=
  match l with [] => true | _ => false end.

Definition is_none {A} (o : option A) : bool :=
  match o with None => true | Some _ => false end.

(** [xs[-1]]. *)
Definition last_opt {A} (l : list A) : option A := hd_error (rev l).

(** Lexicographic order and equality of (year, name) group keys. *)
Definition year_name_leb (a b : Z * string) : bool :=
  Frame.lex_leb Z.leb String.leb a b.

Definition year_name_eqb (a b : Z * string) : bool :=
  (fst a =? fst b)%Z && String.eqb (snd a) (snd b).


(** The labels of the metric radio button.  The charts tell the metrics
    apart by the prefix of the label: a label that starts with neither
    "Popularity" nor "Quality" plots Impact. *)
Definition popularity_label : string := "Popularity(出版量)".
Definition quality_label : string := "Quality(評分)".
Definition impact_label : string := "Impact(影響力)".

(* ================================================================== *)
(** ** Page 1: mechanic trends ([app_mechanic_trends.py]) *)
(* ================================================================== *)

Module MechanicTrends.
Local Open Scope string_scope.
Local Open Scope list_scope.
Local Open Scope Z_scope.

(** A row of the frame that [load_data] returns: one per
    (game, mechanic, overall rank row). *)
Record row : Type := mk_row {
  bgg_id : Z;
  game_name : string;
  year : Z;
  rating_geek : option Q;
  mechanic : string;
  overall_rank : option Z
}.

(** The query of [load_data]: the join of [games], [mechanics] and the
    ["overall"] rows of [ranks], for the games with a publication year. *)
Definition select_rows (db : Db.t) : list row :=
  flat_map (fun g =>
    match Db.year_published g with
    | None => []
    | Some y =>
        flat_map (fun m =>
          if Db.n_bgg_id m =? Db.bgg_id g then
            flat_map (fun r =>
              if (Db.r_bgg_id r =? Db.bgg_id g)
                 && String.eqb (Db.domain r) "overall"
              then [mk_row (Db.bgg_id g) (Db.name g) y
                           (Db.rating_geek g) (Db.n_name m) (Db.rank r)]
              else []) (Db.ranks db)
          else []) (Db.mechanics db)
    end) (Db.games db).

(** [load_data]: an empty frame when the file is missing, else the result
    of the query.  [None] stands for an escaping exception. *)
Definition load_data (f : Db.file) : option (list row) :=
  match f with
  | Db.Missing => Some []
  | Db.Unreadable => None
  | Db.Present db => Some (select_rows db)
  end.

(** The boolean mask
    [(df["overall_rank"] <= rank_limit) & (df["year"] >= year_range[0])
     & (df["year"] <= year_range[1])]; a comparison with NaN is false. *)
Definition rank_year_mask (rank_limit : Z) (year_range : Z * Z)
    (r : row) : bool :=
  match overall_rank r with
  | Some k => k <=? rank_limit
  | None => false
  end
  && (year r >=? fst year_range) && (year r <=? snd year_range).

(** A row of [compute_impact]'s result, indexed by mechanic. *)
Record impact_row : Type := mk_impact {
  stats : Frame.agg string;
  impact : option R
}.

Definition i_mechanic (r : impact_row) : string := Frame.gkey (stats r).

(** The column assignment of [compute_impact]:
    [impact_scores["impact"]
       = impact_scores["avg_geek"] * np.log(impact_scores["count"] + 1)]. *)
Definition with_impact (a : Frame.agg string) : impact_row :=
  mk_impact a
    (Np.mul (Np.of_rating (Frame.avg_geek a))
            (Np.log (Np.of_count (Frame.count a) + 1)%R)).

(** [compute_impact]: group by mechanic, then add the impact column. *)
Definition compute_impact (filtered_df : list row) : list impact_row :=
  map with_impact
      (Frame.groupby_agg String.eqb String.leb mechanic bgg_id rating_geek
                         filtered_df).

(** [impact_df.sort_values("count", ascending=False).index.tolist()].
    Groups with equal counts are kept here in the order of the frame;
    the statements below rely on the ordering by count only. *)
Definition sorted_by_count (impact_df : list impact_row) : list string :=
  map i_mechanic
      (sort_by (fun a b => (Frame.count (stats b) <=? Frame.count (stats a))%nat)
               impact_df).

(** [impact_df.sort_values("impact", ascending=False).index.tolist()],
    with the same convention for equal values. *)
Definition sorted_by_impact (impact_df : list impact_row) : list string :=
  map i_mechanic
      (sort_by (fun a b => desc_nan_last (impact a) (impact b)) impact_df).

(** *** Session state *)

(** The keys of [st.session_state] that the page reads or writes; a key
    that is not in the session is [None]. *)
Record session : Type := mk_session {
  rank_limit : option Z;
  year_range : option (Z * Z);
  metric_radio : option string;
  use_impact_top_n : option bool;
  impact_top_n : option nat;
  selected_mechanics : option (list string);
  mechanic_to_add : option string;
  detail_year : option Z;
  detail_year_box : option Z;
  detail_mechanic : option string;
  detail_mechanic_box : option string;
  _last_selected_point : option (Z * string);
  games_show_n : option nat
}.

Definition empty_session : session :=
  mk_session None None None None None None None None None None None None None.

Definition set_rank_limit v s :=
  mk_session (Some v) (year_range s) (metric_radio s) (use_impact_top_n s)
    (impact_top_n s) (selected_mechanics s) (mechanic_to_add s)
    (detail_year s) (detail_year_box s) (detail_mechanic s)
    (detail_mechanic_box s) (_last_selected_point s) (games_show_n s).
Definition set_year_range v s :=
  mk_session (rank_limit s) (Some v) (metric_radio s) (use_impact_top_n s)
    (impact_top_n s) (selected_mechanics s) (mechanic_to_add s)
    (detail_year s) (detail_year_box s) (detail_mechanic s)
    (detail_mechanic_box s) (_last_selected_point s) (games_show_n s).
Definition set_metric_radio v s :=
  mk_session (rank_limit s) (year_range s) (Some v) (use_impact_top_n s)
    (impact_top_n s) (selected_mechanics s) (mechanic_to_add s)
    (detail_year s) (detail_year_box s) (detail_mechanic s)
    (detail_mechanic_box s) (_last_selected_point s) (games_show_n s).
Definition set_use_impact_top_n v s :=
  mk_session (rank_limit s) (year_range s) (metric_radio s) (Some v)
    (impact_top_n s) (selected_mechanics s) (mechanic_to_add s)
    (detail_year s) (detail_year_box s) (detail_mechanic s)
    (detail_mechanic_box s) (_last_selected_point s) (games_show_n s).
Definition set_impact_top_n v s :=
  mk_session (rank_limit s) (year_range s) (metric_radio s)
    (use_impact_top_n s) (Some v) (selected_mechanics s) (mechanic_to_add s)
    (detail_year s) (detail_year_box s) (detail_mechanic s)
    (detail_mechanic_box s) (_last_selected_point s) (games_show_n s).
Definition set_selected_mechanics v s :=
  mk_session (rank_limit s) (year_range s) (metric_radio s)
    (use_impact_top_n s) (impact_top_n s) (Some v) (mechanic_to_add s)
    (detail_year s) (detail_year_box s) (detail_mechanic s)
    (detail_mechanic_box s) (_last_selected_point s) (games_show_n s).
Definition set_mechanic_to_add v s :=
  mk_session (rank_limit s) (year_range s) (metric_radio s)
    (use_impact_top_n s) (impact_top_n s) (selected_mechanics s) (Some v)
    (detail_year s) (detail_year_box s) (detail_mechanic s)
    (detail_mechanic_box s) (_last_selected_point s) (games_show_n s).
Definition set_detail_year v s :=
  mk_session (rank_limit s) (year_range s) (metric_radio s)
    (use_impact_top_n s) (impact_top_n s) (selected_mechanics s)
    (mechanic_to_add s) (Some v) (detail_year_box s) (detail_mechanic s)
    (detail_mechanic_box s) (_last_selected_point s) (games_show_n s).
Definition set_detail_year_box v s :=
  mk_session (rank_limit s) (year_range s) (metric_radio s)
    (use_impact_top_n s) (impact_top_n s) (selected_mechanics s)
    (mechanic_to_add s) (detail_year s) (Some v) (detail_mechanic s)
    (detail_mechanic_box s) (_last_selected_point s) (games_show_n s).
Definition set_detail_mechanic v s :=
  mk_session (rank_limit s) (year_range s) (metric_radio s)
    (use_impact_top_n s) (impact_top_n s) (selected_mechanics s)
    (mechanic_to_add s) (detail_year s) (detail_year_box s) (Some v)
    (detail_mechanic_box s) (_last_selected_point s) (games_show_n s).
Definition set_detail_mechanic_box v s :=
  mk_session (rank_limit s) (year_range s) (metric_radio s)
    (use_impact_top_n s) (impact_top_n s) (selected_mechanics s)
    (mechanic_to_add s) (detail_year s) (detail_year_box s)
    (detail_mechanic s) (Some v) (_last_selected_point s) (games_show_n s).
Definition set_last_selected_point v s :=
  mk_session (rank_limit s) (year_range s) (metric_radio s)
    (use_impact_top_n s) (impact_top_n s) (selected_mechanics s)
    (mechanic_to_add s) (detail_year s) (detail_year_box s)
    (detail_mechanic s) (detail_mechanic_box s) (Some v) (games_show_n s).
Definition set_games_show_n v s :=
  mk_session (rank_limit s) (year_range s) (metric_radio s)
    (use_impact_top_n s) (impact_top_n s) (selected_mechanics s)
    (mechanic_to_add s) (detail_year s) (detail_year_box s)
    (detail_mechanic s) (detail_mechanic_box s) (_last_selected_point s)
    (Some v).

(** Assignment of a value that may be [None] (the result of a select box
    without options). *)
Definition put_detail_year (o : option Z) s :=
  mk_session (rank_limit s) (year_range s) (metric_radio s)
    (use_impact_top_n s) (impact_top_n s) (selected_mechanics s)
    (mechanic_to_add s) o (detail_year_box s) (detail_mechanic s)
    (detail_mechanic_box s) (_last_selected_point s) (games_show_n s).
Definition put_detail_mechanic (o : option string) s :=
  mk_session (rank_limit s) (year_range s) (metric_radio s)
    (use_impact_top_n s) (impact_top_n s) (selected_mechanics s)
    (mechanic_to_add s) (detail_year s) (detail_year_box s) o
    (detail_mechanic_box s) (_last_selected_point s) (games_show_n s).

(** [if key not in st.session_state: st.session_state.key = v]. *)
Definition setdefault {V} (get : session -> option V)
    (set : V -> session -> session) (v : V) (s : session) : session :=
  match get s with Some _ => s | None => set v s end.

(** [st.session_state.get(key, d)]. *)
Definition default {V} (d : V) (o : option V) : V :=
  match o with Some v => v | None => d end.

(** *** Sidebar *)

(** The first selected point of the chart, as [extract_selection] reads
    it: either field may be absent. *)
Record selection : Type := mk_selection {
  sel_year : option Z;
  sel_mechanic : option string
}.

(** What this run gets from the widgets that have no session key: the
    "top N" slider, the selection returned by the chart, and whether the
    "show more" button has just been clicked. *)
Record inputs : Type := mk_inputs {
  top_n_slider : option nat;
  chart_state : option selection;
  show_more : bool
}.

(** The two callbacks of [manage_mechanic_state]. *)
Definition _add_mechanic (s : session) : session :=
  let mech := default EmptyString (mechanic_to_add s) in
  if truthy mech then
    let selected := mech :: default [] (selected_mechanics s) in
    set_use_impact_top_n false
      (set_selected_mechanics
         (sort_by String.leb (Frame.unique String.eqb selected)) s)
  else s.

Definition _remove_mechanic (mech_name : string) (s : session) : session :=
  let current := default [] (selected_mechanics s) in
  set_use_impact_top_n false
    (set_selected_mechanics
       (sort_by String.leb
          (filter (fun m => negb (String.eqb m mech_name)) current)) s).

(** [render_sidebar]: the rank and year sliders (their values are the
    session keys [rank_limit] and [year_range]), the filtered frame, the
    metric radio, and the bookkeeping of the displayed mechanics. *)
Definition render_sidebar (df : list row) (impact_df : list impact_row)
    (inp : inputs) (s : session) : session * list row * string * Z :=
  let rank_limit_v := default 10000 (rank_limit s) in
  let year_range_v := default (2005, 2025) (year_range s) in
  let filtered_df := filter (rank_year_mask rank_limit_v year_range_v) df in
  let metric_label := default popularity_label (metric_radio s) in
  let all_sorted_by_count := sorted_by_count impact_df in
  let all_sorted_by_impact := sorted_by_impact impact_df in
  let s := setdefault use_impact_top_n set_use_impact_top_n true s in
  let s := setdefault impact_top_n set_impact_top_n 10%nat s in
  let s := setdefault selected_mechanics set_selected_mechanics
                      (firstn 10 all_sorted_by_count) s in
  let top_n := default (default 10%nat (impact_top_n s)) (top_n_slider inp) in
  let s := set_impact_top_n top_n s in
  let s := if default true (use_impact_top_n s)
           then set_selected_mechanics (firstn top_n all_sorted_by_impact) s
           else s in
  let s := set_selected_mechanics
             (filter (fun m => St.mem_str m all_sorted_by_count)
                     (default [] (selected_mechanics s))) s in
  (s, filtered_df, metric_label, rank_limit_v).

(** *** Line chart *)

(** The [value] column that [render_chart] adds to a grouped row. *)
Definition chart_value (metric_label : string)
    (g : Frame.agg (Z * string)) : option R :=
  if prefix "Popularity" metric_label then
    Some (Np.of_count (Frame.count g))
  else if prefix "Quality" metric_label then
    Np.of_rating (Frame.avg_geek g)
  else
    Np.mul (Np.of_rating (Frame.avg_geek g))
           (Np.log (Np.of_count (Frame.count g) + 1)%R).

Definition mark_of (metric_label : string) (g : Frame.agg (Z * string))
    : St.mark :=
  St.mk_mark (fst (Frame.gkey g)) (snd (Frame.gkey g))
             (chart_value metric_label g).

(** [render_chart]: nothing is drawn for an empty frame or when every
    value is NaN; otherwise the chart is drawn and its selection
    returned. *)
Definition render_chart (grouped_df : list (Frame.agg (Z * string)))
    (metric_label : string) (sel : option selection)
    : list St.call * option selection :=
  if is_empty grouped_df then
    ([St.info "請至少選擇一個機制（Mechanic）以顯示圖表。"], None)
  else if forallb (fun g => is_none (chart_value metric_label g)) grouped_df
  then ([St.info "目前資料不足以繪製圖表（可能沒有可用的數值）。"], None)
  else ([St.line_chart (map (mark_of metric_label) grouped_df)], sel).

Definition extract_selection (chart_state : option selection)
    : option Z * option string :=
  match chart_state with
  | None => (None, None)
  | Some item => (sel_year item, sel_mechanic item)
  end.

(** *** Drill-down *)

Definition avail_years (grouped : list (Frame.agg (Z * string))) : list Z :=
  sort_by Z.leb
          (Frame.unique Z.eqb (map (fun g => fst (Frame.gkey g)) grouped)).

Definition avail_mechs (grouped : list (Frame.agg (Z * string)))
    : list string :=
  sort_by String.leb
          (Frame.unique String.eqb (map (fun g => snd (Frame.gkey g)) grouped)).

(** The available mechanics by decreasing Impact over the filtered
    frame. *)
Definition impact_ranked_mechs (impact_df : list impact_row)
    (avail_mechs : list string) : list string :=
  sorted_by_impact
    (filter (fun r => St.mem_str (i_mechanic r) avail_mechs) impact_df).

Definition in_years (o : option Z) (l : list Z) : bool :=
  match o with Some v => St.mem_Z v l | None => false end.

Definition in_mechs (o : option string) (l : list string) : bool :=
  match o with Some v => St.mem_str v l | None => false end.

(** A click on the chart is copied to the drill-down keys and to the keys
    of the two select boxes, the year and the mechanic each on its own
    membership test. *)
Definition sync_click (click : option Z * option string)
    (avail_years : list Z) (avail_mechs : list string) (s : session)
    : session :=
  match click with
  | (Some click_year, Some click_mech) =>
      if truthy click_mech then
        let s := if St.mem_Z click_year avail_years
                 then set_detail_year_box click_year
                        (set_detail_year click_year s)
                 else s in
        if St.mem_str click_mech avail_mechs
        then set_detail_mechanic_box click_mech
               (set_detail_mechanic click_mech s)
        else s
      else s
  | _ => s
  end.

(** Defaults for the drill-down keys that are absent or no longer
    available. *)
Definition default_detail (avail_years : list Z) (avail_mechs : list string)
    (impact_ranked_mechs : list string) (s : session) : session :=
  let s := if in_years (detail_year s) avail_years then s
           else set_detail_year (default 2020 (last_opt avail_years)) s in
  let s := if in_mechs (detail_mechanic s) avail_mechs then s
           else
             let default_mech :=
               match impact_ranked_mechs with
               | m :: _ => m
               | [] => match avail_mechs with m :: _ => m | [] => EmptyString end
               end in
             set_detail_mechanic default_mech s in
  let s := if in_years (detail_year_box s) avail_years then s
           else match detail_year s with
                | Some y => set_detail_year_box y s
                | None => s
                end in
  if in_mechs (detail_mechanic_box s) avail_mechs then s
  else match detail_mechanic s with
       | Some m => set_detail_mechanic_box m s
       | None => s
       end.

(** What a select box bound to a session key returns: the value of the key
    when it is one of the options (it always is after [default_detail]),
    else the first option. *)
Definition selectbox {V} (mem : V -> list V -> bool) (options : list V)
    (key_value : option V) : option V :=
  match key_value with
  | Some v => if mem v options then Some v else hd_error options
  | None => hd_error options
  end.

Definition point_eqb (o : option (Z * string)) (p : Z * string) : bool :=
  match o with Some q => year_name_eqb q p | None => false end.

(** The games of the selected year and mechanic, sorted by rank then
    rating, one row per game. *)
Definition games_in_year (filtered_df : list row) (sel_year : Z)
    (sel_mech : string) : list row :=
  Frame.drop_duplicates bgg_id
    (Frame.sort_values overall_rank rating_geek
       (filter (fun r => (year r =? sel_year)
                         && String.eqb (mechanic r) sel_mech) filtered_df)).

(** The cards and the "show more" button. *)
Definition listing (games : list row) (clicked : bool) (s : session)
    : session * list St.call :=
  let total_games := List.length games in
  let s := setdefault games_show_n set_games_show_n 10%nat s in
  let n := default 10%nat (games_show_n s) in
  let show_n := Nat.min n total_games in
  let cards := map (fun g => St.card (bgg_id g) None)
                   (Frame.head show_n games) in
  if (show_n <? total_games)%nat then
    if clicked then
      (set_games_show_n (Nat.min total_games (n + 10)) s,
       cards ++ [St.button "show_more_games"; St.rerun])
    else (s, cards ++ [St.button "show_more_games"])
  else (s, cards).

Definition panel (r : Frame.agg (Z * string)) : St.call :=
  let pop_val := Np.of_count (Frame.count r) in
  let qlty_val := Np.of_rating (Frame.avg_geek r) in
  let imp_val := Np.mul qlty_val (Np.log (pop_val + 1)%R) in
  St.metrics (Frame.count r) qlty_val imp_val.

(** Steps 5 and 6 of [main], the drill-down below the chart: the click is
    synchronised into the session, the defaults are put in place, the two
    select boxes are read, and the panel and the listing of the selected
    point are drawn.  [click] is the result of [extract_selection] and
    [clicked] tells whether "show more" has just been pressed. *)
Definition drill_down (filtered_df : list row)
    (grouped : list (Frame.agg (Z * string))) (impact_df : list impact_row)
    (click : option Z * option string) (clicked : bool) (s : session)
    : session * list St.call :=
  let avail_years := avail_years grouped in
  let avail_mechs := avail_mechs grouped in
  let ranked := impact_ranked_mechs impact_df avail_mechs in
  let s := sync_click click avail_years avail_mechs s in
  let s := default_detail avail_years avail_mechs ranked s in
  let sel_mech := selectbox St.mem_str avail_mechs (detail_mechanic_box s) in
  let sel_year := selectbox St.mem_Z avail_years (detail_year_box s) in
  let s := put_detail_year sel_year (put_detail_mechanic sel_mech s) in
  match sel_mech, sel_year with
  | Some sel_mech, Some sel_year =>
      if truthy sel_mech && negb (sel_year =? 0) then
        let current_point := (sel_year, sel_mech) in
        let s := if point_eqb (_last_selected_point s) current_point then s
                 else set_games_show_n 10%nat
                        (set_last_selected_point current_point s) in
        match find (fun g => year_name_eqb (Frame.gkey g) current_point)
                   grouped with
        | Some r =>
            let '(s, out) :=
              listing (games_in_year filtered_df sel_year sel_mech)
                      clicked s in
            (s, panel r :: out)
        | None =>
            (s, [St.warning "找不到該節點資料（可能是篩選條件變更後資料已不存在）。"])
        end
      else (s, [])
  | _, _ => (s, [])
  end.

(** *** The page script *)

(** [main].  The descriptions of the mechanics, which are only printed
    next to the selection, are left out. *)
Definition main (f : Db.file) (inp : inputs) (s : session)
    : St.outcome session :=
  match load_data f with
  | None => St.Raised
  | Some raw_df =>
      if is_empty raw_df then
        St.Done s [St.title; St.warning "請確認 bgg.db 檔案是否存在。"]
      else
        let s := setdefault rank_limit set_rank_limit 10000 s in
        let s := setdefault year_range set_year_range (2005, 2025) s in
        let filtered_df_for_impact :=
          filter (rank_year_mask (default 10000 (rank_limit s))
                                 (default (2005, 2025) (year_range s)))
                 raw_df in
        let impact_df := compute_impact filtered_df_for_impact in
        let '(s, filtered_df, metric_label, _) :=
          render_sidebar raw_df impact_df inp s in
        if is_empty filtered_df then
          St.Done s [St.title; St.info "目前的篩選條件下沒有資料。"]
        else
          let selected := default [] (selected_mechanics s) in
          if is_empty selected then
            St.Done s [St.title;
                       St.warning "目前沒有選擇任何機制，請在左側至少選擇 1 個機制。"]
          else
            let chart_data :=
              filter (fun r => St.mem_str (mechanic r) selected)
                     filtered_df in
            let grouped :=
              Frame.groupby_agg year_name_eqb year_name_leb
                (fun r => (year r, mechanic r)) bgg_id rating_geek
                chart_data in
            if is_empty grouped then
              St.Done s [St.title;
                         St.warning "目前選擇的機制在篩選條件下沒有資料可繪圖，請調整篩選或機制選擇。"]
            else
              let '(chart_out, chart_state) :=
                render_chart grouped metric_label (chart_state inp) in
              let '(s, out) :=
                drill_down filtered_df grouped impact_df
                           (extract_selection chart_state)
                           (show_more inp) s in
              St.Done s (St.title :: chart_out ++ out)
  end.

(** [st.rerun()] starts the script again at once, with the button
    released. *)
Definition ends_with_rerun (out : list St.call) : bool :=
  match last_opt out with Some St.rerun => true | _ => false end.

Definition run (f : Db.file) (inp : inputs) (s : session)
    : St.outcome session :=
  match main f inp s with
  | St.Done s' out =>
      if ends_with_rerun out
      then main f (mk_inputs (top_n_slider inp) (chart_state inp) false) s'
      else St.Done s' out
  | St.Raised => St.Raised
  end.

End MechanicTrends.

(* ================================================================== *)
(** ** Page 2: category trends ([app_category_trends.py]) *)
(* ================================================================== *)

Module CategoryTrends.
Local Open Scope string_scope.
Local Open Scope list_scope.
Local Open Scope Z_scope.

(** A row of [load_data]'s frame: one per (game, overall rank row, rank row
    of another domain) for the games with a publication year; the domain is
    the game's category. *)
Record row : Type := mk_row {
  bgg_id : Z;
  game_name : string;
  year : Z;
  rating_geek : option Q;
  overall_rank : option Z;
  category : string
}.

Definition select_rows (db : Db.t) : list row :=
  flat_map (fun g =>
    match Db.year_published g with
    | None => []
    | Some y =>
        flat_map (fun ro =>
          if (Db.r_bgg_id ro =? Db.bgg_id g)
             && String.eqb (Db.domain ro) "overall" then
            flat_map (fun rc =>
              if (Db.r_bgg_id rc =? Db.bgg_id g)
                 && negb (String.eqb (Db.domain rc) "overall")
              then [mk_row (Db.bgg_id g) (Db.name g) y
                           (Db.rating_geek g) (Db.rank ro)
                           (Db.domain rc)]
              else []) (Db.ranks db)
          else []) (Db.ranks db)
    end) (Db.games db).

(** [load_data]: an empty frame when the file is missing, else the result
    of the query. *)
Definition load_data (f : Db.file) : option (list row) :=
  match f with
  | Db.Missing => Some []
  | Db.Unreadable => None
  | Db.Present db => Some (select_rows db)
  end.

(** The rows that [query_top_mechanics_by_category] aggregates: the join
    of [games], two copies of [ranks] and [mechanics] under its WHERE
    clause.  A comparison with NULL is not true. *)
Definition joined (db : Db.t) (category_domain : string)
    (start_year end_year rank_limit : Z) : list (string * Db.game) :=
  flat_map (fun g =>
    flat_map (fun ro =>
      flat_map (fun rc =>
        flat_map (fun m =>
          if (Db.r_bgg_id ro =? Db.bgg_id g)
             && (Db.r_bgg_id rc =? Db.bgg_id g)
             && (Db.n_bgg_id m =? Db.bgg_id g)
             && String.eqb (Db.domain ro) "overall"
             && match Db.rank ro with
                | Some k => k <=? rank_limit
                | None => false
                end
             && String.eqb (Db.domain rc) category_domain
             && negb (is_none (Db.rank rc))
             && match Db.year_published g with
                | Some y => (start_year <=? y) && (y <=? end_year)
                | None => false
                end
          then [(Db.n_name m, g)] else [])
        (Db.mechanics db)) (Db.ranks db)) (Db.ranks db)) (Db.games db).

(** [query_top_mechanics_by_category]: per mechanic,
    [COUNT(DISTINCT g.bgg_id)] and [AVG(g.rating_geek)], ordered by the
    count, largest first.  The function opens the file itself: the query
    fails when there is no database in it. *)
Definition query_top_mechanics_by_category (f : Db.file)
    (category_domain : string) (year_range : Z * Z) (rank_limit : Z)
    : option (list (Frame.agg string)) :=
  match f with
  | Db.Missing | Db.Unreadable => None
  | Db.Present db =>
      let '(start_year, end_year) :=
        if fst year_range >? snd year_range
        then (snd year_range, fst year_range) else year_range in
      Some (sort_by
              (fun a b => (Frame.count b <=? Frame.count a)%nat)
              (Frame.groupby_agg String.eqb String.leb fst
                 (fun r => Db.bgg_id (snd r))
                 (fun r => Db.rating_geek (snd r))
                 (joined db category_domain start_year end_year
                         rank_limit)))
  end.

(** *** Session state *)

Record session : Type := mk_session {
  cat_rank_limit : option Z;
  cat_year_range : option (Z * Z);
  cat_metric_radio : option string;
  cat_selected_category : option string;
  games_show_n_cat : option nat
}.

Definition empty_session : session := mk_session None None None None None.

Definition set_cat_rank_limit v s :=
  mk_session (Some v) (cat_year_range s) (cat_metric_radio s)
             (cat_selected_category s) (games_show_n_cat s).
Definition set_cat_year_range v s :=
  mk_session (cat_rank_limit s) (Some v) (cat_metric_radio s)
             (cat_selected_category s) (games_show_n_cat s).
Definition set_cat_metric_radio v s :=
  mk_session (cat_rank_limit s) (cat_year_range s) (Some v)
             (cat_selected_category s) (games_show_n_cat s).
Definition set_cat_selected_category v s :=
  mk_session (cat_rank_limit s) (cat_year_range s) (cat_metric_radio s)
             (Some v) (games_show_n_cat s).
Definition set_games_show_n_cat v s :=
  mk_session (cat_rank_limit s) (cat_year_range s) (cat_metric_radio s)
             (cat_selected_category s) (Some v).

Definition default {V} (d : V) (o : option V) : V :=
  match o with Some v => v | None => d end.

Definition setdefault {V} (get : session -> option V)
    (set : V -> session -> session) (v : V) (s : session) : session :=
  match get s with Some _ => s | None => set v s end.

Record inputs : Type := mk_inputs {
  chart_state : option (option Z * option string);
  show_more : bool
}.

Definition rank_year_mask (rank_limit : Z) (year_range : Z * Z)
    (r : row) : bool :=
  match overall_rank r with
  | Some k => k <=? rank_limit
  | None => false
  end
  && (year r >=? fst year_range) && (year r <=? snd year_range).

(** [render_sidebar]: the two sliders, the metric radio and the frame
    filtered on rank and year only. *)
Definition render_sidebar (raw_df : list row) (s : session)
    : list row * string * Z * (Z * Z) :=
  let rank_limit := default 10000 (cat_rank_limit s) in
  let year_range := default (2005, 2025) (cat_year_range s) in
  let metric_label := default popularity_label (cat_metric_radio s) in
  let base_filtered := filter (rank_year_mask rank_limit year_range) raw_df in
  (base_filtered, metric_label, rank_limit, year_range).

(** *** Charts *)

(** The [value] column that [render_chart] adds to a grouped row. *)
Definition chart_value (metric_label : string)
    (g : Frame.agg (Z * string)) : option R :=
  if prefix "Popularity" metric_label then
    Some (Np.of_count (Frame.count g))
  else if prefix "Quality" metric_label then
    Np.of_rating (Frame.avg_geek g)
  else
    Np.mul (Np.of_rating (Frame.avg_geek g))
           (Np.log (Np.of_count (Frame.count g) + 1)%R).

Definition mark_of (metric_label : string) (g : Frame.agg (Z * string))
    : St.mark :=
  St.mk_mark (fst (Frame.gkey g)) (snd (Frame.gkey g))
             (chart_value metric_label g).

Definition render_chart (grouped_df : list (Frame.agg (Z * string)))
    (metric_label : string) (sel : option (option Z * option string))
    : list St.call * option (option Z * option string) :=
  if is_empty grouped_df then ([St.info "請至少有資料以顯示圖表。"], None)
  else ([St.line_chart (map (mark_of metric_label) grouped_df)], sel).

(** The [value] column of the bar chart; [game_count] is the count
    column of the query. *)
Definition bar_value (metric_label : string) (m : Frame.agg string)
    : option R :=
  if prefix "Popularity" metric_label then
    Some (Np.of_count (Frame.count m))
  else if prefix "Quality" metric_label then
    Np.of_rating (Frame.avg_geek m)
  else
    Np.mul (Np.of_rating (Frame.avg_geek m))
           (Np.log (Np.of_count (Frame.count m) + 1)%R).

(** [render_mechanic_bar_chart]: the rows without a value are dropped and
    the twenty largest values drawn. *)
Definition render_mechanic_bar_chart (mech_df : list (Frame.agg string))
    (metric_label : string) : list St.call :=
  if is_empty mech_df then [St.info "此條件下沒有可用的 Mechanic 資料。"]
  else
    let valued :=
      flat_map (fun m => match bar_value metric_label m with
                         | Some v => [(Frame.gkey m, v)]
                         | None => []
                         end) mech_df in
    if is_empty valued then
      [St.info "此條件下沒有可用的 Mechanic 數值可繪製直條圖。"]
    else
      [St.bar_chart
         (Frame.head 20
            (sort_by (fun a b => if Rle_dec (snd b) (snd a) then true
                                 else false) valued))].

Definition extract_selection
    (chart_state : option (option Z * option string))
    : option Z * option string :=
  match chart_state with
  | None => (None, None)
  | Some item => item
  end.

(** *** Game list *)

Definition games_in_range (filtered_df : list row) (sel_cat : string)
    : list row :=
  Frame.drop_duplicates bgg_id
    (Frame.sort_values overall_rank rating_geek
       (filter (fun r => String.eqb (category r) sel_cat) filtered_df)).

Definition listing (games : list row) (clicked : bool) (s : session)
    : session * list St.call :=
  let total_games := List.length games in
  let s := setdefault games_show_n_cat set_games_show_n_cat 10%nat s in
  let n := default 10%nat (games_show_n_cat s) in
  let show_n := Nat.min n total_games in
  let cards := map (fun g => St.card (bgg_id g) None)
                   (Frame.head show_n games) in
  if (show_n <? total_games)%nat then
    if clicked then
      (set_games_show_n_cat (Nat.min total_games (n + 10)) s,
       cards ++ [St.button "show_more_games_cat"; St.rerun])
    else (s, cards ++ [St.button "show_more_games_cat"])
  else (s, cards).

Definition avail_cats (filtered_df : list row) : list string :=
  sort_by String.leb (Frame.unique String.eqb (map category filtered_df)).

(** *** The page script

    The selection returned by the line chart is never read: the category
    of the lower half of the page comes from a select box, and its period
    is the whole year range of the sidebar. *)
Definition main (f : Db.file) (inp : inputs) (s : session)
    : St.outcome session :=
  match load_data f with
  | None => St.Raised
  | Some raw_df =>
      if is_empty raw_df then
        St.Done s [St.title; St.warning "請確認 bgg.db 是否存在於本目錄。"]
      else
        let s := setdefault cat_rank_limit set_cat_rank_limit 10000 s in
        let s := setdefault cat_year_range set_cat_year_range (2005, 2025)
                            s in
        let '(filtered_df, metric_label, rank_limit, year_range) :=
          render_sidebar raw_df s in
        let grouped :=
          Frame.groupby_agg year_name_eqb year_name_leb
            (fun r => (year r, category r)) bgg_id rating_geek
            filtered_df in
        let '(chart_out, _) :=
          render_chart grouped metric_label (chart_state inp) in
        let avail_cats := avail_cats filtered_df in
        match avail_cats with
        | [] =>
            St.Done s (St.title :: chart_out ++
              [St.info "在目前篩選條件下沒有可用的 Category。請調整 Rank 或年份範圍。"])
        | first_cat :: _ =>
            let prev := default first_cat (cat_selected_category s) in
            let prev := if St.mem_str prev avail_cats then prev
                        else first_cat in
            let sel_cat := prev in
            let s := set_cat_selected_category sel_cat s in
            let '(start_y, end_y) :=
              if fst year_range >? snd year_range
              then (snd year_range, fst year_range) else year_range in
            match query_top_mechanics_by_category f sel_cat
                    (start_y, end_y) rank_limit with
            | None => St.Raised
            | Some mech_df =>
                let bar := render_mechanic_bar_chart mech_df metric_label in
                let '(s, out) :=
                  listing (games_in_range filtered_df sel_cat)
                          (show_more inp) s in
                St.Done s (St.title :: chart_out ++ bar ++ out)
            end
        end
  end.

Definition ends_with_rerun (out : list St.call) : bool :=
  match last_opt out with Some St.rerun => true | _ => false end.

Definition run (f : Db.file) (inp : inputs) (s : session)
    : St.outcome session :=
  match main f inp s with
  | St.Done s' out =>
      if ends_with_rerun out
      then main f (mk_inputs (chart_state inp) false) s'
      else St.Done s' out
  | St.Raised => St.Raised
  end.

End CategoryTrends.

(* ================================================================== *)
(** ** Page 3: game search ([app_game_search.py]) *)
(* ================================================================== *)

Module GameSearch.
Local Open Scope string_scope.
Local Open Scope list_scope.
Local Open Scope Z_scope.

(** The year choice of the sidebar: "All", the entry ["<0"], or a year. *)
Inductive year_choice : Type :=
| year_all
| year_non_positive
| year_is (y : Z).

(** The values of the search form. *)
Record filters : Type := mk_filters {
  mechanics : list string;
  rank_domain : option string;
  themes : list string;
  year : year_choice
}.

(** A condition of the WHERE clause, with its parameters bound. *)
Inductive cond : Type :=
| always                                   (* 1=1 *)
| year_le_0                                (* g.year_published <= 0 *)
| year_eq (y : Z)                          (* g.year_published = ? *)
| exists_rank (domain : string)
    (* EXISTS (... ranks r2 ... r2.domain = ? AND r2.rank IS NOT NULL) *)
| exists_mechanic (names : list string)
    (* EXISTS (... mechanics m ... m.name IN (...)) *)
| exists_category (names : list string).
    (* EXISTS (... categories c ... c.name IN (...)) *)

(** [_build_game_query]: the conditions, joined by AND.  A filter that is
    empty ([None], the empty string or the empty list) adds no condition. *)
Definition _build_game_query (q : filters) : list cond :=
  [always]
  ++ match year q with
     | year_all => []
     | year_non_positive => [year_le_0]
     | year_is y => [year_eq y]
     end
  ++ match rank_domain q with
     | Some d => if truthy d then [exists_rank d] else []
     | None => []
     end
  ++ (if is_empty (mechanics q) then [] else [exists_mechanic (mechanics q)])
  ++ (if is_empty (themes q) then [] else [exists_category (themes q)]).

(** SQL evaluation of one condition on a row of [games]; a comparison
    with NULL does not hold. *)
Definition holds (db : Db.t) (g : Db.game) (c : cond) : bool :=
  match c with
  | always => true
  | year_le_0 =>
      match Db.year_published g with Some y => y <=? 0 | None => false end
  | year_eq y0 =>
      match Db.year_published g with Some y => y =? y0 | None => false end
  | exists_rank d =>
      existsb (fun r2 => (Db.r_bgg_id r2 =? Db.bgg_id g)
                         && String.eqb (Db.domain r2) d
                         && negb (is_none (Db.rank r2))) (Db.ranks db)
  | exists_mechanic names =>
      existsb (fun m => (Db.n_bgg_id m =? Db.bgg_id g)
                        && St.mem_str (Db.n_name m) names) (Db.mechanics db)
  | exists_category names =>
      existsb (fun c => (Db.n_bgg_id c =? Db.bgg_id g)
                        && St.mem_str (Db.n_name c) names)
              (Db.categories db)
  end.

Definition where_clause (db : Db.t) (conds : list cond) (g : Db.game)
    : bool :=
  forallb (holds db g) conds.

(** A row of the page query. *)
Record result : Type := mk_result {
  game : Db.game;
  overall_rank : option Z;
  selected_rank : option Z
}.

(** [MIN(rank)] over a group: NULLs are skipped. *)
Definition min_rank (col : list (option Z)) : option Z :=
  fold_right (fun v acc =>
                match v, acc with
                | Some x, Some y => Some (Z.min x y)
                | Some x, None => Some x
                | None, _ => acc
                end) None col.

(** The left-joined [SELECT bgg_id, MIN(rank) FROM ranks WHERE domain = ?
    GROUP BY bgg_id]. *)
Definition rank_in (db : Db.t) (d : string) (g : Db.game) : option Z :=
  min_rank (map Db.rank
                (filter (fun r => (Db.r_bgg_id r =? Db.bgg_id g)
                                  && String.eqb (Db.domain r) d)
                        (Db.ranks db))).

(** SQLite's ascending order puts NULL first, its descending order
    last. *)
Definition asc_leb {V} (leb : V -> V -> bool) (a b : option V) : bool :=
  match a, b with
  | None, _ => true
  | Some _, None => false
  | Some x, Some y => leb x y
  end.

Definition desc_leb {V} (leb : V -> V -> bool) (a b : option V) : bool :=
  asc_leb leb b a.

Definition null_flag (r : option Z) : Z :=
  match r with None => 1 | Some _ => 0 end.

(** [ORDER BY CASE WHEN ro.rank IS NULL THEN 1 ELSE 0 END ASC,
    ro.rank ASC, g.rating_geek DESC]. *)
Definition order_by_leb (a b : result) : bool :=
  Frame.lex_leb Z.leb
    (Frame.lex_leb (asc_leb Z.leb) (desc_leb Qle_bool))
    (null_flag (overall_rank a),
     (overall_rank a, Db.rating_geek (game a)))
    (null_flag (overall_rank b),
     (overall_rank b, Db.rating_geek (game b))).

(** All the rows that match, in the order of the query. *)
Definition matches (db : Db.t) (q : filters) : list result :=
  let selected_domain :=
    match rank_domain q with
    | Some d => if truthy d then d else "overall"
    | None => "overall"
    end in
  sort_by order_by_leb
    (map (fun g => mk_result g (rank_in db "overall" g)
                             (rank_in db selected_domain g))
         (filter (where_clause db (_build_game_query q)) (Db.games db))).

(** [query_games_page]: the number of matching games and the rows
    [LIMIT limit OFFSET offset] of the ordered result. *)
Definition query_games_page (db : Db.t) (q : filters) (limit offset : nat)
    : nat * list result :=
  (List.length (filter (where_clause db (_build_game_query q))
                       (Db.games db)),
   firstn limit (skipn offset (matches db q))).

Definition query_games_top_n (db : Db.t) (q : filters) (limit : nat)
    : nat * list result :=
  query_games_page db q limit 0.

(** [get_filter_options]: the choices offered by the sidebar (the year
    choices are left out, and names are taken as stored, without the
    trimming of blanks).  The connection is opened without a check on
    the file, so the first query fails when there is no database. *)
Definition get_filter_options (f : Db.file)
    : option (list string * list string * list string) :=
  match f with
  | Db.Missing | Db.Unreadable => None
  | Db.Present db =>
      let names t :=
        sort_by String.leb
          (Frame.unique String.eqb
             (filter truthy (map Db.n_name t))) in
      let domains :=
        sort_by String.leb
          (Frame.unique String.eqb
             (filter truthy (map Db.domain (Db.ranks db)))) in
      let domains :=
        if St.mem_str "overall" domains
        then "overall" :: filter (fun d => negb (String.eqb d "overall"))
                                 domains
        else domains in
      Some (names (Db.mechanics db), domains, names (Db.categories db))
  end.

(** *** Session state *)

Record session : Type := mk_session {
  search_total : option nat;
  search_page_df : option (list result);
  results_show_n : option nat;
  _last_query_key : option filters
}.

Definition empty_session : session := mk_session None None None None.

Definition set_search_total v s :=
  mk_session (Some v) (search_page_df s) (results_show_n s)
             (_last_query_key s).
Definition set_search_page_df v s :=
  mk_session (search_total s) (Some v) (results_show_n s)
             (_last_query_key s).
Definition set_results_show_n v s :=
  mk_session (search_total s) (search_page_df s) (Some v)
             (_last_query_key s).
Definition set_last_query_key v s :=
  mk_session (search_total s) (search_page_df s) (results_show_n s)
             (Some v).

Definition default {V} (d : V) (o : option V) : V :=
  match o with Some v => v | None => d end.

Definition setdefault {V} (get : session -> option V)
    (set : V -> session -> session) (v : V) (s : session) : session :=
  match get s with Some _ => s | None => set v s end.

(** The form of the sidebar returns its values as of the last press of
    its submit button; [submitted] tells whether this run follows such a
    press, [show_more] whether it follows a click on "show more". *)
Record inputs : Type := mk_inputs {
  submitted : bool;
  form : filters;
  show_more : bool
}.

Definition query_key (q : filters) : filters :=
  mk_filters (sort_by String.leb (mechanics q)) (rank_domain q)
             (sort_by String.leb (themes q)) (year q).

(** *** The page script *)

Definition main (f : Db.file) (inp : inputs) (s : session)
    : St.outcome session :=
  match get_filter_options f with
  | None => St.Done s [St.title; St.error "讀取資料庫失敗"]
  | Some _ =>
      match f with
      | Db.Present db =>
          let q := form inp in
          let s := setdefault results_show_n set_results_show_n 10%nat s in
          let s := if submitted inp
                   then set_last_query_key (query_key q)
                          (set_results_show_n 10%nat s)
                   else s in
          let s := setdefault _last_query_key set_last_query_key
                              (query_key q) s in
          let n := default 10%nat (results_show_n s) in
          let '(total, page_df) := query_games_top_n db q n in
          let s := set_search_page_df page_df (set_search_total total s) in
          if (total =? 0)%nat then
            St.Done s [St.title; St.warning "沒有符合條件的遊戲。"]
          else
            let shown := List.length page_df in
            let cards :=
              map (fun ir => St.card (Db.bgg_id (game (snd ir)))
                                     (Some (fst ir)))
                  (combine (seq 1 shown) page_df) in
            if (shown <? total)%nat then
              if show_more inp then
                St.Done (set_results_show_n (Nat.min total (n + 10)) s)
                        (St.title :: cards ++
                         [St.button "show_more"; St.rerun])
              else St.Done s (St.title :: cards ++ [St.button "show_more"])
            else St.Done s (St.title :: cards)
      | _ => St.Raised
      end
  end.

Definition ends_with_rerun (out : list St.call) : bool :=
  match last_opt out with Some St.rerun => true | _ => false end.

Definition run (f : Db.file) (inp : inputs) (s : session)
    : St.outcome session :=
  match main f inp s with
  | St.Done s' out =>
      if ends_with_rerun out
      then main f (mk_inputs false (form inp) false) s'
      else St.Done s' out
  | St.Raised => St.Raised
  end.

End GameSearch.

(* ================================================================== *)
(** ** The specification's own words *)
(* ================================================================== *)

(** The definitions of this module follow the text of the specification,
    not the code; the theorems below compare the code with them. *)
Module Spec.
Local Open Scope Z_scope.

(** "primary ascending by overall rank with missing ranks sorted last":
    a rank sorts strictly before a larger rank and before a missing
    one. *)
Definition rank_before (a b : option Z) : Prop :=
  match a, b with
  | Some x, Some y => x < y
  | Some _, None => True
  | None, _ => False
  end.

(** "secondary descending by geek rating"; a missing rating comes after
    every rating. *)
Definition geek_not_after (a b : option Q) : Prop :=
  match a, b with
  | Some x, Some y => (y <= x)%Q
  | _, None => True
  | None, Some _ => False
  end.

(** A game with sort key [a] may stand before a game with sort key [b]. *)
Definition listing_le (a b : option Z * option Q) : Prop :=
  rank_before (fst a) (fst b) \/
  (fst a = fst b /\ geek_not_after (snd a) (snd b)).

(** "overall_rank <= rank_limit (when overall_rank is not missing) and
    min_year <= year_published <= max_year". *)
Definition within (rank_limit : Z) (year_range : Z * Z)
    (overall_rank : option Z) (year_published : option Z) : Prop :=
  match overall_rank with Some k => k <= rank_limit | None => True end /\
  match year_published with
  | Some y => fst year_range <= y <= snd year_range
  | None => False
  end.

(** "game must have at least one matching row in the corresponding
    many-to-many relation": a row of the relation for this game whose name
    is one of the selected values. *)
Definition has_row (relation : list Db.name_row) (g : Db.game)
    (selected : list string) : Prop :=
  exists row, In row relation /\ Db.n_bgg_id row = Db.bgg_id g /\
              In (Db.n_name row) selected.

(** "highest-impact-ranked": an Impact value is not below another one; a
    missing value is below every value. *)
Definition impact_not_below (a b : option R) : Prop :=
  match a, b with
  | Some x, Some y => (y <= x)%R
  | _, None => True
  | None, Some _ => False
  end.

(** "impact = avg_geek * ln(count + 1)". *)
Definition impact (avg_geek : Q) (count : nat) : R :=
  (Q2R avg_geek * ln (INR count + 1))%R.

(** "number of distinct games in the group". *)
Definition distinct_games (ids : list Z) : nat :=
  List.length (nodup Z.eq_dec ids).

(** "arithmetic mean of geek rating over the group (ignoring missing
    values)": [m] is the mean of the ratings that are present. *)
Definition is_mean (ratings : list (option Q)) (m : option Q) : Prop :=
  let present := Frame.dropna ratings in
  match m with
  | Some a =>
      present <> [] /\
      (a * inject_Z (Z.of_nat (List.length present)) == Frame.Qsum present)%Q
  | None => present = []
  end.
End Spec.

(* ================================================================== *)
(** ** Vocabulary of the statements *)
(* ================================================================== *)

(** The sort keys of the three kinds of listing rows. *)
Definition mkey (r : MechanicTrends.row) : option Z * option Q :=
  (MechanicTrends.overall_rank r, MechanicTrends.rating_geek r).

Definition ckey (r : CategoryTrends.row) : option Z * option Q :=
  (CategoryTrends.overall_rank r, CategoryTrends.rating_geek r).

Definition skey (r : GameSearch.result) : option Z * option Q :=
  (GameSearch.overall_rank r, Db.rating_geek (GameSearch.game r)).

Definition mleb : MechanicTrends.row -> MechanicTrends.row -> bool :=
  Frame.row_leb MechanicTrends.overall_rank MechanicTrends.rating_geek.

Definition cleb : CategoryTrends.row -> CategoryTrends.row -> bool :=
  Frame.row_leb CategoryTrends.overall_rank CategoryTrends.rating_geek.

(** The category filter of the search page: the game has a row of [ranks]
    in the chosen domain, with a rank. *)
Definition ranked_in (db : Db.t) (d : string) (g : Db.game) : Prop :=
  exists r, In r (Db.ranks db) /\ Db.r_bgg_id r = Db.bgg_id g /\
            Db.domain r = d /\ Db.rank r <> None.

(** The year filter of the search page. *)
Definition year_matches (c : GameSearch.year_choice) (g : Db.game) : Prop :=
  match c with
  | GameSearch.year_all => True
  | GameSearch.year_non_positive =>
      exists y, Db.year_published g = Some y /\ (y <= 0)%Z
  | GameSearch.year_is y => Db.year_published g = Some y
  end.

(** The number of cards shown for a counter (10 when the session has none
    yet) and a number of matches: the [show_n] of the page scripts. *)
Definition shown_count (counter : option nat) (total : nat) : nat :=
  Nat.min (match counter with Some n => n | None => 10%nat end) total.

(** The two session keys of the mechanic listing are left alone. *)
Definition same_listing_state (s s' : MechanicTrends.session) : Prop :=
  MechanicTrends._last_selected_point s' = MechanicTrends._last_selected_point s /\
  MechanicTrends.games_show_n s' = MechanicTrends.games_show_n s.

(** Two sessions of the mechanic page that agree on the four keys of the
    drill-down selection. *)
Definition same_detail_state (s s' : MechanicTrends.session) : Prop :=
  MechanicTrends.detail_year s' = MechanicTrends.detail_year s /\
  MechanicTrends.detail_mechanic s' = MechanicTrends.detail_mechanic s /\
  MechanicTrends.detail_year_box s' = MechanicTrends.detail_year_box s /\
  MechanicTrends.detail_mechanic_box s' = MechanicTrends.detail_mechanic_box s.

(** The rule of the mechanic page: the counter is 10 after a run that
    records a new drill-down point, and is kept (or initialised to 10) by a
    run that does not. *)
Definition reset_rule (s s' : MechanicTrends.session) : Prop :=
  (MechanicTrends._last_selected_point s'
   <> MechanicTrends._last_selected_point s ->
   MechanicTrends.games_show_n s' = Some 10%nat) /\
  (MechanicTrends._last_selected_point s'
   = MechanicTrends._last_selected_point s ->
   MechanicTrends.games_show_n s' = MechanicTrends.games_show_n s \/
   (MechanicTrends.games_show_n s = None /\
    MechanicTrends.games_show_n s' = Some 10%nat)).

(** What the specification says of one group, for the rows [rows] of the
    group, its aggregated row [g] and the value [v] plotted for Impact. *)
Definition group_meets_spec {K} (ids : list Z) (ratings : list (option Q))
    (g : Frame.agg K) (v : option R) : Prop :=
  ids <> [] /\
  Frame.count g = Spec.distinct_games ids /\
  Spec.is_mean ratings (Frame.avg_geek g) /\
  v = option_map (fun a => Spec.impact a (Frame.count g)) (Frame.avg_geek g).

(** The value [o] when it is one of the available ones, else [d]. *)
Definition avail_or {V} (mem : V -> list V -> bool) (o : option V)
    (l : list V) (d : V) : V :=
  match o with
  | Some v => if mem v l then v else d
  | None => d
  end.

(** The click that [sync_click] acts on: a year and a non-empty name. *)
Definition usable_click (click : option Z * option string)
    : option (Z * string) :=
  match click with
  | (Some y, Some m) => if truthy m then Some (y, m) else None
  | _ => None
  end.

(** The year (the mechanic) of a usable click, when it is available. *)
Definition click_year (click : option Z * option string) (ay : list Z)
    : option Z :=
  match usable_click click with
  | Some (y, _) => if St.mem_Z y ay then Some y else None
  | None => None
  end.

Definition click_mech (click : option Z * option string) (am : list string)
    : option string :=
  match usable_click click with
  | Some (_, m) => if St.mem_str m am then Some m else None
  | None => None
  end.

(* ================================================================== *)
(** ** Sample data *)
(* ================================================================== *)

Module Examples.
Local Open Scope string_scope.
Local Open Scope Z_scope.

(** The three games of the specification's sorting example:
    A (rank 1, rating 8.0), B (no rank, rating 9.0) and
    C (rank 2, rating 7.5). *)
Definition rows_abc : list MechanicTrends.row :=
  [ MechanicTrends.mk_row 1 "A" 2020 (Some 8%Q) "Dice Rolling" (Some 1);
    MechanicTrends.mk_row 2 "B" 2020 (Some 9%Q) "Dice Rolling" None;
    MechanicTrends.mk_row 3 "C" 2020 (Some (15 # 2)%Q) "Dice Rolling"
                          (Some 2) ].

Definition crows_abc : list CategoryTrends.row :=
  [ CategoryTrends.mk_row 1 "A" 2020 (Some 8%Q) (Some 1) "strategygames";
    CategoryTrends.mk_row 2 "B" 2020 (Some 9%Q) None "strategygames";
    CategoryTrends.mk_row 3 "C" 2020 (Some (15 # 2)%Q) (Some 2)
                          "strategygames" ].

(** The same games as a database; B has no row in [ranks]. *)
Definition db_abc : Db.t :=
  Db.mk_db
    [ Db.mk_game 1 "A" (Some 2020) (Some 8%Q);
      Db.mk_game 2 "B" (Some 2020) (Some 9%Q);
      Db.mk_game 3 "C" (Some 2020) (Some (15 # 2)%Q) ]
    [ Db.mk_rank 1 "overall" (Some 1); Db.mk_rank 3 "overall" (Some 2) ]
    [] [].

Definition no_filters : GameSearch.filters :=
  GameSearch.mk_filters [] None [] GameSearch.year_all.

(** A database with one game, published in 1990 and ranked 30000th. *)
Definition db_1990 : Db.t :=
  Db.mk_db [ Db.mk_game 7 "Old" (Some 1990) (Some 6%Q) ]
           [ Db.mk_rank 7 "overall" (Some 30000);
             Db.mk_rank 7 "strategygames" (Some 4000) ]
           [ Db.mk_name 7 "Dice Rolling" ]
           [ Db.mk_name 7 "Fantasy" ].

(** Twenty-five games of 2020 with the mechanic "Dice Rolling", ranked
    22nd, 44th, ..., 550th. *)
Definition db_25 : Db.t :=
  Db.mk_db
    (map (fun i => Db.mk_game (Z.of_nat i) "game" (Some 2020) (Some 8%Q))
         (seq 1 25))
    (map (fun i => Db.mk_rank (Z.of_nat i) "overall" (Some (22 * Z.of_nat i)))
         (seq 1 25))
    (map (fun i => Db.mk_name (Z.of_nat i) "Dice Rolling") (seq 1 25))
    [].

(** The grouping of the specification's Impact example: fifty games of one
    year and one mechanic, each rated 7.0. *)
Definition rows_50 : list MechanicTrends.row :=
  map (fun i => MechanicTrends.mk_row (Z.of_nat i) "game" 2020 (Some 7%Q)
                                      "Dice Rolling" (Some (Z.of_nat i)))
      (seq 1 50).

(** Two games of 2020: X, rated 5.0, of the domain "abstracts", and Y,
    rated 8.0, of the domain "strategygames". *)
Definition db_two_categories : Db.t :=
  Db.mk_db
    [ Db.mk_game 1 "X" (Some 2020) (Some 5%Q);
      Db.mk_game 2 "Y" (Some 2020) (Some 8%Q) ]
    [ Db.mk_rank 1 "overall" (Some 10); Db.mk_rank 1 "abstracts" (Some 1);
      Db.mk_rank 2 "overall" (Some 20);
      Db.mk_rank 2 "strategygames" (Some 1) ]
    [] [].

(** Two games with the mechanic "Dice Rolling", one of 2019 and one of
    2020. *)
Definition db_two_years : Db.t :=
  Db.mk_db
    [ Db.mk_game 1 "P" (Some 2019) (Some 7%Q);
      Db.mk_game 2 "Q" (Some 2020) (Some 7%Q) ]
    [ Db.mk_rank 1 "overall" (Some 1); Db.mk_rank 2 "overall" (Some 2) ]
    [ Db.mk_name 1 "Dice Rolling"; Db.mk_name 2 "Dice Rolling" ]
    [].

(** The grouped frame and the impact frame of [db_two_years]. *)
Definition grouped_two_years : list (Frame.agg (Z * string)) :=
  [ Frame.mk_agg (2019, "Dice Rolling") 1%nat (Some 7%Q);
    Frame.mk_agg (2020, "Dice Rolling") 1%nat (Some 7%Q) ].

Definition impact_two_years : list MechanicTrends.impact_row :=
  [ MechanicTrends.with_impact
      (Frame.mk_agg "Dice Rolling" 2%nat (Some 7%Q)) ].
End Examples.

(* ================================================================== *)
(** ** The search page: SQL text and sidebar options *)
(* ================================================================== *)

(** The text of the queries of [app_game_search.py] and the parameters
    bound to their [?] placeholders.  Line breaks of the SQL text are
    written as blanks. *)
Module SearchSql.
Local Open Scope string_scope.
Local Open Scope list_scope.
Local Open Scope Z_scope.

(** A value bound to a placeholder: the year and the two numbers of the
    LIMIT clause are integers, the names are strings. *)
Inductive param : Type :=
| p_int (z : Z)
| p_str (s : string).

(** [_make_in_clause]: [("(?,?,?)", values)], and [("()", [])] for no
    value. *)
Definition _make_in_clause (values : list string) : string * list string :=
  if is_empty values then ("()", [])
  else
    let placeholders :=
      String.concat "," (repeat "?" (List.length values)) in
    (("(" ++ placeholders ++ ")")%string, values).

(** [_build_game_query]: the WHERE clause as text, and its parameters. *)
Definition _build_game_query (q : GameSearch.filters)
    : string * list param :=
  let where_sql := ["1=1"] in
  let params := [] in
  let '(where_sql, params) :=
    match GameSearch.year q with
    | GameSearch.year_all => (where_sql, params)
    | GameSearch.year_non_positive =>
        (where_sql ++ ["g.year_published <= 0"], params)
    | GameSearch.year_is y =>
        (where_sql ++ ["g.year_published = ?"], params ++ [p_int y])
    end in
  let '(where_sql, params) :=
    match GameSearch.rank_domain q with
    | Some d =>
        if truthy d then
          (where_sql ++
           [("EXISTS (SELECT 1 FROM ranks r2 WHERE r2.bgg_id = g.bgg_id "
             ++ "AND r2.domain = ? AND r2.rank IS NOT NULL)")%string],
           params ++ [p_str d])
        else (where_sql, params)
    | None => (where_sql, params)
    end in
  let '(where_sql, params) :=
    if is_empty (GameSearch.mechanics q) then (where_sql, params)
    else
      let '(in_sql, in_params) :=
        _make_in_clause (GameSearch.mechanics q) in
      (where_sql ++
       [("EXISTS (SELECT 1 FROM mechanics m WHERE m.bgg_id = g.bgg_id "
         ++ "AND m.name IN "
         ++ in_sql ++ ")")%string],
       params ++ map p_str in_params) in
  let '(where_sql, params) :=
    if is_empty (GameSearch.themes q) then (where_sql, params)
    else
      let '(in_sql, in_params) := _make_in_clause (GameSearch.themes q) in
      (where_sql ++
       [("EXISTS (SELECT 1 FROM categories c WHERE c.bgg_id = g.bgg_id "
         ++ "AND c.name IN "
         ++ in_sql ++ ")")%string],
       params ++ map p_str in_params) in
  (String.concat " AND " where_sql, params).

(** The two statements of [query_games_page] with the parameter lists
    passed to [read_sql_query]. *)
Definition count_sql (where_clause : string) : string :=
  ("SELECT COUNT(*) FROM games g WHERE " ++ where_clause)%string.

Definition page_sql (where_clause : string) : string :=
  ("SELECT g.bgg_id, g.name AS game_name, g.year_published AS year, "
   ++ "g.min_players, g.max_players, g.min_playtime, g.max_playtime, "
   ++ "g.min_age, g.rating_avg, g.rating_geek, g.rating_count, "
   ++ "g.weight_avg, g.weight_count, g.url AS game_url, "
   ++ "g.image AS game_image, ro.rank AS overall_rank, "
   ++ "rd.rank AS selected_rank, "
   ++ "( SELECT group_concat(r3.domain || ':' || r3.rank, ' | ') "
   ++ "FROM ranks r3 WHERE r3.bgg_id = g.bgg_id "
   ++ "AND r3.rank IS NOT NULL AND r3.domain != 'overall' "
   ++ "ORDER BY r3.rank ASC ) AS other_ranks "
   ++ "FROM games g "
   ++ "LEFT JOIN ( SELECT bgg_id, MIN(rank) AS rank FROM ranks "
   ++ "WHERE domain = 'overall' GROUP BY bgg_id ) ro "
   ++ "ON g.bgg_id = ro.bgg_id "
   ++ "LEFT JOIN ( SELECT bgg_id, MIN(rank) AS rank FROM ranks "
   ++ "WHERE domain = ? GROUP BY bgg_id ) rd "
   ++ "ON g.bgg_id = rd.bgg_id "
   ++ "WHERE " ++ where_clause
   ++ " ORDER BY CASE WHEN ro.rank IS NULL THEN 1 ELSE 0 END ASC, "
   ++ "ro.rank ASC, g.rating_geek DESC LIMIT ? OFFSET ?")%string.

Definition query_games_page_statements (q : GameSearch.filters)
    (limit offset : nat)
    : (string * list param) * (string * list param) :=
  let '(where_clause, params) := _build_game_query q in
  let selected_domain :=
    match GameSearch.rank_domain q with
    | Some d => if truthy d then d else "overall"
    | None => "overall"
    end in
  ((count_sql where_clause, params),
   (page_sql where_clause,
    [p_str selected_domain] ++ params
    ++ [p_int (Z.of_nat limit); p_int (Z.of_nat offset)])).

End SearchSql.

(** The options of the sidebar of the search page and what its form
    returns. *)
Module SearchSidebar.
Local Open Scope string_scope.
Local Open Scope list_scope.
Local Open Scope Z_scope.

(** SQLite's [TRIM(X)]: the blanks at both ends are removed. *)
Fixpoint ltrim (s : string) : string :=
  match s with
  | String c s' => if Ascii.eqb c " " then ltrim s' else s
  | EmptyString => EmptyString
  end.

Fixpoint rtrim (s : string) : string :=
  match s with
  | String c s' =>
      match rtrim s' with
      | EmptyString => if Ascii.eqb c " " then EmptyString
                       else String c EmptyString
      | t => String c t
      end
  | EmptyString => EmptyString
  end.

Definition trim (s : string) : string := rtrim (ltrim s).

(** [SELECT DISTINCT name FROM ... WHERE name IS NOT NULL AND
    TRIM(name) != '' ORDER BY name]. *)
Definition distinct_names (col : list string) : list string :=
  sort_by String.leb
    (Frame.unique String.eqb
       (filter (fun n => negb (String.eqb (trim n) EmptyString)) col)).

(** Python's [str] of an integer, and [int] of the decimal strings that
    the year select box holds ([None] stands for the ValueError). *)
Definition str (y : Z) : string :=
  DecimalString.NilZero.string_of_int (Z.to_int y).

Definition int (s : string) : option Z :=
  option_map Z.of_int (DecimalString.NilZero.int_of_string s).

(** [get_filter_options]: the mechanics, the rank domains with "overall"
    first, the themes, and the years, newest first, with the one entry
    ["<0"] for all the years that are not positive.  The connection is
    opened without a check on the file, so the first query fails when
    there is no database. *)
Definition get_filter_options (f : Db.file)
    : option (list string * list string * list string * list string) :=
  match f with
  | Db.Missing | Db.Unreadable => None
  | Db.Present db =>
      let mechanics := distinct_names (map Db.n_name (Db.mechanics db)) in
      let domains := distinct_names (map Db.domain (Db.ranks db)) in
      let domains :=
        if St.mem_str "overall" domains
        then "overall" :: filter (fun d => negb (String.eqb d "overall"))
                                 domains
        else domains in
      let themes := distinct_names (map Db.n_name (Db.categories db)) in
      let years_raw :=
        sort_by Z.leb
          (Frame.unique Z.eqb
             (Frame.dropna (map Db.year_published (Db.games db)))) in
      let pos_years :=
        sort_by (fun a b => b <=? a) (filter (fun y => y >? 0) years_raw) in
      let has_non_positive := existsb (fun y => y <=? 0) years_raw in
      let years := map str pos_years in
      let years := if has_non_positive then years ++ ["<0"] else years in
      Some (mechanics, domains, themes, years)
  end.

(** What the form holds: the picked mechanics and themes, the entries of
    the two select boxes, and whether the button has just been pressed. *)
Record form : Type := mk_form {
  mechanics : list string;
  rank_domain : string;
  themes : list string;
  year : string;
  submitted : bool
}.

(** [render_sidebar]: the entry "All" of either select box means no
    filter; a year entry other than "All" and ["<0"] is converted with
    [int]. *)
Definition render_sidebar (w : form) : option (bool * GameSearch.filters) :=
  let rank_domain :=
    if String.eqb (rank_domain w) "All" then None
    else Some (rank_domain w) in
  let year :=
    if String.eqb (year w) "All" then Some GameSearch.year_all
    else if String.eqb (year w) "<0" then Some GameSearch.year_non_positive
    else option_map GameSearch.year_is (int (year w)) in
  match year with
  | Some year =>
      Some (submitted w,
            GameSearch.mk_filters (mechanics w) rank_domain (themes w) year)
  | None => None
  end.

End SearchSidebar.

(** The card of a search result. *)
Module SearchCard.
Local Open Scope Z_scope.

(** The test of [render_game_card_original_style] for the entry "Selected
    Rank" of the caption: both ranks are present and they differ. *)
Definition shows_selected_rank (r : GameSearch.result) : bool :=
  match GameSearch.selected_rank r, GameSearch.overall_rank r with
  | Some selected_rank, Some overall_rank =>
      negb (selected_rank =? overall_rank)
  | _, _ => false
  end.

End SearchCard.

(* ================================================================== *)
(** ** The mechanic page: the rest of the sidebar and of the panel *)
(* ================================================================== *)

(** The select box "search and add" of [render_sidebar]. *)
Module MechanicPicker.
Local Open Scope string_scope.
Local Open Scope list_scope.

(** The mechanics that are not displayed yet, in alphabetical order. *)
Definition remaining (all_sorted_by_count selected_mechanics : list string)
    : list string :=
  filter (fun m => negb (St.mem_str m selected_mechanics))
         (sort_by String.leb all_sorted_by_count).

(** The options of the select box: the empty entry, then the remaining
    mechanics, with the current pick kept among them. *)
Definition options (remaining : list string) (current_pick : string)
    : list string :=
  let options := EmptyString :: remaining in
  if truthy current_pick && negb (St.mem_str current_pick options)
  then [EmptyString] ++ [current_pick] ++ remaining
  else options.

(** The options that [render_sidebar] offers in the session it leaves. *)
Definition offered (impact_df : list MechanicTrends.impact_row)
    (s : MechanicTrends.session) : list string :=
  options
    (remaining (MechanicTrends.sorted_by_count impact_df)
               (MechanicTrends.default [] (MechanicTrends.selected_mechanics s)))
    (MechanicTrends.default EmptyString (MechanicTrends.mechanic_to_add s)).

End MechanicPicker.

(** The y axis of the line chart of [render_chart]. *)
Module MechanicChart.
Local Open Scope R_scope.




End MechanicChart.

(** The descriptions of the mechanics. *)
Module MechanicDescriptions.
Local Open Scope string_scope.
Local Open Scope list_scope.

(** A row of the table [mechanic_descriptions]; the three columns are
    nullable. *)
Record desc_row : Type := mk_desc_row {
  mechanic : option string;
  description : option string;
  url : option string
}.

(** The value stored for a mechanic. *)
Record info : Type := mk_info {
  i_description : string;
  i_url : string
}.

(** A Python dict with string keys, in insertion order. *)
Definition dict : Type := list (string * info).

Fixpoint dict_set (k : string) (v : info) (d : dict) : dict :=
  match d with
  | [] => [(k, v)]
  | (k', v') :: d' =>
      if String.eqb k' k then (k, v) :: d' else (k', v') :: dict_set k v d'
  end.

Fixpoint dict_get (k : string) (d : dict) : option info :=
  match d with
  | [] => None
  | (k', v') :: d' => if String.eqb k' k then Some v' else dict_get k d'
  end.

Section Load.
(** [str.strip()]: the whitespace at both ends is removed. *)
Variable strip : string -> string.

Definition or_empty (o : option string) : string :=
  match o with Some s => s | None => EmptyString end.

(** The loop over the rows: a row without a mechanic name is skipped, and
    a later row replaces an earlier one of the same name. *)
Definition add_row (out : dict) (r : desc_row) : dict :=
  match mechanic r with
  | None => out
  | Some mech =>
      if truthy mech then
        dict_set mech
                 (mk_info (strip (or_empty (description r)))
                          (strip (or_empty (url r)))) out
      else out
  end.

(** [load_mechanic_descriptions_from_db]: [table] is the content of
    [mechanic_descriptions], [None] when the query on it fails; the result
    is [None] when the exception escapes. *)
Definition load_mechanic_descriptions_from_db (file_exists : bool)
    (table : option (list desc_row)) : option dict :=
  if negb file_exists then Some []
  else match table with
       | None => None
       | Some df => Some (fold_left add_row df [])
       end.
End Load.

(** The text that [main] prints under the metrics of the selected
    mechanic. *)
Definition description_lines (desc_map : dict) (sel_mech : string)
    : list string :=
  let desc_info := dict_get sel_mech desc_map in
  let get_description :=
    match desc_info with Some i => i_description i | None => EmptyString end in
  let get_url :=
    match desc_info with Some i => i_url i | None => EmptyString end in
  if truthy get_description then
    if truthy get_url then [get_description; ("來源：" ++ get_url)%string]
    else [get_description]
  else ["（無介紹文字）"].

End MechanicDescriptions.

(* ================================================================== *)
(** ** The selection state returned by a chart *)
(* ================================================================== *)

(** The Python values that a selection state is made of: the values of a
    JSON document, its numbers being integers. *)
Module Py.
Local Open Scope string_scope.
Local Open Scope list_scope.
Local Open Scope Z_scope.

#[warnings="-register-all"] Inductive value : Type :=
| None_
| Bool (b : bool)
| Int (z : Z)
| Str (s : string)
| List_ (items : list value)
| Dict (items : list (string * value)).

(** Truthiness. *)
Definition truthy (v : value) : bool :=
  match v with
  | None_ => false
  | Bool b => b
  | Int z => negb (z =? 0)
  | Str s => negb (String.eqb s EmptyString)
  | List_ items => negb (is_empty items)
  | Dict items => negb (is_empty items)
  end.

(** [a or b]. *)
Definition or_ (a b : value) : value := if truthy a then a else b.

(** [d.get(k)] and [k in d] on the items of a dict. *)
Fixpoint get (items : list (string * value)) (k : string) : value :=
  match items with
  | [] => None_
  | (k', v) :: items' => if String.eqb k' k then v else get items' k
  end.

Definition has_key (items : list (string * value)) (k : string) : bool :=
  existsb (fun kv => String.eqb (fst kv) k) items.

Section Int.
(** [int] of a string: defined on the strings that denote an integer. *)
Variable int_of_str : string -> option Z.

(** [int(v)]; [None] stands for the TypeError or ValueError. *)
Definition int (v : value) : option Z :=
  match v with
  | Int z => Some z
  | Bool b => Some (if b then 1 else 0)
  | Str s => int_of_str s
  | _ => None
  end.

(** [extract_selection] of [app_mechanic_trends.py].  Every exception is
    caught and gives [(None, None)]: [chart_state.get] on a value that is
    not a dict, the test or the subscript on a [sel] that is not a dict,
    [item.get] on an item that is not a dict. *)
Definition mechanic_extract_selection (chart_state : value)
    : value * value :=
  if negb (truthy chart_state) then (None_, None_)
  else
    match chart_state with
    | Dict cs =>
        let sel :=
          or_ (or_ (get cs "selection") (get cs "selections")) chart_state in
        match sel with
        | Dict sd =>
            if has_key sd "point_select" then
              let data := get sd "point_select" in
              let item :=
                match data with
                | List_ (x :: _) => x
                | Dict _ => data
                | _ => None_
                end in
              if truthy item then
                match item with
                | Dict it =>
                    let y := get it "year" in
                    let m := get it "mechanic" in
                    let y := match int y with
                             | Some z => Int z
                             | None => y
                             end in
                    (y, m)
                | _ => (None_, None_)
                end
              else (None_, None_)
            else (None_, None_)
        | _ => (None_, None_)
        end
    | _ => (None_, None_)
    end.

(** [extract_selection] of [app_category_trends.py]: the item is not
    tested before its fields are read. *)
Definition category_extract_selection (chart_state : value)
    : value * value :=
  if negb (truthy chart_state) then (None_, None_)
  else
    match chart_state with
    | Dict cs =>
        let sel :=
          or_ (or_ (get cs "selection") (get cs "selections")) chart_state in
        match sel with
        | Dict sd =>
            if has_key sd "point_select" then
              let data := get sd "point_select" in
              let item :=
                match data with
                | List_ (x :: _) => x
                | _ => data
                end in
              match item with
              | Dict it =>
                  let year := get it "year" in
                  let cat := get it "category" in
                  let year := match int year with
                              | Some z => Int z
                              | None => year
                              end in
                  (year, cat)
              | _ => (None_, None_)
              end
            else (None_, None_)
        | _ => (None_, None_)
        end
    | _ => (None_, None_)
    end.
End Int.

End Py.

(* ================================================================== *)
(** ** The entry script ([app.py]) *)
(* ================================================================== *)

Module App.
Local Open Scope string_scope.
Local Open Scope list_scope.

(** [st.session_state] is shared by the pages; their keys are disjoint. *)
Record session : Type := mk_session {
  mechanic_trends : MechanicTrends.session;
  category_trends : CategoryTrends.session;
  game_search : GameSearch.session
}.

Record inputs : Type := mk_inputs {
  mechanic_inputs : MechanicTrends.inputs;
  category_inputs : CategoryTrends.inputs;
  search_inputs : GameSearch.inputs
}.

Definition lift {S T} (f : S -> T) (o : St.outcome S) : St.outcome T :=
  match o with
  | St.Done st out => St.Done (f st) out
  | St.Raised => St.Raised
  end.

(** The script: the entry of the menu chooses the page. *)
Definition app (selected : string) (f : Db.file) (inp : inputs)
    (s : session) : St.outcome session :=
  if String.eqb selected "Mechanics" then
    lift (fun m => mk_session m (category_trends s) (game_search s))
         (MechanicTrends.run f (mechanic_inputs inp) (mechanic_trends s))
  else if String.eqb selected "Ranking" then
    lift (fun g => mk_session (mechanic_trends s) (category_trends s) g)
         (GameSearch.run f (search_inputs inp) (game_search s))
  else if String.eqb selected "Categories" then
    lift (fun c => mk_session (mechanic_trends s) c (game_search s))
         (CategoryTrends.run f (category_inputs inp) (category_trends s))
  else
    St.Done s [St.title; St.info "這個頁面功能尚未完成。"].

End App.

(* ================================================================== *)
(** ** Vocabulary of the further statements *)
(* ================================================================== *)

(** The number of occurrences of a character in a text, and the number of
    [?] placeholders of a SQL text. *)
Fixpoint count_char (c : ascii) (s : string) : nat :=
  match s with
  | EmptyString => 0%nat
  | String a s' =>
      ((if Ascii.eqb a c then 1 else 0) + count_char c s')%nat
  end.

Definition placeholders (sql : string) : nat := count_char "?"%char sql.

(** The SQL text of a condition of the WHERE clause and the values bound
    to its placeholders. *)
Definition cond_sql (c : GameSearch.cond) : string :=
  match c with
  | GameSearch.always => "1=1"
  | GameSearch.year_le_0 => "g.year_published <= 0"
  | GameSearch.year_eq _ => "g.year_published = ?"
  | GameSearch.exists_rank _ =>
      "EXISTS (SELECT 1 FROM ranks r2 WHERE r2.bgg_id = g.bgg_id "
      ++ "AND r2.domain = ? AND r2.rank IS NOT NULL)"
  | GameSearch.exists_mechanic names =>
      "EXISTS (SELECT 1 FROM mechanics m WHERE m.bgg_id = g.bgg_id "
      ++ "AND m.name IN "
      ++ fst (SearchSql._make_in_clause names) ++ ")"
  | GameSearch.exists_category names =>
      "EXISTS (SELECT 1 FROM categories c WHERE c.bgg_id = g.bgg_id "
      ++ "AND c.name IN "
      ++ fst (SearchSql._make_in_clause names) ++ ")"
  end%string.

Definition cond_params (c : GameSearch.cond) : list SearchSql.param :=
  match c with
  | GameSearch.always | GameSearch.year_le_0 => []
  | GameSearch.year_eq y => [SearchSql.p_int y]
  | GameSearch.exists_rank d => [SearchSql.p_str d]
  | GameSearch.exists_mechanic names
  | GameSearch.exists_category names => map SearchSql.p_str names
  end.

(** [o] is the least rank that the game has in the domain [d]: no rank at
    all when [o] is [None]. *)
Definition least_rank (db : Db.t) (d : string) (g : Db.game)
    (o : option Z) : Prop :=
  match o with
  | Some k =>
      (exists r, In r (Db.ranks db) /\ Db.r_bgg_id r = Db.bgg_id g /\
                 Db.domain r = d /\ Db.rank r = Some k) /\
      (forall r k', In r (Db.ranks db) -> Db.r_bgg_id r = Db.bgg_id g ->
                    Db.domain r = d -> Db.rank r = Some k' -> (k <= k')%Z)
  | None =>
      forall r, In r (Db.ranks db) -> Db.r_bgg_id r = Db.bgg_id g ->
                Db.domain r = d -> Db.rank r = None
  end.

(** The last row of [mechanic_descriptions] for a mechanic, and the value
    that [load_mechanic_descriptions_from_db] stores for a row. *)
Definition last_row (m : string) (rows : list MechanicDescriptions.desc_row)
    : option MechanicDescriptions.desc_row :=
  find (fun r => match MechanicDescriptions.mechanic r with
                 | Some k => String.eqb k m
                 | None => false
                 end) (rev rows).

Definition info_of (strip : string -> string)
    (r : MechanicDescriptions.desc_row) : MechanicDescriptions.info :=
  MechanicDescriptions.mk_info
    (strip (MechanicDescriptions.or_empty (MechanicDescriptions.description r)))
    (strip (MechanicDescriptions.or_empty (MechanicDescriptions.url r))).

(** The selection states that a click on a point gives: the point as a
    dict or as a one-element list, under the key "selection", under the
    key "selections", or without a wrapper. *)
Definition point_states (item : Py.value) : list Py.value :=
  flat_map (fun data =>
              [ Py.Dict [("selection"%string,
                          Py.Dict [("point_select"%string, data)])];
                Py.Dict [("selections"%string,
                          Py.Dict [("point_select"%string, data)])];
                Py.Dict [("point_select"%string, data)] ])
           [item; Py.List_ [item]].

(** A year and a name as the typed click of the page model reads them. *)
Definition as_click (v : Py.value * Py.value) : option Z * option string :=
  (match fst v with Py.Int z => Some z | _ => None end,
   match snd v with Py.Str s => Some s | _ => None end).

(* ================================================================== *)
(** ** Facts about sorting and about first rows *)
(* ================================================================== *)

Section SortFacts.
Context {A : Type}.
Variable leb : A -> A -> bool.
Local Abbreviation insert := (insert leb).
Local Abbreviation sort_by := (sort_by leb).
Local Abbreviation tie := (tie leb).

Lemma insert_perm x l : Permutation (x :: l) (insert x l).
Proof.
  induction l as [|y l IH]; simpl; [reflexivity|].
  destruct (leb x y); [reflexivity|].
  rewrite perm_swap. now apply perm_skip.
Qed.

Lemma sort_by_perm l : Permutation l (sort_by l).
Proof.
  induction l as [|x l IH]; simpl; [constructor|].
  etransitivity; [apply perm_skip, IH | apply insert_perm].
Qed.

Lemma sort_by_In x l : In x (sort_by l) <-> In x l.
Proof.
  split; apply Permutation_in;
    [apply Permutation_sym|]; apply sort_by_perm.
Qed.

Lemma sort_by_length l : length (sort_by l) = length l.
Proof. symmetry. apply Permutation_length, sort_by_perm. Qed.

Hypothesis leb_total : forall a b, leb a b = true \/ leb b a = true.
Hypothesis leb_trans :
  forall a b c, leb a b = true -> leb b c = true -> leb a c = true.

Lemma insert_sorted x l :
  StronglySorted (fun a b => leb a b = true) l ->
  StronglySorted (fun a b => leb a b = true) (insert x l).
Proof.
  induction 1 as [|y l Hs IH Hall]; simpl.
  - repeat constructor.
  - destruct (leb x y) eqn:E.
    + constructor; [now constructor|].
      constructor; [exact E|].
      eapply Forall_impl; [|exact Hall].
      intros z Hz. now apply leb_trans with y.
    + constructor; [exact IH|].
      apply Forall_forall. intros z Hz.
      apply (Permutation_in _ (Permutation_sym (insert_perm x l))) in Hz.
      destruct Hz as [<-|Hz].
      * destruct (leb_total x y) as [H|H]; congruence.
      * rewrite Forall_forall in Hall. now apply Hall.
Qed.

Lemma sort_by_sorted l :
  StronglySorted (fun a b => leb a b = true) (sort_by l).
Proof.
  induction l as [|x l IH]; simpl; [constructor|].
  now apply insert_sorted.
Qed.

Lemma tie_trans_false x a y :
  tie x a = true -> leb a y = false -> tie x y = true -> False.
Proof.
  unfold tie. rewrite !andb_true_iff. intros [_ Hax] Hay [Hxy _].
  rewrite (leb_trans _ _ _ Hax Hxy) in Hay. discriminate.
Qed.

Lemma insert_stable x a l :
  filter (tie x) (insert a l) = filter (tie x) (a :: l).
Proof.
  induction l as [|y l IH]; [reflexivity|].
  cbn [insert]. destruct (leb a y) eqn:E; [reflexivity|].
  cbn [filter] in *. rewrite IH.
  destruct (tie x a) eqn:Ea, (tie x y) eqn:Ey; try reflexivity.
  exfalso. exact (tie_trans_false _ _ _ Ea E Ey).
Qed.

(** Stability: the rows that tie with a given row keep their relative
    order. *)
Lemma sort_by_stable x l :
  filter (tie x) (sort_by l) = filter (tie x) l.
Proof.
  induction l as [|a l IH]; [reflexivity|].
  cbn [sort_by fold_right]. fold (sort_by l).
  rewrite insert_stable. cbn [filter]. now rewrite IH.
Qed.

(** The head of a sorted list sorts no later than any of its elements. *)
Lemma sort_by_head h t l :
  sort_by l = h :: t -> forall x, In x l -> leb h x = true.
Proof.
  intros E x Hx.
  pose proof (sort_by_sorted l) as Hs. rewrite E in Hs.
  apply sort_by_In in Hx. rewrite E in Hx.
  apply StronglySorted_inv in Hs. destruct Hs as [_ Hall].
  destruct Hx as [<-|Hx].
  - destruct (leb_total h h); assumption.
  - rewrite Forall_forall in Hall. now apply Hall.
Qed.
End SortFacts.

Lemma In_firstn {A} (x : A) n l : In x (firstn n l) -> In x l.
Proof.
  revert l; induction n as [|n IH]; intros [|y l]; simpl; try tauto.
  intros [->|H]; [now left | right; now apply IH].
Qed.

(** A prefix of a sorted list is sorted: [head] keeps the order of a
    listing. *)
Lemma StronglySorted_firstn {A} (R : A -> A -> Prop) n l :
  StronglySorted R l -> StronglySorted R (firstn n l).
Proof.
  intros Hs. revert n.
  induction Hs as [|x l Hs IH Hall]; intros [|n]; simpl; try constructor.
  - apply IH.
  - rewrite Forall_forall in *. intros y Hy.
    apply Hall. eapply In_firstn. exact Hy.
Qed.

Lemma year_name_eqb_spec a b : year_name_eqb a b = true <-> a = b.
Proof.
  destruct a as [y m], b as [y' m']. unfold year_name_eqb; simpl.
  rewrite andb_true_iff, Z.eqb_eq, String.eqb_eq.
  split; [intros [-> ->]; reflexivity | intros E; inversion E; auto].
Qed.

Lemma Zeqb_spec a b : Z.eqb a b = true <-> a = b.
Proof. apply Z.eqb_eq. Qed.

Lemma Streqb_spec a b : String.eqb a b = true <-> a = b.
Proof. apply String.eqb_eq. Qed.

Section DedupFacts.
Context {A K : Type}.
Variable keq : K -> K -> bool.
Variable key : A -> K.
Local Abbreviation dedup_from := (Frame.dedup_from keq key).
Local Abbreviation dedup_on := (Frame.dedup_on keq key).

Hypothesis keq_spec : forall a b, keq a b = true <-> a = b.

Lemma existsb_keq k seen : existsb (keq k) seen = true <-> In k seen.
Proof.
  rewrite existsb_exists. split.
  - intros (y & Hy & E). apply keq_spec in E. now subst.
  - intros H. exists k. split; [exact H | now apply keq_spec].
Qed.

Lemma dedup_from_In r seen df :
  In r (dedup_from seen df) -> In r df /\ ~ In (key r) seen.
Proof.
  revert seen; induction df as [|a df IH]; intros seen; simpl; [tauto|].
  destruct (existsb (keq (key a)) seen) eqn:E.
  - intros H. apply IH in H. tauto.
  - intros [<-|H].
    + split; [now left|]. rewrite <- existsb_keq. congruence.
    + apply IH in H. simpl in H. tauto.
Qed.

Lemma dedup_from_NoDup seen df : NoDup (map key (dedup_from seen df)).
Proof.
  revert seen; induction df as [|a df IH]; intros seen; simpl.
  - constructor.
  - destruct (existsb (keq (key a)) seen); [apply IH|].
    simpl. constructor; [|apply IH].
    rewrite in_map_iff. intros (r & E & Hr).
    apply dedup_from_In in Hr. destruct Hr as [_ Hr].
    apply Hr. left. congruence.
Qed.

Lemma dedup_from_complete k seen df :
  In k (map key df) -> ~ In k seen ->
  In k (map key (dedup_from seen df)).
Proof.
  revert seen; induction df as [|a df IH]; intros seen; simpl; [tauto|].
  intros Hin Hseen.
  destruct (existsb (keq (key a)) seen) eqn:E.
  - apply IH; [|exact Hseen].
    destruct Hin as [<-|Hin]; [|exact Hin].
    apply existsb_keq in E. contradiction.
  - simpl. destruct (keq (key a) k) eqn:Ek.
    + left. now apply keq_spec.
    + right. apply IH.
      * destruct Hin as [<-|Hin]; [|exact Hin].
        assert (keq (key a) (key a) = true) by now apply keq_spec.
        congruence.
      * simpl. intros [H|H]; [|contradiction].
        apply keq_spec in H. congruence.
Qed.

(** The row kept for a key is the first row of the frame with it. *)
Lemma dedup_from_first r seen df :
  In r (dedup_from seen df) ->
  exists l1 l2, df = l1 ++ r :: l2 /\
                forall r', In r' l1 -> key r' <> key r.
Proof.
  revert seen; induction df as [|a df IH]; intros seen; simpl; [tauto|].
  destruct (existsb (keq (key a)) seen) eqn:E.
  - intros H. pose proof (dedup_from_In _ _ _ H) as [_ Hns].
    destruct (IH _ H) as (l1 & l2 & -> & Hl1).
    exists (a :: l1), l2. split; [reflexivity|].
    intros r' [<-|Hr']; [|now apply Hl1].
    apply existsb_keq in E. congruence.
  - intros [<-|H].
    + exists [], df. split; [reflexivity | intros ? []].
    + pose proof (dedup_from_In _ _ _ H) as [_ Hns].
      destruct (IH _ H) as (l1 & l2 & -> & Hl1).
      exists (a :: l1), l2. split; [reflexivity|].
      intros r' [<-|Hr']; [|now apply Hl1].
      simpl in Hns. tauto.
Qed.

Lemma dedup_on_NoDup df : NoDup (map key (dedup_on df)).
Proof. apply dedup_from_NoDup. Qed.

Lemma dedup_on_In r df : In r (dedup_on df) -> In r df.
Proof. intros H. now apply dedup_from_In in H. Qed.

Lemma dedup_on_keys k df :
  In k (map key (dedup_on df)) <-> In k (map key df).
Proof.
  split.
  - rewrite !in_map_iff. intros (r & E & H).
    exists r. split; [exact E | now apply dedup_on_In].
  - intros H. apply dedup_from_complete; [exact H | intros []].
Qed.

Lemma dedup_on_first r df :
  In r (dedup_on df) ->
  exists l1 l2, df = l1 ++ r :: l2 /\
                forall r', In r' l1 -> key r' <> key r.
Proof. apply dedup_from_first. Qed.
End DedupFacts.

(* ================================================================== *)
(** ** Facts about the listing order *)
(* ================================================================== *)

Lemma rank_leb_total a b :
  Frame.rank_leb a b = true \/ Frame.rank_leb b a = true.
Proof. destruct a, b; simpl; auto; rewrite !Z.leb_le; lia. Qed.

Lemma rank_leb_trans a b c :
  Frame.rank_leb a b = true -> Frame.rank_leb b c = true ->
  Frame.rank_leb a c = true.
Proof.
  destruct a, b, c; simpl; auto; try discriminate.
  rewrite !Z.leb_le; lia.
Qed.

Lemma geek_desc_leb_total a b :
  Frame.geek_desc_leb a b = true \/ Frame.geek_desc_leb b a = true.
Proof.
  destruct a as [x|], b as [y|]; simpl; auto.
  rewrite !Qle_bool_iff.
  destruct (Qlt_le_dec x y) as [H|H]; [right; now apply Qlt_le_weak | now left].
Qed.

Lemma geek_desc_leb_trans a b c :
  Frame.geek_desc_leb a b = true -> Frame.geek_desc_leb b c = true ->
  Frame.geek_desc_leb a c = true.
Proof.
  destruct a, b, c; simpl; auto; try discriminate.
  rewrite !Qle_bool_iff. intros H1 H2. now apply Qle_trans with q0.
Qed.

Section Lex.
Context {K1 K2 : Type}.
Variable leb1 : K1 -> K1 -> bool.
Variable leb2 : K2 -> K2 -> bool.
Hypothesis total1 : forall a b, leb1 a b = true \/ leb1 b a = true.
Hypothesis total2 : forall a b, leb2 a b = true \/ leb2 b a = true.
Hypothesis trans1 :
  forall a b c, leb1 a b = true -> leb1 b c = true -> leb1 a c = true.
Hypothesis trans2 :
  forall a b c, leb2 a b = true -> leb2 b c = true -> leb2 a c = true.

Lemma lex_leb_total a b :
  Frame.lex_leb leb1 leb2 a b = true \/ Frame.lex_leb leb1 leb2 b a = true.
Proof.
  unfold Frame.lex_leb.
  destruct (total1 (fst a) (fst b)) as [H|H],
           (total2 (snd a) (snd b)) as [G|G]; rewrite ?H, ?G;
    destruct (leb1 (fst a) (fst b)), (leb1 (fst b) (fst a)); simpl; auto.
Qed.

Lemma lex_leb_trans a b c :
  Frame.lex_leb leb1 leb2 a b = true -> Frame.lex_leb leb1 leb2 b c = true ->
  Frame.lex_leb leb1 leb2 a c = true.
Proof.
  unfold Frame.lex_leb. rewrite !andb_true_iff, !orb_true_iff, !negb_true_iff.
  intros [Hab Hab'] [Hbc Hbc']. split; [now apply trans1 with (fst b)|].
  destruct (leb1 (fst c) (fst a)) eqn:Hca; [right | now left].
  assert (Hcb : leb1 (fst c) (fst b) = true) by now apply trans1 with (fst a).
  assert (Hba : leb1 (fst b) (fst a) = true) by now apply trans1 with (fst c).
  destruct Hab' as [Hab'|Hab']; [congruence|].
  destruct Hbc' as [Hbc'|Hbc']; [congruence|].
  now apply trans2 with (snd b).
Qed.
End Lex.

Lemma listing_leb_total a b :
  Frame.listing_leb a b = true \/ Frame.listing_leb b a = true.
Proof.
  apply lex_leb_total; [apply rank_leb_total | apply geek_desc_leb_total].
Qed.

Lemma listing_leb_trans a b c :
  Frame.listing_leb a b = true -> Frame.listing_leb b c = true ->
  Frame.listing_leb a c = true.
Proof.
  apply lex_leb_trans; [apply rank_leb_trans | apply geek_desc_leb_trans].
Qed.

Section ListingFacts.
Context {A : Type}.
Variable overall_rank : A -> option Z.
Variable rating_geek : A -> option Q.

Let leb := Frame.row_leb overall_rank rating_geek.

Lemma row_leb_total a b : leb a b = true \/ leb b a = true.
Proof. apply listing_leb_total. Qed.

Lemma row_leb_trans a b c :
  leb a b = true -> leb b c = true -> leb a c = true.
Proof. apply listing_leb_trans. Qed.

Lemma sort_values_sorted df :
  StronglySorted (fun a b => leb a b = true)
                 (Frame.sort_values overall_rank rating_geek df).
Proof. apply sort_by_sorted; [apply row_leb_total | apply row_leb_trans]. Qed.

Lemma sort_values_stable x df :
  filter (tie leb x) (Frame.sort_values overall_rank rating_geek df)
  = filter (tie leb x) df.
Proof. apply sort_by_stable. apply row_leb_trans. Qed.
End ListingFacts.

(* ================================================================== *)
(** ** The listing order meets the specification's order *)
(* ================================================================== *)

Lemma rank_leb_spec a b :
  Frame.rank_leb a b = true <-> (Spec.rank_before a b \/ a = b).
Proof.
  destruct a as [x|], b as [y|]; simpl.
  - rewrite Z.leb_le. split.
    + intros H. destruct (Z.eq_dec x y); [right; congruence | left; lia].
    + intros [H|H]; [lia | inversion H; lia].
  - tauto.
  - split; [discriminate | intros [[]|H]; discriminate].
  - tauto.
Qed.

Lemma rank_before_irrefl a b : Spec.rank_before a b -> Frame.rank_leb b a = false.
Proof.
  destruct a as [x|], b as [y|]; simpl; try tauto.
  intros H. apply Z.leb_gt. exact H.
Qed.

Lemma geek_desc_leb_spec a b :
  Frame.geek_desc_leb a b = true <-> Spec.geek_not_after a b.
Proof.
  destruct a as [x|], b as [y|]; simpl; try tauto.
  - apply Qle_bool_iff.
  - split; [discriminate | tauto].
Qed.

Lemma listing_leb_spec a b :
  Frame.listing_leb a b = true <-> Spec.listing_le a b.
Proof.
  unfold Frame.listing_leb, Frame.lex_leb, Spec.listing_le.
  rewrite andb_true_iff, orb_true_iff, negb_true_iff.
  rewrite geek_desc_leb_spec, rank_leb_spec. split.
  - intros [[H|H] G]; [now left|]. right. split; [exact H|].
    destruct G as [G|G]; [|exact G].
    rewrite H in G. destruct (rank_leb_total (fst b) (fst b)); congruence.
  - intros [H|[H G]].
    + split; [now left|]. left. now apply rank_before_irrefl.
    + split; [now right | now right].
Qed.

Lemma StronglySorted_impl {A} (R1 R2 : A -> A -> Prop) l :
  (forall a b, R1 a b -> R2 a b) ->
  StronglySorted R1 l -> StronglySorted R2 l.
Proof.
  intros H. induction 1 as [|x l Hs IH Hall]; constructor; auto.
  eapply Forall_impl; [|exact Hall]. auto.
Qed.

Lemma StronglySorted_filter {A} (R : A -> A -> Prop) p l :
  StronglySorted R l -> StronglySorted R (filter p l).
Proof.
  induction 1 as [|x l Hs IH Hall]; simpl; [constructor|].
  destruct (p x); [|exact IH].
  constructor; [exact IH|].
  rewrite Forall_forall in *. intros y Hy.
  apply filter_In in Hy. now apply Hall.
Qed.

Section DedupSorted.
Context {A K : Type}.
Variable keq : K -> K -> bool.
Variable key : A -> K.
Variable R : A -> A -> Prop.

Lemma dedup_from_incl seen df r :
  In r (Frame.dedup_from keq key seen df) -> In r df.
Proof.
  revert seen; induction df as [|a df IH]; intros seen; simpl; [tauto|].
  destruct (existsb (keq (key a)) seen).
  - intros H. right. now apply IH with seen.
  - intros [H|H]; [now left | right; now apply IH with (key a :: seen)].
Qed.

Lemma dedup_from_sorted seen df :
  StronglySorted R df -> StronglySorted R (Frame.dedup_from keq key seen df).
Proof.
  intros Hs. revert seen.
  induction Hs as [|a df Hs IH Hall]; intros seen; simpl; [constructor|].
  destruct (existsb (keq (key a)) seen); [apply IH|].
  constructor; [apply IH|].
  rewrite Forall_forall in *. intros y Hy.
  apply Hall. eapply dedup_from_incl. exact Hy.
Qed.
End DedupSorted.






Lemma desc_leb_spec a b :
  GameSearch.desc_leb Qle_bool a b = true <-> Spec.geek_not_after a b.
Proof.
  destruct a as [x|], b as [y|]; simpl; try tauto.
  - apply Qle_bool_iff.
  - split; [discriminate | tauto].
Qed.

(** The ORDER BY clause of the search page is the order of the trend
    pages. *)
Lemma order_by_leb_listing a b :
  GameSearch.order_by_leb a b = Frame.listing_leb (skey a) (skey b).
Proof.
  unfold GameSearch.order_by_leb, Frame.listing_leb, Frame.lex_leb, skey.
  cbn [fst snd].
  destruct (GameSearch.overall_rank a) as [x|],
           (GameSearch.overall_rank b) as [y|]; cbn; try reflexivity.
  - destruct (Db.rating_geek (GameSearch.game a)),
             (Db.rating_geek (GameSearch.game b)); reflexivity.
  - destruct (Db.rating_geek (GameSearch.game a)),
             (Db.rating_geek (GameSearch.game b)); reflexivity.
Qed.

Lemma order_by_leb_total a b :
  GameSearch.order_by_leb a b = true \/ GameSearch.order_by_leb b a = true.
Proof. rewrite !order_by_leb_listing. apply listing_leb_total. Qed.

Lemma order_by_leb_trans a b c :
  GameSearch.order_by_leb a b = true -> GameSearch.order_by_leb b c = true ->
  GameSearch.order_by_leb a c = true.
Proof. rewrite !order_by_leb_listing. apply listing_leb_trans. Qed.

Lemma games_in_year_sorted df y m :
  StronglySorted (fun a b => Spec.listing_le (mkey a) (mkey b))
                 (MechanicTrends.games_in_year df y m).
Proof.
  unfold MechanicTrends.games_in_year, Frame.drop_duplicates, Frame.dedup_on.
  apply dedup_from_sorted.
  eapply StronglySorted_impl; [|apply sort_values_sorted].
  intros a b H. now apply listing_leb_spec.
Qed.

Lemma games_in_range_sorted df cat :
  StronglySorted (fun a b => Spec.listing_le (ckey a) (ckey b))
                 (CategoryTrends.games_in_range df cat).
Proof.
  unfold CategoryTrends.games_in_range, Frame.drop_duplicates, Frame.dedup_on.
  apply dedup_from_sorted.
  eapply StronglySorted_impl; [|apply sort_values_sorted].
  intros a b H. now apply listing_leb_spec.
Qed.

Lemma matches_sorted db q :
  StronglySorted (fun a b => Spec.listing_le (skey a) (skey b))
                 (GameSearch.matches db q).
Proof.
  unfold GameSearch.matches.
  eapply StronglySorted_impl;
    [|apply sort_by_sorted; [apply order_by_leb_total|apply order_by_leb_trans]].
  intros a b H. apply listing_leb_spec. now rewrite <- order_by_leb_listing.
Qed.

(* ================================================================== *)
(** ** C3: order of the game listings *)
(* ================================================================== *)

(** C3.  On each of the three pages the listing, cut at any shown count, is
    sorted by overall rank ascending with a missing rank last, then by geek
    rating descending; the sort that produces it is stable (the rows that
    tie with a row keep the order they had before the sort); and the games
    A (rank 1, rating 8.0), B (no rank, 9.0), C (rank 2, 7.5) come out in
    the order A, C, B, from the pandas sort of the trend pages and from the
    ORDER BY clause of the search page alike. *)
Theorem C3_listing_sorted_stable :
  forall (mdf : list MechanicTrends.row) (y : Z) (m : string)
         (cdf : list CategoryTrends.row) (cat : string)
         (db : Db.t) (q : GameSearch.filters) (n : nat)
         (mx : MechanicTrends.row) (cx : CategoryTrends.row)
         (sx : GameSearch.result) (sl : list GameSearch.result),
    StronglySorted (fun a b => Spec.listing_le (mkey a) (mkey b))
      (Frame.head n (MechanicTrends.games_in_year mdf y m)) /\
    StronglySorted (fun a b => Spec.listing_le (ckey a) (ckey b))
      (Frame.head n (CategoryTrends.games_in_range cdf cat)) /\
    StronglySorted (fun a b => Spec.listing_le (skey a) (skey b))
      (snd (GameSearch.query_games_top_n db q n)) /\
    filter (tie mleb mx)
           (Frame.sort_values MechanicTrends.overall_rank
                              MechanicTrends.rating_geek mdf)
      = filter (tie mleb mx) mdf /\
    filter (tie cleb cx)
           (Frame.sort_values CategoryTrends.overall_rank
                              CategoryTrends.rating_geek cdf)
      = filter (tie cleb cx) cdf /\
    filter (tie GameSearch.order_by_leb sx)
           (sort_by GameSearch.order_by_leb sl)
      = filter (tie GameSearch.order_by_leb sx) sl /\
    map MechanicTrends.game_name
        (Frame.sort_values MechanicTrends.overall_rank
                           MechanicTrends.rating_geek Examples.rows_abc)
      = ["A"; "C"; "B"]%string /\
    map CategoryTrends.game_name
        (Frame.sort_values CategoryTrends.overall_rank
                           CategoryTrends.rating_geek Examples.crows_abc)
      = ["A"; "C"; "B"]%string /\
    map (fun r => Db.name (GameSearch.game r))
        (snd (GameSearch.query_games_top_n Examples.db_abc
                                           Examples.no_filters 10))
      = ["A"; "C"; "B"]%string.
Proof.
  intros. repeat split.
  - apply StronglySorted_firstn, games_in_year_sorted.
  - apply StronglySorted_firstn, games_in_range_sorted.
  - cbn [GameSearch.query_games_top_n GameSearch.query_games_page snd skipn].
    apply StronglySorted_firstn, matches_sorted.
  - apply sort_values_stable.
  - apply sort_values_stable.
  - apply sort_by_stable, order_by_leb_trans.
Qed.

(* ================================================================== *)
(** ** C10: one card per game *)
(* ================================================================== *)

Lemma NoDup_firstn {A} n (l : list A) : NoDup l -> NoDup (firstn n l).
Proof.
  intros H. revert n. induction H as [|x l Hx Hl IH]; intros [|n]; simpl;
    try constructor.
  - intros Hin. apply Hx. eapply In_firstn. exact Hin.
  - apply IH.
Qed.

Lemma StronglySorted_mid {A} (R : A -> A -> Prop) l1 x l2 :
  StronglySorted R (l1 ++ x :: l2) -> Forall (R x) l2.
Proof.
  induction l1 as [|a l1 IH]; simpl; intros H;
    apply StronglySorted_inv in H; destruct H as [H1 H2]; auto.
Qed.

Section OnePerGame.
Context {A : Type}.
Variable bgg_id : A -> Z.
Variable overall_rank : A -> option Z.
Variable rating_geek : A -> option Q.

Let leb := Frame.row_leb overall_rank rating_geek.
Let listed (rows : list A) : list A :=
  Frame.drop_duplicates bgg_id (Frame.sort_values overall_rank rating_geek rows).

Lemma listed_NoDup rows : NoDup (map bgg_id (listed rows)).
Proof. apply dedup_on_NoDup. apply Zeqb_spec. Qed.

Lemma listed_incl rows r : In r (listed rows) -> In r rows.
Proof.
  intros H. apply dedup_on_In in H; [|apply Zeqb_spec].
  now apply sort_by_In in H.
Qed.

Lemma listed_complete rows r :
  In r rows -> In (bgg_id r) (map bgg_id (listed rows)).
Proof.
  intros H. apply dedup_on_keys; [apply Zeqb_spec|].
  apply in_map. now apply sort_by_In.
Qed.

(** The row kept for a game sorts no later than any row of that game. *)
Lemma listed_first rows r r' :
  In r (listed rows) -> In r' rows -> bgg_id r' = bgg_id r ->
  leb r r' = true.
Proof.
  intros Hr Hr' E.
  apply dedup_on_first in Hr; [|apply Zeqb_spec].
  destruct Hr as (l1 & l2 & Hsplit & Hl1).
  pose proof (sort_values_sorted overall_rank rating_geek rows) as Hs.
  apply (sort_by_In leb) in Hr'.
  unfold Frame.sort_values in Hsplit. fold leb in Hsplit, Hs.
  unfold Frame.sort_values in Hs. fold leb in Hs.
  rewrite Hsplit in Hs, Hr'.
  apply in_app_or in Hr'. destruct Hr' as [Hin|[<-|Hin]].
  - exfalso. now apply (Hl1 r').
  - destruct (row_leb_total overall_rank rating_geek r r); assumption.
  - apply StronglySorted_mid in Hs. rewrite Forall_forall in Hs.
    now apply Hs.
Qed.

Lemma listed_first_Forall rows :
  Forall (fun r =>
            Forall (fun r' => leb r r' = true)
                   (filter (fun r' => Z.eqb (bgg_id r') (bgg_id r)) rows))
         (listed rows).
Proof.
  apply Forall_forall. intros r Hr.
  apply Forall_forall. intros r' Hr'.
  apply filter_In in Hr'. destruct Hr' as [Hin E].
  apply Z.eqb_eq in E. now apply listed_first with rows.
Qed.
End OnePerGame.

(** C10.  In the drill-down listing of either trend page, cut at any shown
    count, no game identifier occurs twice; every game of the selected group
    has a card; and the row kept for a game stands, in the listing order, no
    later than every other row of that game in the group, so that the
    duplicate rows of the join never decide which card is drawn. *)
Theorem C10_one_card_per_game :
  forall (mdf : list MechanicTrends.row) (y : Z) (m : string)
         (cdf : list CategoryTrends.row) (cat : string) (n : nat),
    let mrows :=
      filter (fun r => (MechanicTrends.year r =? y)%Z
                       && String.eqb (MechanicTrends.mechanic r) m) mdf in
    let crows :=
      filter (fun r => String.eqb (CategoryTrends.category r) cat) cdf in
    NoDup (map MechanicTrends.bgg_id
               (Frame.head n (MechanicTrends.games_in_year mdf y m))) /\
    NoDup (map CategoryTrends.bgg_id
               (Frame.head n (CategoryTrends.games_in_range cdf cat))) /\
    Forall (fun r' => In (MechanicTrends.bgg_id r')
                         (map MechanicTrends.bgg_id
                              (MechanicTrends.games_in_year mdf y m))) mrows /\
    Forall (fun r' => In (CategoryTrends.bgg_id r')
                         (map CategoryTrends.bgg_id
                              (CategoryTrends.games_in_range cdf cat))) crows /\
    Forall (fun r =>
              In r mrows /\
              Forall (fun r' => Spec.listing_le (mkey r) (mkey r'))
                     (filter (fun r' => (MechanicTrends.bgg_id r'
                                         =? MechanicTrends.bgg_id r)%Z) mrows))
           (MechanicTrends.games_in_year mdf y m) /\
    Forall (fun r =>
              In r crows /\
              Forall (fun r' => Spec.listing_le (ckey r) (ckey r'))
                     (filter (fun r' => (CategoryTrends.bgg_id r'
                                         =? CategoryTrends.bgg_id r)%Z) crows))
           (CategoryTrends.games_in_range cdf cat).
Proof.
  intros. unfold MechanicTrends.games_in_year, CategoryTrends.games_in_range.
  fold mrows. fold crows. repeat split.
  - unfold Frame.head. rewrite <- firstn_map.
    apply NoDup_firstn, listed_NoDup.
  - unfold Frame.head. rewrite <- firstn_map.
    apply NoDup_firstn, listed_NoDup.
  - apply Forall_forall. intros r' Hr'. now apply listed_complete.
  - apply Forall_forall. intros r' Hr'. now apply listed_complete.
  - pose proof (listed_first_Forall MechanicTrends.bgg_id
                  MechanicTrends.overall_rank MechanicTrends.rating_geek
                  mrows) as H.
    rewrite Forall_forall in *. intros r Hr. split.
    + eapply listed_incl. exact Hr.
    + specialize (H r Hr). eapply Forall_impl; [|exact H].
      intros r' Hle. now apply listing_leb_spec.
  - pose proof (listed_first_Forall CategoryTrends.bgg_id
                  CategoryTrends.overall_rank CategoryTrends.rating_geek
                  crows) as H.
    rewrite Forall_forall in *. intros r Hr. split.
    + eapply listed_incl. exact Hr.
    + specialize (H r Hr). eapply Forall_impl; [|exact H].
      intros r' Hle. now apply listing_leb_spec.
Qed.

(* ================================================================== *)
(** ** C1: the rank and year filter *)
(* ================================================================== *)

(** The search page filters on neither the rank limit nor a year range: with
    no filter chosen it lists a game published in 1990 and ranked 30000th,
    which is outside every rank limit of [500, 28000] and every year range
    within [1995, 2025]. *)
Lemma C1_search_page_unfiltered :
  exists r,
    In r (snd (GameSearch.query_games_top_n Examples.db_1990
                                            Examples.no_filters 10)) /\
    forall rank_limit min_year max_year,
      (500 <= rank_limit <= 28000)%Z ->
      (1995 <= min_year)%Z -> (max_year <= 2025)%Z ->
      ~ Spec.within rank_limit (min_year, max_year)
                    (GameSearch.overall_rank r)
                    (Db.year_published (GameSearch.game r)).
Proof.
  eexists. split; [left; reflexivity|].
  intros rl y0 y1 Hrl H0 H1 [Hr Hy]. cbn in Hr, Hy. lia.
Qed.

(** C1 (amended).  On the two trend pages, whatever the rank limit and the
    year range held by the sliders (10000 and (2005, 2025) when the session
    has no value yet), every row of the filtered frame has an overall rank,
    at most the rank limit, and a year within the inclusive range; and the
    rows of the drill-down listings are rows of that frame. *)
Theorem C1_trend_pages_rank_year_filter :
  forall (mdf : list MechanicTrends.row)
         (idf : list MechanicTrends.impact_row)
         (minp : MechanicTrends.inputs) (ms : MechanicTrends.session)
         (cdf : list CategoryTrends.row) (cs : CategoryTrends.session)
         (y : Z) (m cat : string),
    let '(_, mfiltered, _, mrl) :=
      MechanicTrends.render_sidebar mdf idf minp ms in
    let '(cfiltered, _, crl, cyr) := CategoryTrends.render_sidebar cdf cs in
    let myr := MechanicTrends.default (2005, 2025)%Z
                 (MechanicTrends.year_range ms) in
    mrl = MechanicTrends.default 10000%Z (MechanicTrends.rank_limit ms) /\
    crl = CategoryTrends.default 10000%Z (CategoryTrends.cat_rank_limit cs) /\
    cyr = CategoryTrends.default (2005, 2025)%Z
            (CategoryTrends.cat_year_range cs) /\
    Forall (fun r =>
              MechanicTrends.overall_rank r <> None /\
              Spec.within mrl myr (MechanicTrends.overall_rank r)
                          (Some (MechanicTrends.year r))) mfiltered /\
    Forall (fun r =>
              CategoryTrends.overall_rank r <> None /\
              Spec.within crl cyr (CategoryTrends.overall_rank r)
                          (Some (CategoryTrends.year r))) cfiltered /\
    incl (MechanicTrends.games_in_year mfiltered y m) mfiltered /\
    incl (CategoryTrends.games_in_range cfiltered cat) cfiltered.
Proof.
  intros. unfold MechanicTrends.render_sidebar, CategoryTrends.render_sidebar.
  cbv zeta. repeat split.
  - apply Forall_forall. intros r Hr. apply filter_In in Hr.
    destruct Hr as [_ Hr]. unfold MechanicTrends.rank_year_mask in Hr.
    rewrite !andb_true_iff in Hr. destruct Hr as [[Hk Hy0] Hy1].
    unfold Spec.within.
    destruct (MechanicTrends.overall_rank r) as [k|]; [|discriminate].
    split; [discriminate|]. cbn [fst snd] in *.
    rewrite Z.leb_le in Hk, Hy1. rewrite Z.geb_le in Hy0. lia.
  - apply Forall_forall. intros r Hr. apply filter_In in Hr.
    destruct Hr as [_ Hr]. unfold CategoryTrends.rank_year_mask in Hr.
    rewrite !andb_true_iff in Hr. destruct Hr as [[Hk Hy0] Hy1].
    unfold Spec.within.
    destruct (CategoryTrends.overall_rank r) as [k|]; [|discriminate].
    split; [discriminate|]. cbn [fst snd] in *.
    rewrite Z.leb_le in Hk, Hy1. rewrite Z.geb_le in Hy0. lia.
  - intros r Hr. unfold MechanicTrends.games_in_year in Hr.
    apply (listed_incl MechanicTrends.bgg_id) in Hr.
    now apply filter_In in Hr.
  - intros r Hr. unfold CategoryTrends.games_in_range in Hr.
    apply (listed_incl CategoryTrends.bgg_id) in Hr.
    now apply filter_In in Hr.
Qed.

(* ================================================================== *)
(** ** C8: the filters of the search page *)
(* ================================================================== *)

Lemma mem_str_In v l : St.mem_str v l = true <-> In v l.
Proof.
  unfold St.mem_str. rewrite existsb_exists. split.
  - intros (x & Hx & E). apply String.eqb_eq in E. now subst.
  - intros H. exists v. split; [exact H | apply String.eqb_refl].
Qed.

Lemma mem_Z_In v l : St.mem_Z v l = true <-> In v l.
Proof.
  unfold St.mem_Z. rewrite existsb_exists. split.
  - intros (x & Hx & E). apply Z.eqb_eq in E. now subst.
  - intros H. exists v. split; [exact H | apply Z.eqb_refl].
Qed.



Lemma holds_exists_mechanic db g names :
  GameSearch.holds db g (GameSearch.exists_mechanic names) = true <->
  Spec.has_row (Db.mechanics db) g names.
Proof.
  cbn. rewrite existsb_exists. unfold Spec.has_row.
  split; intros (m & Hm & H); exists m; (split; [exact Hm|]).
  - apply andb_true_iff in H. destruct H as [H1 H2].
    apply Z.eqb_eq in H1. apply mem_str_In in H2. auto.
  - destruct H as [H1 H2]. apply andb_true_iff. split.
    + now apply Z.eqb_eq.
    + now apply mem_str_In.
Qed.

Lemma holds_exists_category db g names :
  GameSearch.holds db g (GameSearch.exists_category names) = true <->
  Spec.has_row (Db.categories db) g names.
Proof.
  cbn. rewrite existsb_exists. unfold Spec.has_row.
  split; intros (m & Hm & H); exists m; (split; [exact Hm|]).
  - apply andb_true_iff in H. destruct H as [H1 H2].
    apply Z.eqb_eq in H1. apply mem_str_In in H2. auto.
  - destruct H as [H1 H2]. apply andb_true_iff. split.
    + now apply Z.eqb_eq.
    + now apply mem_str_In.
Qed.

Lemma holds_exists_rank db g d :
  GameSearch.holds db g (GameSearch.exists_rank d) = true <->
  ranked_in db d g.
Proof.
  cbn. rewrite existsb_exists. unfold ranked_in.
  split; intros (r & Hr & H); exists r; (split; [exact Hr|]).
  - rewrite !andb_true_iff in H. destruct H as [[H1 H2] H3].
    apply Z.eqb_eq in H1. apply String.eqb_eq in H2.
    repeat split; auto. intros E. rewrite E in H3. discriminate.
  - destruct H as (H1 & H2 & H3). rewrite !andb_true_iff. repeat split.
    + now apply Z.eqb_eq.
    + now apply String.eqb_eq.
    + destruct (Db.rank r); [reflexivity | contradiction].
Qed.

Lemma holds_year db g c :
  forallb (GameSearch.holds db g)
          match c with
          | GameSearch.year_all => []
          | GameSearch.year_non_positive => [GameSearch.year_le_0]
          | GameSearch.year_is y => [GameSearch.year_eq y]
          end = true <-> year_matches c g.
Proof.
  destruct c as [| |y0]; cbn.
  - tauto.
  - destruct (Db.year_published g) as [y|]; cbn.
    + rewrite andb_true_r, Z.leb_le. split.
      * intros H. exists y. auto.
      * intros (y' & E & H). inversion E. now subst.
    + split; [discriminate | intros (y' & E & _); discriminate].
  - destruct (Db.year_published g) as [y|]; cbn.
    + rewrite andb_true_r, Z.eqb_eq. split; [congruence|].
      intros E. now inversion E.
    + split; discriminate.
Qed.

Lemma matches_games db q g :
  In g (map GameSearch.game (GameSearch.matches db q)) <->
  In g (Db.games db) /\
  GameSearch.where_clause db (GameSearch._build_game_query q) g = true.
Proof.
  unfold GameSearch.matches. rewrite in_map_iff. split.
  - intros (r & <- & Hr). apply sort_by_In in Hr.
    apply in_map_iff in Hr. destruct Hr as (g' & <- & Hg').
    cbn. now apply filter_In in Hg'.
  - intros Hg. eexists. split; [|apply sort_by_In, in_map;
                                   apply filter_In; exact Hg].
    reflexivity.
Qed.

Lemma matches_length db q :
  fst (GameSearch.query_games_top_n db q 0)
  = List.length (GameSearch.matches db q).
Proof.
  unfold GameSearch.matches. cbn. now rewrite sort_by_length, length_map.
Qed.

(** C8.  With a category (rank domain), at least one mechanic and at least
    one theme chosen, a game is among the rows returned by the search query
    exactly when it is a game of the database that meets the year choice,
    has a ranked row in the chosen domain, has a row of [mechanics] whose
    name is a chosen mechanic and has a row of [categories] whose name is a
    chosen theme. *)
Theorem C8_search_filters_conjoin :
  forall (db : Db.t) (q : GameSearch.filters) (d : string) (g : Db.game),
    GameSearch.mechanics q <> [] ->
    GameSearch.themes q <> [] ->
    GameSearch.rank_domain q = Some d -> d <> EmptyString ->
    (In g (map GameSearch.game (GameSearch.matches db q)) <->
     In g (Db.games db) /\
     year_matches (GameSearch.year q) g /\
     ranked_in db d g /\
     Spec.has_row (Db.mechanics db) g (GameSearch.mechanics q) /\
     Spec.has_row (Db.categories db) g (GameSearch.themes q)).
Proof.
  intros db q d g Hm Ht Hd Hne.
  rewrite matches_games.
  unfold GameSearch.where_clause, GameSearch._build_game_query.
  rewrite Hd.
  assert (Etr : truthy d = true).
  { unfold truthy. destruct (String.eqb_spec d EmptyString); [contradiction|reflexivity]. }
  rewrite Etr.
  destruct (GameSearch.mechanics q) as [|m0 ms] eqn:Em; [contradiction|].
  destruct (GameSearch.themes q) as [|t0 ts] eqn:Et; [contradiction|].
  cbn [is_empty]. rewrite !forallb_app, !andb_true_iff.
  rewrite holds_year. cbn [forallb]. rewrite !andb_true_r.
  rewrite holds_exists_rank, holds_exists_mechanic, holds_exists_category.
  cbn [GameSearch.holds]. tauto.
Qed.

(** C8 on the one-game database: the game is returned under the filters
    (strategy domain absent, so "overall"), "Dice Rolling" and "Fantasy". *)
Lemma C8_witness :
  In (Db.mk_game 7 "Old" (Some 1990%Z) (Some 6%Q))
     (map GameSearch.game
          (GameSearch.matches Examples.db_1990
             (GameSearch.mk_filters ["Dice Rolling"%string]
                (Some "overall"%string) ["Fantasy"%string]
                GameSearch.year_all))).
Proof.
  apply (C8_search_filters_conjoin Examples.db_1990
           (GameSearch.mk_filters ["Dice Rolling"%string]
              (Some "overall"%string) ["Fantasy"%string] GameSearch.year_all)
           "overall"%string).
  - discriminate.
  - discriminate.
  - reflexivity.
  - discriminate.
  - split; [left; reflexivity|]. split; [exact I|]. split.
    + eexists. split; [left; reflexivity|]. cbn. repeat split. discriminate.
    + split; eexists; (split; [left; reflexivity|]); cbn; auto.
Defined.

(* ================================================================== *)
(** ** C9: missing file, empty filtered frame *)
(* ================================================================== *)

Lemma is_empty_false {A} (l : list A) : l <> [] -> is_empty l = false.
Proof. destruct l; [contradiction | reflexivity]. Qed.

Lemma mechanic_filters_after_defaults s :
  let s' := MechanicTrends.setdefault MechanicTrends.year_range
              MechanicTrends.set_year_range (2005, 2025)%Z
              (MechanicTrends.setdefault MechanicTrends.rank_limit
                 MechanicTrends.set_rank_limit 10000%Z s) in
  MechanicTrends.default 10000%Z (MechanicTrends.rank_limit s')
  = MechanicTrends.default 10000%Z (MechanicTrends.rank_limit s) /\
  MechanicTrends.default (2005, 2025)%Z (MechanicTrends.year_range s')
  = MechanicTrends.default (2005, 2025)%Z (MechanicTrends.year_range s).
Proof.
  destruct s as [rl yr ? ? ? ? ? ? ? ? ? ? ?].
  destruct rl, yr; split; reflexivity.
Qed.

Lemma category_filters_after_defaults s :
  let s' := CategoryTrends.setdefault CategoryTrends.cat_year_range
              CategoryTrends.set_cat_year_range (2005, 2025)%Z
              (CategoryTrends.setdefault CategoryTrends.cat_rank_limit
                 CategoryTrends.set_cat_rank_limit 10000%Z s) in
  CategoryTrends.default 10000%Z (CategoryTrends.cat_rank_limit s')
  = CategoryTrends.default 10000%Z (CategoryTrends.cat_rank_limit s) /\
  CategoryTrends.default (2005, 2025)%Z (CategoryTrends.cat_year_range s')
  = CategoryTrends.default (2005, 2025)%Z (CategoryTrends.cat_year_range s).
Proof.
  destruct s as [rl yr ? ? ?]. destruct rl, yr; split; reflexivity.
Qed.

(** C9.  On either trend page, when the database file is missing the run
    returns (no exception escapes) after a title and a warning, drawing
    nothing else and leaving the session as it was; and when the frame is
    not empty but no row passes the rank and year filter, the run returns
    after at least one informational message, without any chart and without
    any card. *)
Theorem C9_missing_file_and_empty_result :
  forall (db : Db.t)
         (minp : MechanicTrends.inputs) (ms : MechanicTrends.session)
         (cinp : CategoryTrends.inputs) (cs : CategoryTrends.session),
    MechanicTrends.select_rows db <> [] ->
    filter (MechanicTrends.rank_year_mask
              (MechanicTrends.default 10000%Z (MechanicTrends.rank_limit ms))
              (MechanicTrends.default (2005, 2025)%Z
                 (MechanicTrends.year_range ms)))
           (MechanicTrends.select_rows db) = [] ->
    CategoryTrends.select_rows db <> [] ->
    filter (CategoryTrends.rank_year_mask
              (CategoryTrends.default 10000%Z
                 (CategoryTrends.cat_rank_limit cs))
              (CategoryTrends.default (2005, 2025)%Z
                 (CategoryTrends.cat_year_range cs)))
           (CategoryTrends.select_rows db) = [] ->
    (exists msg, MechanicTrends.main Db.Missing minp ms
                 = St.Done ms [St.title; St.warning msg]) /\
    (exists msg, CategoryTrends.main Db.Missing cinp cs
                 = St.Done cs [St.title; St.warning msg]) /\
    (exists s' out,
        MechanicTrends.main (Db.Present db) minp ms = St.Done s' out /\
        existsb St.is_info out = true /\
        existsb St.is_chart out = false /\ St.cards out = []) /\
    (exists s' out,
        CategoryTrends.main (Db.Present db) cinp cs = St.Done s' out /\
        existsb St.is_info out = true /\
        existsb St.is_chart out = false /\ St.cards out = []).
Proof.
  intros db minp ms cinp cs Hm Hmf Hc Hcf.
  split; [eexists; reflexivity|]. split; [eexists; reflexivity|]. split.
  - unfold MechanicTrends.main. cbn [MechanicTrends.load_data].
    rewrite (is_empty_false _ Hm).
    unfold MechanicTrends.render_sidebar. cbv zeta.
    destruct (mechanic_filters_after_defaults ms) as [E1 E2].
    cbv zeta in E1, E2. rewrite E1, E2, Hmf. cbn [is_empty].
    eexists. eexists. split; [reflexivity|]. repeat split.
  - unfold CategoryTrends.main. cbn [CategoryTrends.load_data].
    rewrite (is_empty_false _ Hc).
    unfold CategoryTrends.render_sidebar. cbv zeta.
    destruct (category_filters_after_defaults cs) as [E1 E2].
    cbv zeta in E1, E2. rewrite E1, E2, Hcf.
    eexists. eexists. split; [reflexivity|]. repeat split.
Qed.

(** C9 on the database whose only game is ranked 30000th and dates from
    1990, with fresh sessions. *)
Lemma C9_witness :
  (exists s' out,
      MechanicTrends.main (Db.Present Examples.db_1990)
        (MechanicTrends.mk_inputs None None false)
        MechanicTrends.empty_session = St.Done s' out /\
      existsb St.is_info out = true /\
      existsb St.is_chart out = false /\ St.cards out = []) /\
  (exists s' out,
      CategoryTrends.main (Db.Present Examples.db_1990)
        (CategoryTrends.mk_inputs None false)
        CategoryTrends.empty_session = St.Done s' out /\
      existsb St.is_info out = true /\
      existsb St.is_chart out = false /\ St.cards out = []).
Proof.
  pose proof (C9_missing_file_and_empty_result Examples.db_1990
                (MechanicTrends.mk_inputs None None false)
                MechanicTrends.empty_session
                (CategoryTrends.mk_inputs None false)
                CategoryTrends.empty_session) as H.
  destruct H as (_ & _ & Hm & Hc).
  - discriminate.
  - reflexivity.
  - discriminate.
  - reflexivity.
  - split; assumption.
Defined.

(* ================================================================== *)
(** ** C5: the "show more" counter *)
(* ================================================================== *)

Lemma cards_app l1 l2 : St.cards (l1 ++ l2) = St.cards l1 ++ St.cards l2.
Proof. unfold St.cards. apply flat_map_app. Qed.

Lemma cards_of_map {A} (f : A -> Z) (k : A -> option nat) l :
  St.cards (map (fun g => St.card (f g) (k g)) l) = map f l.
Proof. induction l as [|a l IH]; simpl; [reflexivity | now rewrite IH]. Qed.

Lemma firstn_min_length {A} n (l : list A) :
  firstn (Nat.min n (List.length l)) l = firstn n l.
Proof.
  destruct (Nat.le_ge_cases n (List.length l)) as [H|H].
  - now rewrite Nat.min_l.
  - rewrite Nat.min_r by exact H. rewrite firstn_all.
    symmetry. now apply firstn_all2.
Qed.

(** What one run of the listing does to the counter and which cards it
    draws, on the mechanic page. *)
Lemma mechanic_listing_spec games clicked s :
  let n := MechanicTrends.default 10%nat (MechanicTrends.games_show_n s) in
  let total := List.length games in
  let shown := Nat.min n total in
  fst (MechanicTrends.listing games clicked s)
  = MechanicTrends.set_games_show_n
      (if clicked && (shown <? total)%nat then Nat.min total (n + 10)%nat
       else n) s /\
  St.cards (snd (MechanicTrends.listing games clicked s))
  = map MechanicTrends.bgg_id (firstn shown games).
Proof.
  destruct s as [? ? ? ? ? ? ? ? ? ? ? ? c].
  unfold MechanicTrends.listing, MechanicTrends.setdefault.
  destruct c as [c|]; cbn -[Nat.min Nat.ltb firstn Nat.add];
    match goal with
    | |- context [(?a <? ?b)%nat] => destruct (a <? b)%nat
    end; destruct clicked; cbn -[Nat.min Nat.ltb firstn Nat.add];
    rewrite ?cards_app, ?cards_of_map, ?app_nil_r; split; reflexivity.
Qed.

Lemma category_listing_spec games clicked s :
  let n := CategoryTrends.default 10%nat (CategoryTrends.games_show_n_cat s) in
  let total := List.length games in
  let shown := Nat.min n total in
  fst (CategoryTrends.listing games clicked s)
  = CategoryTrends.set_games_show_n_cat
      (if clicked && (shown <? total)%nat then Nat.min total (n + 10)%nat
       else n) s /\
  St.cards (snd (CategoryTrends.listing games clicked s))
  = map CategoryTrends.bgg_id (firstn shown games).
Proof.
  destruct s as [? ? ? ? c].
  unfold CategoryTrends.listing, CategoryTrends.setdefault.
  destruct c as [c|]; cbn -[Nat.min Nat.ltb firstn Nat.add];
    match goal with
    | |- context [(?a <? ?b)%nat] => destruct (a <? b)%nat
    end; destruct clicked; cbn -[Nat.min Nat.ltb firstn Nat.add];
    rewrite ?cards_app, ?cards_of_map, ?app_nil_r; split; reflexivity.
Qed.

Lemma cards_of_numbered {A} (f : A -> Z) (l : list A) start :
  St.cards (map (fun ir : nat * A => St.card (f (snd ir)) (Some (fst ir)))
                (combine (seq start (List.length l)) l))
  = map f l.
Proof.
  revert start. induction l as [|a l IH]; intros start; simpl;
    [reflexivity | now rewrite IH].
Qed.

Lemma search_total db q :
  List.length (filter (GameSearch.where_clause db
                         (GameSearch._build_game_query q)) (Db.games db))
  = List.length (GameSearch.matches db q).
Proof. unfold GameSearch.matches. now rewrite sort_by_length, length_map. Qed.

(** What one run of the search page does to the counter and which cards it
    draws. *)
Lemma search_main_spec db inp s :
  let q := GameSearch.form inp in
  let total := List.length (GameSearch.matches db q) in
  let n := if GameSearch.submitted inp then 10%nat
           else GameSearch.default 10%nat (GameSearch.results_show_n s) in
  let shown := Nat.min n total in
  exists s' out,
    GameSearch.main (Db.Present db) inp s = St.Done s' out /\
    GameSearch.results_show_n s'
    = Some (if GameSearch.show_more inp && (shown <? total)%nat
            then Nat.min total (n + 10)%nat else n) /\
    St.cards out
    = map (fun r => Db.bgg_id (GameSearch.game r))
          (firstn shown (GameSearch.matches db q)).
Proof.
  intros q total n shown.
  unfold GameSearch.main. cbn [GameSearch.get_filter_options].
  unfold GameSearch.query_games_top_n, GameSearch.query_games_page.
  rewrite search_total. fold q. fold total. cbn [skipn].
  set (s1 := GameSearch.setdefault GameSearch._last_query_key _ _ _).
  assert (En : GameSearch.results_show_n s1 = Some n).
  { subst s1 n. destruct s as [? ? [c|] [k|]];
      destruct (GameSearch.submitted inp); reflexivity. }
  rewrite En. cbn [GameSearch.default].
  assert (Elen : List.length (firstn n (GameSearch.matches db q)) = shown).
  { now rewrite length_firstn. }
  rewrite Elen.
  assert (Ecards : firstn shown (GameSearch.matches db q)
                   = firstn n (GameSearch.matches db q)).
  { apply firstn_min_length. }
  assert (Ekeep : forall t p,
             GameSearch.results_show_n
               (GameSearch.set_search_page_df p
                  (GameSearch.set_search_total t s1)) = Some n).
  { intros. exact En. }
  destruct (total =? 0)%nat eqn:E0.
  - apply Nat.eqb_eq in E0.
    assert (Em : GameSearch.matches db q = []).
    { apply length_zero_iff_nil. exact E0. }
    eexists. eexists. split; [reflexivity|]. split.
    + rewrite Ekeep. replace (shown <? total)%nat with false.
      * now rewrite andb_false_r.
      * symmetry. apply Nat.ltb_ge. subst shown. lia.
    + rewrite Em. now destruct shown.
  - destruct (shown <? total)%nat eqn:Elt.
    + destruct (GameSearch.show_more inp); eexists; eexists;
        (split; [reflexivity|]); cbn [andb]; (split; [try apply Ekeep|]).
      * reflexivity.
      * change (St.cards (St.title :: ?l)) with (St.cards l).
        rewrite cards_app, <- Elen,
          (cards_of_numbered (fun r => Db.bgg_id (GameSearch.game r))).
        rewrite Elen, Ecards. cbn. now rewrite app_nil_r.
      * change (St.cards (St.title :: ?l)) with (St.cards l).
        rewrite cards_app, <- Elen,
          (cards_of_numbered (fun r => Db.bgg_id (GameSearch.game r))).
        rewrite Elen, Ecards. cbn. now rewrite app_nil_r.
    + eexists; eexists; (split; [reflexivity|]).
      rewrite andb_false_r. split; [apply Ekeep|].
      change (St.cards (St.title :: ?l)) with (St.cards l).
      rewrite <- Elen,
        (cards_of_numbered (fun r => Db.bgg_id (GameSearch.game r))).
      now rewrite Elen, Ecards.
Qed.


(** C5.  On each page the counter of the listing starts at 10; the number of
    cards shown is the counter capped at the number of matches, so it never
    exceeds it; the cards are the first [shown] rows of the sorted matches;
    a click on "show more" takes the shown count to itself plus 10, capped at
    the number of matches; and when every match is already shown a click
    changes nothing. *)
Theorem C5_show_more_counter :
  forall (mgames : list MechanicTrends.row) (ms : MechanicTrends.session)
         (cgames : list CategoryTrends.row) (cs : CategoryTrends.session)
         (db : Db.t) (q : GameSearch.filters) (gs : GameSearch.session)
         (clicked : bool),
    let mtotal := List.length mgames in
    let mshown := shown_count (MechanicTrends.games_show_n ms) mtotal in
    let ctotal := List.length cgames in
    let cshown := shown_count (CategoryTrends.games_show_n_cat cs) ctotal in
    let gtotal := List.length (GameSearch.matches db q) in
    let gshown := shown_count (GameSearch.results_show_n gs) gtotal in
    (* mechanic trends *)
    (MechanicTrends.games_show_n
       (fst (MechanicTrends.listing mgames false MechanicTrends.empty_session))
     = Some 10%nat /\
     (mshown <= mtotal)%nat /\
     St.cards (snd (MechanicTrends.listing mgames clicked ms))
     = map MechanicTrends.bgg_id (firstn mshown mgames) /\
     shown_count (MechanicTrends.games_show_n
                    (fst (MechanicTrends.listing mgames true ms))) mtotal
     = Nat.min (mshown + 10) mtotal /\
     shown_count (MechanicTrends.games_show_n
                    (fst (MechanicTrends.listing mgames false ms))) mtotal
     = mshown /\
     (mshown = mtotal ->
      MechanicTrends.listing mgames true ms
      = MechanicTrends.listing mgames false ms)) /\
    (* category trends *)
    (CategoryTrends.games_show_n_cat
       (fst (CategoryTrends.listing cgames false CategoryTrends.empty_session))
     = Some 10%nat /\
     (cshown <= ctotal)%nat /\
     St.cards (snd (CategoryTrends.listing cgames clicked cs))
     = map CategoryTrends.bgg_id (firstn cshown cgames) /\
     shown_count (CategoryTrends.games_show_n_cat
                    (fst (CategoryTrends.listing cgames true cs))) ctotal
     = Nat.min (cshown + 10) ctotal /\
     shown_count (CategoryTrends.games_show_n_cat
                    (fst (CategoryTrends.listing cgames false cs))) ctotal
     = cshown /\
     (cshown = ctotal ->
      CategoryTrends.listing cgames true cs
      = CategoryTrends.listing cgames false cs)) /\
    (* game search *)
    (exists s0 out0 s1 out1 s2 out2,
        GameSearch.main (Db.Present db) (GameSearch.mk_inputs false q false)
                        GameSearch.empty_session = St.Done s0 out0 /\
        GameSearch.results_show_n s0 = Some 10%nat /\
        GameSearch.main (Db.Present db) (GameSearch.mk_inputs false q clicked)
                        gs = St.Done s1 out1 /\
        (gshown <= gtotal)%nat /\
        St.cards out1
        = map (fun r => Db.bgg_id (GameSearch.game r))
              (firstn gshown (GameSearch.matches db q)) /\
        GameSearch.main (Db.Present db) (GameSearch.mk_inputs false q true)
                        gs = St.Done s2 out2 /\
        shown_count (GameSearch.results_show_n s2) gtotal
        = Nat.min (gshown + 10) gtotal /\
        (gshown = gtotal ->
         GameSearch.results_show_n s2
         = Some (GameSearch.default 10%nat (GameSearch.results_show_n gs)))).
Proof.
  intros. repeat apply conj.
  - destruct (mechanic_listing_spec mgames false MechanicTrends.empty_session)
      as [E _].
    cbv zeta in E. now rewrite E.
  - apply Nat.le_min_r.
  - apply (mechanic_listing_spec mgames clicked ms).
  - destruct (mechanic_listing_spec mgames true ms) as [E _].
    cbv zeta in E. rewrite E. unfold mshown, shown_count, mtotal.
    destruct (MechanicTrends.games_show_n ms) as [n|];
      cbn [MechanicTrends.games_show_n MechanicTrends.set_games_show_n
           MechanicTrends.default andb];
      match goal with
      | |- context [(?a <? ?b)%nat] => destruct (Nat.ltb_spec a b)
      end; lia.
  - destruct (mechanic_listing_spec mgames false ms) as [E _].
    cbv zeta in E. rewrite E. unfold mshown, shown_count.
    now destruct (MechanicTrends.games_show_n ms).
  - intros Hall. apply injective_projections.
    + destruct (mechanic_listing_spec mgames true ms) as [E1 _].
      destruct (mechanic_listing_spec mgames false ms) as [E2 _].
      cbv zeta in E1, E2. rewrite E1, E2. cbn [andb].
      replace (_ <? _)%nat with false; [reflexivity|].
      symmetry. apply Nat.ltb_ge. unfold mshown, shown_count, mtotal in Hall.
      destruct (MechanicTrends.games_show_n ms);
        cbn [MechanicTrends.default]; lia.
    + unfold MechanicTrends.listing. cbv zeta.
      replace (_ <? _)%nat with false; [reflexivity|].
      symmetry. apply Nat.ltb_ge. unfold mshown, shown_count, mtotal in Hall.
      destruct ms as [? ? ? ? ? ? ? ? ? ? ? ? [n|]];
        cbn -[Nat.min] in Hall |- *; lia.
  - destruct (category_listing_spec cgames false CategoryTrends.empty_session)
      as [E _].
    cbv zeta in E. now rewrite E.
  - apply Nat.le_min_r.
  - apply (category_listing_spec cgames clicked cs).
  - destruct (category_listing_spec cgames true cs) as [E _].
    cbv zeta in E. rewrite E. unfold cshown, shown_count, ctotal.
    destruct (CategoryTrends.games_show_n_cat cs) as [n|];
      cbn [CategoryTrends.games_show_n_cat CategoryTrends.set_games_show_n_cat
           CategoryTrends.default andb];
      match goal with
      | |- context [(?a <? ?b)%nat] => destruct (Nat.ltb_spec a b)
      end; lia.
  - destruct (category_listing_spec cgames false cs) as [E _].
    cbv zeta in E. rewrite E. unfold cshown, shown_count.
    now destruct (CategoryTrends.games_show_n_cat cs).
  - intros Hall. apply injective_projections.
    + destruct (category_listing_spec cgames true cs) as [E1 _].
      destruct (category_listing_spec cgames false cs) as [E2 _].
      cbv zeta in E1, E2. rewrite E1, E2. cbn [andb].
      replace (_ <? _)%nat with false; [reflexivity|].
      symmetry. apply Nat.ltb_ge. unfold cshown, shown_count, ctotal in Hall.
      destruct (CategoryTrends.games_show_n_cat cs);
        cbn [CategoryTrends.default]; lia.
    + unfold CategoryTrends.listing. cbv zeta.
      replace (_ <? _)%nat with false; [reflexivity|].
      symmetry. apply Nat.ltb_ge. unfold cshown, shown_count, ctotal in Hall.
      destruct cs as [? ? ? ? [n|]]; cbn -[Nat.min] in Hall |- *; lia.
  - destruct (search_main_spec db (GameSearch.mk_inputs false q false)
                GameSearch.empty_session) as (s0 & out0 & M0 & N0 & _).
    destruct (search_main_spec db (GameSearch.mk_inputs false q clicked) gs)
      as (s1 & out1 & M1 & _ & C1).
    destruct (search_main_spec db (GameSearch.mk_inputs false q true) gs)
      as (s2 & out2 & M2 & N2 & _).
    cbn [GameSearch.form GameSearch.submitted GameSearch.show_more
         GameSearch.results_show_n GameSearch.empty_session
         GameSearch.default andb] in *.
    exists s0, out0, s1, out1, s2, out2.
    assert (Eg : gshown
                 = Nat.min (GameSearch.default 10%nat
                              (GameSearch.results_show_n gs)) gtotal).
    { unfold gshown, shown_count. now destruct (GameSearch.results_show_n gs). }
    fold gtotal in C1, N2. rewrite <- Eg in C1, N2.
    repeat apply conj; auto.
    + apply Nat.le_min_r.
    + rewrite N2. unfold shown_count.
      destruct (Nat.ltb_spec gshown gtotal); lia.
    + intros Hall. rewrite N2.
      replace (gshown <? gtotal)%nat with false; [reflexivity|].
      symmetry. apply Nat.ltb_ge. lia.
Qed.

(* ================================================================== *)
(** ** C4: when the counter is reset *)
(* ================================================================== *)

(** First visit of the mechanic page (10 of the 25 games shown), a click on
    "show more" (20 shown), then the rank slider moved from 10000 to 500:
    22 games remain, year and mechanic of the drill-down are the same, and
    the counter stays at 20, with 20 cards drawn. *)
Lemma C4_rank_limit_change_keeps_counter :
  let f := Db.Present Examples.db_25 in
  let idle := MechanicTrends.mk_inputs None None false in
  let click := MechanicTrends.mk_inputs None None true in
  let s0 := MechanicTrends.empty_session in
  let s1 := St.state_or s0 (MechanicTrends.run f idle s0) in
  let o2 := MechanicTrends.run f click s1 in
  let s2 := St.state_or s0 o2 in
  let o3 := MechanicTrends.run f idle (MechanicTrends.set_rank_limit 500%Z s2) in
  let s3 := St.state_or s0 o3 in
  MechanicTrends.games_show_n s1 = Some 10%nat /\
  MechanicTrends.rank_limit s2 = Some 10000%Z /\
  MechanicTrends.games_show_n s2 = Some 20%nat /\
  List.length (St.cards (St.calls o2)) = 20%nat /\
  MechanicTrends.rank_limit s3 = Some 500%Z /\
  MechanicTrends.games_show_n s3 = Some 20%nat /\
  MechanicTrends.games_show_n s3 <> Some 10%nat /\
  St.cards (St.calls o3)
  = map Z.of_nat (seq 1 20).
Proof.
  vm_compute. repeat split. discriminate.
Qed.



Lemma same_listing_state_refl s : same_listing_state s s.
Proof. split; reflexivity. Qed.

Lemma same_listing_state_trans s1 s2 s3 :
  same_listing_state s1 s2 -> same_listing_state s2 s3 ->
  same_listing_state s1 s3.
Proof. unfold same_listing_state. intros [A B] [C D]. split; congruence. Qed.

Lemma same_then_reset_rule s1 s2 s3 :
  same_listing_state s1 s2 -> reset_rule s2 s3 -> reset_rule s1 s3.
Proof.
  unfold same_listing_state, reset_rule. intros [A B] [C D].
  rewrite <- A, <- B. auto.
Qed.

Lemma same_reset_rule s s' : same_listing_state s s' -> reset_rule s s'.
Proof.
  unfold same_listing_state, reset_rule. intros [A B]. split.
  - intros H. contradiction.
  - intros _. now left.
Qed.

Lemma render_sidebar_same df idf inp s :
  same_listing_state s (fst (fst (fst (MechanicTrends.render_sidebar df idf inp s)))).
Proof.
  unfold MechanicTrends.render_sidebar. cbv zeta. cbn [fst snd].
  destruct s as [? ? ? u t sm ? ? ? ? ? ? ?].
  unfold MechanicTrends.setdefault.
  destruct u as [[|]|], t, sm; split; reflexivity.
Qed.

Lemma filter_defaults_same s :
  same_listing_state s
    (MechanicTrends.setdefault MechanicTrends.year_range
       MechanicTrends.set_year_range (2005, 2025)%Z
       (MechanicTrends.setdefault MechanicTrends.rank_limit
          MechanicTrends.set_rank_limit 10000%Z s)).
Proof.
  destruct s as [rl yr ? ? ? ? ? ? ? ? ? ? ?].
  destruct rl, yr; split; reflexivity.
Qed.

Lemma sync_click_same click ay am s :
  same_listing_state s (MechanicTrends.sync_click click ay am s).
Proof.
  unfold MechanicTrends.sync_click.
  destruct click as [[y|] [m|]]; try apply same_listing_state_refl.
  destruct (truthy m); [|apply same_listing_state_refl].
  destruct (St.mem_Z y ay), (St.mem_str m am); split; reflexivity.
Qed.

Lemma default_detail_same ay am ranked s :
  same_listing_state s (MechanicTrends.default_detail ay am ranked s).
Proof.
  unfold MechanicTrends.default_detail. cbv zeta.
  repeat match goal with
         | |- context [if ?c then _ else _] => destruct c
         | |- context [match MechanicTrends.detail_year ?x with _ => _ end] =>
             destruct (MechanicTrends.detail_year x)
         | |- context [match MechanicTrends.detail_mechanic ?x with _ => _ end] =>
             destruct (MechanicTrends.detail_mechanic x)
         end; split; reflexivity.
Qed.

Lemma point_eqb_true o p :
  MechanicTrends.point_eqb o p = true <-> o = Some p.
Proof.
  destruct o as [q|]; simpl.
  - rewrite year_name_eqb_spec. split; congruence.
  - split; discriminate.
Qed.

Lemma listing_unclicked_reset games s :
  reset_rule s (fst (MechanicTrends.listing games false s)) /\
  (MechanicTrends.games_show_n s = Some 10%nat ->
   MechanicTrends.games_show_n (fst (MechanicTrends.listing games false s))
   = Some 10%nat) /\
  MechanicTrends._last_selected_point
    (fst (MechanicTrends.listing games false s))
  = MechanicTrends._last_selected_point s.
Proof.
  destruct (mechanic_listing_spec games false s) as [E _].
  cbv zeta in E. rewrite E. cbn [andb]. unfold reset_rule.
  destruct s as [? ? ? ? ? ? ? ? ? ? ? ? [n|]]; cbn; repeat split; auto.
  intros H. congruence.
Qed.

Lemma drill_down_reset fd grouped idf click s :
  reset_rule s (fst (MechanicTrends.drill_down fd grouped idf click false s)).
Proof.
  unfold MechanicTrends.drill_down. cbv zeta.
  set (ay := MechanicTrends.avail_years grouped).
  set (am := MechanicTrends.avail_mechs grouped).
  set (s1 := MechanicTrends.default_detail ay am _ _).
  assert (H1 : same_listing_state s s1).
  { eapply same_listing_state_trans;
      [apply sync_click_same | apply default_detail_same]. }
  set (s2 := MechanicTrends.put_detail_year _ _).
  assert (H2 : same_listing_state s s2).
  { eapply same_listing_state_trans; [exact H1 | split; reflexivity]. }
  destruct (MechanicTrends.selectbox St.mem_str am _) as [sel_mech|];
    [|now apply same_reset_rule].
  destruct (MechanicTrends.selectbox St.mem_Z ay _) as [sel_year|];
    [|now apply same_reset_rule].
  destruct (truthy sel_mech && negb (sel_year =? 0)%Z);
    [|now apply same_reset_rule].
  eapply same_then_reset_rule; [exact H2|].
  destruct (MechanicTrends.point_eqb
              (MechanicTrends._last_selected_point s2) (sel_year, sel_mech))
    eqn:Ep.
  - destruct (find _ grouped).
    + destruct (MechanicTrends.listing _ false s2) as [s3 out] eqn:El.
      cbn [fst]. replace s3 with (fst (MechanicTrends.listing
        (MechanicTrends.games_in_year fd sel_year sel_mech) false s2))
        by now rewrite El.
      apply listing_unclicked_reset.
    + apply same_reset_rule, same_listing_state_refl.
  - assert (Hne : MechanicTrends._last_selected_point s2
                  <> Some (sel_year, sel_mech)).
    { intros E. apply point_eqb_true in E. congruence. }
    set (s3 := MechanicTrends.set_games_show_n 10%nat _).
    assert (H3 : MechanicTrends._last_selected_point s3
                 = Some (sel_year, sel_mech) /\
                 MechanicTrends.games_show_n s3 = Some 10%nat).
    { split; reflexivity. }
    destruct H3 as [H3p H3n].
    destruct (find _ grouped).
    + destruct (MechanicTrends.listing _ false s3) as [s4 out] eqn:El.
      cbn [fst]. replace s4 with (fst (MechanicTrends.listing
        (MechanicTrends.games_in_year fd sel_year sel_mech) false s3))
        by now rewrite El.
      destruct (listing_unclicked_reset
                  (MechanicTrends.games_in_year fd sel_year sel_mech) s3)
        as (_ & Hn & Hp).
      unfold reset_rule. rewrite Hp, H3p, (Hn H3n). split; auto.
      intros E. congruence.
    + cbn [fst]. unfold reset_rule. rewrite H3p, H3n. split; auto.
      intros E. congruence.
Qed.

Lemma mechanic_main_reset f inp s s' out :
  MechanicTrends.show_more inp = false ->
  MechanicTrends.main f inp s = St.Done s' out ->
  reset_rule s s'.
Proof.
  intros Hclick. unfold MechanicTrends.main.
  destruct (MechanicTrends.load_data f) as [raw|]; [|discriminate].
  destruct (is_empty raw).
  { intros E. inversion E. subst. apply same_reset_rule,
      same_listing_state_refl. }
  cbv zeta.
  set (s1 := MechanicTrends.setdefault MechanicTrends.year_range _ _ _).
  pose proof (filter_defaults_same s) as H1. fold s1 in H1.
  set (idf := MechanicTrends.compute_impact _).
  pose proof (render_sidebar_same raw idf inp s1) as H2.
  destruct (MechanicTrends.render_sidebar raw idf inp s1)
    as [[[s2 fd] ml] rl]. cbn [fst] in H2.
  assert (H12 : same_listing_state s s2)
    by (eapply same_listing_state_trans; eassumption).
  destruct (is_empty fd).
  { intros E. inversion E. subst. now apply same_reset_rule. }
  destruct (is_empty (MechanicTrends.default [] _)).
  { intros E. inversion E. subst. now apply same_reset_rule. }
  destruct (is_empty (Frame.groupby_agg _ _ _ _ _ _)).
  { intros E. inversion E. subst. now apply same_reset_rule. }
  destruct (MechanicTrends.render_chart _ ml _) as [chart_out cstate].
  rewrite Hclick.
  match goal with
  | |- context [MechanicTrends.drill_down ?a ?b ?c ?d false s2] =>
      pose proof (drill_down_reset a b c d s2) as H3;
      destruct (MechanicTrends.drill_down a b c d false s2) as [s3 out3]
  end.
  cbn [fst] in H3. intros E. inversion E. subst.
  eapply same_then_reset_rule; eassumption.
Qed.

Lemma returned_Done {S} (d : S) (o : St.outcome S) :
  St.returned o = true -> o = St.Done (St.state_or d o) (St.calls o).
Proof. destruct o; [reflexivity | discriminate]. Qed.

(** C4 (amended).  On the search page, a run that follows a press of the
    search button (the only way a changed filter reaches the script) leaves
    the counter at 10.  On the mechanic page, a run that does not follow a
    click on "show more" leaves the counter at 10 when it records a
    drill-down point (year, mechanic) other than the last one, and leaves
    the counter as it was (10 if it had none) when the point is the same,
    whatever happened to the rank limit and the year range. *)
Theorem C4_counter_reset_rule :
  forall (db : Db.t) (ginp : GameSearch.inputs) (gs : GameSearch.session)
         (f : Db.file) (minp : MechanicTrends.inputs)
         (ms ms' : MechanicTrends.session) (mout : list St.call),
    GameSearch.submitted ginp = true ->
    GameSearch.show_more ginp = false ->
    MechanicTrends.show_more minp = false ->
    MechanicTrends.main f minp ms = St.Done ms' mout ->
    (exists gs' gout,
        GameSearch.main (Db.Present db) ginp gs = St.Done gs' gout /\
        GameSearch.results_show_n gs' = Some 10%nat) /\
    (MechanicTrends._last_selected_point ms'
     <> MechanicTrends._last_selected_point ms ->
     MechanicTrends.games_show_n ms' = Some 10%nat) /\
    (MechanicTrends._last_selected_point ms'
     = MechanicTrends._last_selected_point ms ->
     MechanicTrends.games_show_n ms' = MechanicTrends.games_show_n ms \/
     (MechanicTrends.games_show_n ms = None /\
      MechanicTrends.games_show_n ms' = Some 10%nat)).
Proof.
  intros db ginp gs f minp ms ms' mout Hsub Hgclick Hmclick Hmain. split.
  - destruct (search_main_spec db ginp gs) as (gs' & gout & E & N & _).
    rewrite Hsub, Hgclick in N. cbn [andb] in N.
    exists gs', gout. split; assumption.
  - exact (mechanic_main_reset f minp ms ms' mout Hmclick Hmain).
Qed.

(** C4 on the 25 games: a search is submitted from a session whose counter
    is 30, and the mechanic page is opened with the point (2020,
    "Dice Rolling") recorded and the counter at 20, after the rank limit was
    set to 500; the first counter becomes 10, the second stays at 20. *)
Lemma C4_witness :
  let gs := GameSearch.set_results_show_n 30%nat GameSearch.empty_session in
  let ginp := GameSearch.mk_inputs true Examples.no_filters false in
  let f := Db.Present Examples.db_25 in
  let idle := MechanicTrends.mk_inputs None None false in
  let ms := MechanicTrends.set_rank_limit 500%Z
              (MechanicTrends.set_games_show_n 20%nat
                 (MechanicTrends.set_last_selected_point
                    (2020%Z, "Dice Rolling"%string)
                    MechanicTrends.empty_session)) in
  let ms' := St.state_or ms (MechanicTrends.main f idle ms) in
  (exists gs' gout,
      GameSearch.main f ginp gs = St.Done gs' gout /\
      GameSearch.results_show_n gs' = Some 10%nat) /\
  MechanicTrends._last_selected_point ms'
  = MechanicTrends._last_selected_point ms /\
  MechanicTrends.games_show_n ms' = Some 20%nat.
Proof.
  intros gs ginp f idle ms ms'.
  destruct (C4_counter_reset_rule Examples.db_25 ginp gs f idle ms ms'
              (St.calls (MechanicTrends.main f idle ms))
              eq_refl eq_refl eq_refl) as (Hg & _ & Hsame).
  - apply returned_Done. vm_compute. reflexivity.
  - assert (Hp : MechanicTrends._last_selected_point ms'
                 = MechanicTrends._last_selected_point ms)
      by (vm_compute; reflexivity).
    split; [exact Hg|]. split; [exact Hp|].
    destruct (Hsame Hp) as [E|[E _]]; [rewrite E; reflexivity | discriminate E].
Defined.


(* ================================================================== *)
(** ** C7 and C2: the Impact metric *)
(* ================================================================== *)

Section LnBounds.
Local Open Scope R_scope.

Lemma ln_le_mono x y : 0 < x -> x <= y -> ln x <= ln y.
Proof.
  intros Hx [H|H]; [left; apply ln_increasing; assumption | right; now subst].
Qed.

Lemma ln_square_le x y : 0 < x -> x * x <= y -> 2 * ln x <= ln y.
Proof.
  intros Hx H. replace (2 * ln x) with (ln (x * x)).
  - apply ln_le_mono; [apply Rmult_lt_0_compat; assumption | exact H].
  - rewrite ln_mult by assumption. lra.
Qed.

Lemma ln_square_ge x y : 0 < x -> 0 < y -> y <= x * x -> ln y <= 2 * ln x.
Proof.
  intros Hx Hy H. replace (2 * ln x) with (ln (x * x)).
  - apply ln_le_mono; assumption.
  - rewrite ln_mult by assumption. lra.
Qed.

Lemma ln_upper x : 0 < x -> ln x <= x - 1.
Proof.
  intros Hx. pose proof (exp_ineq1_le (x - 1)) as H.
  replace (1 + (x - 1)) with x in H by lra.
  apply ln_le_mono in H; [|exact Hx]. now rewrite ln_exp in H.
Qed.

Lemma ln_lower x : 0 < x -> 1 - / x <= ln x.
Proof.
  intros Hx. pose proof (ln_upper (/ x) (Rinv_0_lt_compat _ Hx)) as H.
  rewrite ln_Rinv in H by exact Hx. lra.
Qed.

Lemma ln_51_bounds : 3.9315 < ln 51 < 3.9325.
Proof.
  assert (L0 : 2 * ln 1.000119996991 <= ln 1.000240008382)
    by (apply ln_square_le; lra).
  assert (L1 : 2 * ln 1.000240008382 <= ln 1.000480074369)
    by (apply ln_square_le; lra).
  assert (L2 : 2 * ln 1.000480074369 <= ln 1.000960379210)
    by (apply ln_square_le; lra).
  assert (L3 : 2 * ln 1.000960379210 <= ln 1.001921680749)
    by (apply ln_square_le; lra).
  assert (L4 : 2 * ln 1.001921680749 <= ln 1.003847054355)
    by (apply ln_square_le; lra).
  assert (L5 : 2 * ln 1.003847054355 <= ln 1.007708908538)
    by (apply ln_square_le; lra).
  assert (L6 : 2 * ln 1.007708908538 <= ln 1.015477244347)
    by (apply ln_square_le; lra).
  assert (L7 : 2 * ln 1.015477244347 <= ln 1.031194033787)
    by (apply ln_square_le; lra).
  assert (L8 : 2 * ln 1.031194033787 <= ln 1.063361135318)
    by (apply ln_square_le; lra).
  assert (L9 : 2 * ln 1.063361135318 <= ln 1.130736904105)
    by (apply ln_square_le; lra).
  assert (L10 : 2 * ln 1.130736904105 <= ln 1.278565946305)
    by (apply ln_square_le; lra).
  assert (L11 : 2 * ln 1.278565946305 <= ln 1.634730879051)
    by (apply ln_square_le; lra).
  assert (L12 : 2 * ln 1.634730879051 <= ln 2.672345046923)
    by (apply ln_square_le; lra).
  assert (L13 : 2 * ln 2.672345046923 <= ln 7.141428049814)
    by (apply ln_square_le; lra).
  assert (L14 : 2 * ln 7.141428049814 <= ln 50.999994590671)
    by (apply ln_square_le; lra).
  assert (L15 : ln 50.999994590671 <= ln 51) by (apply ln_le_mono; lra).
  assert (L : 1 - / 1.000119996991 <= ln 1.000119996991) by (apply ln_lower; lra).
  assert (U0 : ln 1.000240008395 <= 2 * ln 1.000119996998)
    by (apply ln_square_ge; lra).
  assert (U1 : ln 1.000480074394 <= 2 * ln 1.000240008395)
    by (apply ln_square_ge; lra).
  assert (U2 : ln 1.000960379259 <= 2 * ln 1.000480074394)
    by (apply ln_square_ge; lra).
  assert (U3 : ln 1.001921680846 <= 2 * ln 1.000960379259)
    by (apply ln_square_ge; lra).
  assert (U4 : ln 1.003847054549 <= 2 * ln 1.001921680846)
    by (apply ln_square_ge; lra).
  assert (U5 : ln 1.007708908926 <= 2 * ln 1.003847054549)
    by (apply ln_square_ge; lra).
  assert (U6 : ln 1.015477245128 <= 2 * ln 1.007708908926)
    by (apply ln_square_ge; lra).
  assert (U7 : ln 1.031194035372 <= 2 * ln 1.015477245128)
    by (apply ln_square_ge; lra).
  assert (U8 : ln 1.063361138586 <= 2 * ln 1.031194035372)
    by (apply ln_square_ge; lra).
  assert (U9 : ln 1.130736911054 <= 2 * ln 1.063361138586)
    by (apply ln_square_ge; lra).
  assert (U10 : ln 1.278565962019 <= 2 * ln 1.130736911054)
    by (apply ln_square_ge; lra).
  assert (U11 : ln 1.634730919233 <= 2 * ln 1.278565962019)
    by (apply ln_square_ge; lra).
  assert (U12 : ln 2.672345178296 <= 2 * ln 1.634730919233)
    by (apply ln_square_ge; lra).
  assert (U13 : ln 7.141428751961 <= 2 * ln 2.672345178296)
    by (apply ln_square_ge; lra).
  assert (U14 : ln 51.000004619335 <= 2 * ln 7.141428751961)
    by (apply ln_square_ge; lra).
  assert (U15 : ln 51 <= ln 51.000004619335) by (apply ln_le_mono; lra).
  assert (U : ln 1.000119996998 <= 1.000119996998 - 1) by (apply ln_upper; lra).
  split; lra.
Qed.
End LnBounds.

Section GroupByFacts.
Context {A K : Type}.
Variable keq : K -> K -> bool.
Variable kleb : K -> K -> bool.
Variable key : A -> K.
Variable bgg_id : A -> Z.
Variable rating_geek : A -> option Q.
Hypothesis keq_spec : forall a b, keq a b = true <-> a = b.

Lemma group_keys_In k df :
  In k (Frame.group_keys keq kleb key df) <-> In k (map key df).
Proof.
  unfold Frame.group_keys, Frame.unique. rewrite sort_by_In.
  pose proof (dedup_on_keys keq (fun k => k) keq_spec k (map key df))
    as H.
  now rewrite !map_id in H.
Qed.

Lemma group_nonempty k df :
  In k (map key df) -> Frame.group keq key k df <> [].
Proof.
  rewrite in_map_iff. intros (r & E & Hr) Hnil.
  assert (Hin : In r (Frame.group keq key k df)).
  { apply filter_In. split; [exact Hr | now apply keq_spec]. }
  rewrite Hnil in Hin. contradiction.
Qed.

Lemma groupby_agg_Forall (P : Frame.agg K -> Prop) df :
  (forall k, In k (map key df) ->
             P (Frame.agg_group keq key bgg_id rating_geek df k)) ->
  Forall P (Frame.groupby_agg keq kleb key bgg_id rating_geek df).
Proof.
  intros H. apply Forall_forall. intros g Hg.
  unfold Frame.groupby_agg in Hg. apply in_map_iff in Hg.
  destruct Hg as (k & <- & Hk). apply H. now apply group_keys_In.
Qed.
End GroupByFacts.

Lemma nunique_distinct ids : Frame.nunique ids = Spec.distinct_games ids.
Proof.
  unfold Frame.nunique, Spec.distinct_games, Frame.unique.
  apply Permutation_length, NoDup_Permutation.
  - pose proof (dedup_on_NoDup Z.eqb (fun k => k) Zeqb_spec ids) as H.
    now rewrite map_id in H.
  - apply NoDup_nodup.
  - intros x. rewrite nodup_In.
    pose proof (dedup_on_keys Z.eqb (fun k => k) Zeqb_spec x ids) as H.
    now rewrite !map_id in H.
Qed.

Lemma mean_is_mean col : Spec.is_mean col (Frame.mean col).
Proof.
  unfold Spec.is_mean, Frame.mean.
  destruct (Frame.dropna col) as [|v vals] eqn:E; [reflexivity|].
  split; [discriminate|].
  field. unfold Qeq. cbn -[Z.of_nat]. lia.
Qed.

Lemma impact_label_is_impact :
  prefix "Popularity" impact_label = false /\
  prefix "Quality" impact_label = false.
Proof. split; reflexivity. Qed.

Lemma mul_log_spec (avg : option Q) (count : nat) :
  Np.mul (Np.of_rating avg) (Np.log (Np.of_count count + 1)%R)
  = option_map (fun a => Spec.impact a count) avg.
Proof. destruct avg; reflexivity. Qed.

(** C7.  For a metric label that selects Impact (one that starts with
    neither "Popularity" nor "Quality"), and for rows with the same count
    and the same average rating, the impact column of [compute_impact], the
    value plotted by the line chart of the mechanic page, the value plotted
    by the line chart of the category page, the value of the Top-20 bar
    chart and the Impact figure of the drill-down panel are one and the same
    number, the specification's [avg_geek * ln(count + 1)]. *)
Theorem C7_impact_values_agree :
  forall (label : string) (a m : Frame.agg string)
         (g1 g2 : Frame.agg (Z * string)),
    prefix "Popularity" label = false ->
    prefix "Quality" label = false ->
    Frame.count g1 = Frame.count a -> Frame.avg_geek g1 = Frame.avg_geek a ->
    Frame.count g2 = Frame.count a -> Frame.avg_geek g2 = Frame.avg_geek a ->
    Frame.count m = Frame.count a -> Frame.avg_geek m = Frame.avg_geek a ->
    let v := MechanicTrends.impact (MechanicTrends.with_impact a) in
    v = option_map (fun q => Spec.impact q (Frame.count a)) (Frame.avg_geek a) /\
    MechanicTrends.chart_value label g1 = v /\
    CategoryTrends.chart_value label g2 = v /\
    CategoryTrends.bar_value label m = v /\
    MechanicTrends.panel g1
    = St.metrics (Frame.count a) (Np.of_rating (Frame.avg_geek a)) v.
Proof.
  intros label a m g1 g2 Hp Hq C1 A1 C2 A2 Cm Am v. subst v.
  unfold MechanicTrends.chart_value, CategoryTrends.chart_value,
    CategoryTrends.bar_value, MechanicTrends.panel, MechanicTrends.with_impact.
  cbn [MechanicTrends.impact]. rewrite Hp, Hq, C1, A1, C2, A2, Cm, Am.
  repeat split. apply mul_log_spec.
Qed.

(** C7 at the label of the radio button and the group of fifty games rated
    7.0. *)
Lemma C7_witness :
  let a := Frame.mk_agg "Dice Rolling"%string 50%nat (Some 7%Q) in
  let g := Frame.mk_agg (2020%Z, "Dice Rolling"%string) 50%nat (Some 7%Q) in
  let v := MechanicTrends.impact (MechanicTrends.with_impact a) in
  v = Some (Spec.impact 7%Q 50%nat) /\
  MechanicTrends.chart_value impact_label g = v /\
  CategoryTrends.chart_value impact_label g = v /\
  CategoryTrends.bar_value impact_label a = v /\
  MechanicTrends.panel g = St.metrics 50%nat (Some (Q2R 7%Q)) v.
Proof.
  exact (C7_impact_values_agree impact_label
           (Frame.mk_agg "Dice Rolling"%string 50%nat (Some 7%Q))
           (Frame.mk_agg "Dice Rolling"%string 50%nat (Some 7%Q))
           (Frame.mk_agg (2020%Z, "Dice Rolling"%string) 50%nat (Some 7%Q))
           (Frame.mk_agg (2020%Z, "Dice Rolling"%string) 50%nat (Some 7%Q))
           eq_refl eq_refl eq_refl eq_refl eq_refl eq_refl eq_refl eq_refl).
Defined.


Lemma agg_group_meets_spec {A K} (keq : K -> K -> bool) (key : A -> K)
    (bgg_id : A -> Z) (rating_geek : A -> option Q) df k :
  (forall a b, keq a b = true <-> a = b) ->
  In k (map key df) ->
  let g := Frame.agg_group keq key bgg_id rating_geek df k in
  let rows := Frame.group keq key (Frame.gkey g) df in
  group_meets_spec (map bgg_id rows) (map rating_geek rows) g
    (Np.mul (Np.of_rating (Frame.avg_geek g))
            (Np.log (Np.of_count (Frame.count g) + 1)%R)).
Proof.
  intros Hk Hin g rows. unfold group_meets_spec. subst g rows.
  cbn [Frame.agg_group Frame.gkey Frame.count Frame.avg_geek].
  repeat split.
  - intros E. apply map_eq_nil in E.
    now apply (group_nonempty keq key Hk k df).
  - apply nunique_distinct.
  - apply mean_is_mean.
  - apply mul_log_spec.
Qed.

Lemma impact_7_50 : (27.52 < Spec.impact 7%Q 50%nat < 27.53)%R.
Proof.
  unfold Spec.impact.
  replace (INR 50 + 1)%R with 51%R by (rewrite INR_IZR_INZ; cbn; lra).
  replace (Q2R 7) with 7%R by (unfold Q2R; cbn; lra).
  pose proof ln_51_bounds. lra.
Qed.

(** The specification's example value is off in the second decimal: the
    group of fifty games rated 7.0 has count 50, average 7 and Impact
    7 * ln 51, which lies above 27.52, more than 0.03 away from 27.49. *)
Lemma C2_example_is_not_27_49 :
  exists g a v,
    Frame.groupby_agg year_name_eqb year_name_leb
      (fun r => (MechanicTrends.year r, MechanicTrends.mechanic r))
      MechanicTrends.bgg_id MechanicTrends.rating_geek Examples.rows_50
    = [g] /\
    Frame.count g = 50%nat /\
    Frame.avg_geek g = Some a /\ (a == 7)%Q /\
    MechanicTrends.chart_value impact_label g = Some v /\
    (v - 27.49 > 0.03)%R.
Proof.
  eexists. eexists. eexists. split; [vm_compute; reflexivity|].
  split; [reflexivity|]. split; [reflexivity|]. split; [reflexivity|].
  split; [reflexivity|].
  unfold Np.log, Np.of_count. cbn [Frame.count].
  replace (INR 50 + 1)%R with 51%R by (rewrite INR_IZR_INZ; cbn; lra).
  unfold Q2R; cbn [Qnum Qden].
  pose proof ln_51_bounds. lra.
Qed.

(** C2 (amended).  In the frame grouped by (year, mechanic) on the mechanic
    page, by (year, category) on the category page, and by mechanic in
    [compute_impact], every group is non-empty, its count is the number of
    distinct game identifiers of its rows, its average is the mean of the
    ratings that are present (missing when none is), and the value plotted
    or stored for Impact is average * ln(count + 1) over the reals (missing
    when the average is); and a group with count 50 and average 7.0 has
    Impact 7 * ln 51, between 27.52 and 27.53. *)
Theorem C2_grouping_metrics :
  forall (mdf : list MechanicTrends.row) (cdf : list CategoryTrends.row),
    Forall (fun g =>
              let rows := Frame.group year_name_eqb
                            (fun r => (MechanicTrends.year r,
                                       MechanicTrends.mechanic r))
                            (Frame.gkey g) mdf in
              group_meets_spec (map MechanicTrends.bgg_id rows)
                               (map MechanicTrends.rating_geek rows) g
                               (MechanicTrends.chart_value impact_label g))
           (Frame.groupby_agg year_name_eqb year_name_leb
              (fun r => (MechanicTrends.year r, MechanicTrends.mechanic r))
              MechanicTrends.bgg_id MechanicTrends.rating_geek mdf) /\
    Forall (fun g =>
              let rows := Frame.group year_name_eqb
                            (fun r => (CategoryTrends.year r,
                                       CategoryTrends.category r))
                            (Frame.gkey g) cdf in
              group_meets_spec (map CategoryTrends.bgg_id rows)
                               (map CategoryTrends.rating_geek rows) g
                               (CategoryTrends.chart_value impact_label g))
           (Frame.groupby_agg year_name_eqb year_name_leb
              (fun r => (CategoryTrends.year r, CategoryTrends.category r))
              CategoryTrends.bgg_id CategoryTrends.rating_geek cdf) /\
    Forall (fun r =>
              let g := MechanicTrends.stats r in
              let rows := Frame.group String.eqb MechanicTrends.mechanic
                            (Frame.gkey g) mdf in
              group_meets_spec (map MechanicTrends.bgg_id rows)
                               (map MechanicTrends.rating_geek rows) g
                               (MechanicTrends.impact r))
           (MechanicTrends.compute_impact mdf) /\
    (27.52 < Spec.impact 7%Q 50%nat < 27.53)%R.
Proof.
  intros mdf cdf. split; [|split; [|split]].
  - apply groupby_agg_Forall; [apply year_name_eqb_spec|].
    intros k Hk. apply agg_group_meets_spec; [apply year_name_eqb_spec|exact Hk].
  - apply groupby_agg_Forall; [apply year_name_eqb_spec|].
    intros k Hk. apply agg_group_meets_spec; [apply year_name_eqb_spec|exact Hk].
  - unfold MechanicTrends.compute_impact. apply Forall_map.
    apply groupby_agg_Forall; [apply Streqb_spec|].
    intros k Hk. cbn [MechanicTrends.stats MechanicTrends.with_impact
                       MechanicTrends.impact].
    apply agg_group_meets_spec; [apply Streqb_spec|exact Hk].
  - apply impact_7_50.
Qed.

(* ================================================================== *)
(** ** C6: the drill-down selection *)
(* ================================================================== *)



Lemma sync_click_year click ay am s :
  let s0 := MechanicTrends.sync_click click ay am s in
  match usable_click click with
  | Some (y, _) =>
      if St.mem_Z y ay
      then MechanicTrends.detail_year_box s0 = Some y
      else MechanicTrends.detail_year_box s0 = MechanicTrends.detail_year_box s
           /\ MechanicTrends.detail_year s0 = MechanicTrends.detail_year s
  | None => MechanicTrends.detail_year_box s0 = MechanicTrends.detail_year_box s
            /\ MechanicTrends.detail_year s0 = MechanicTrends.detail_year s
  end.
Proof.
  unfold MechanicTrends.sync_click, usable_click.
  destruct click as [[y|] [m|]]; cbn; auto.
  destruct (truthy m); auto.
  destruct (St.mem_Z y ay), (St.mem_str m am); cbn; auto.
Qed.

Lemma sync_click_mech click ay am s :
  let s0 := MechanicTrends.sync_click click ay am s in
  match usable_click click with
  | Some (_, m) =>
      if St.mem_str m am
      then MechanicTrends.detail_mechanic_box s0 = Some m
      else MechanicTrends.detail_mechanic_box s0
           = MechanicTrends.detail_mechanic_box s
           /\ MechanicTrends.detail_mechanic s0 = MechanicTrends.detail_mechanic s
  | None => MechanicTrends.detail_mechanic_box s0
            = MechanicTrends.detail_mechanic_box s
            /\ MechanicTrends.detail_mechanic s0 = MechanicTrends.detail_mechanic s
  end.
Proof.
  unfold MechanicTrends.sync_click, usable_click.
  destruct click as [[y|] [m|]]; cbn; auto.
  destruct (truthy m); auto.
  destruct (St.mem_Z y ay), (St.mem_str m am); cbn; auto.
Qed.

(** Case analysis on the membership tests of a goal, one at a time. *)
Ltac split_mem :=
  repeat (cbn -[St.mem_Z St.mem_str];
          match goal with
          | H : St.mem_Z ?a ?b = _ |- context [St.mem_Z ?a ?b] => rewrite H
          | H : St.mem_str ?a ?b = _ |- context [St.mem_str ?a ?b] =>
              rewrite H
          | |- context [St.mem_Z ?a ?b] => destruct (St.mem_Z a b) eqn:?
          | |- context [St.mem_str ?a ?b] => destruct (St.mem_str a b) eqn:?
          end).

Lemma default_detail_boxes ay am ranked s :
  let s1 := MechanicTrends.default_detail ay am ranked s in
  let ylast := MechanicTrends.default 2020%Z (last_opt ay) in
  let mfirst := match ranked with
                | m :: _ => m
                | [] => match am with m :: _ => m | [] => EmptyString end
                end in
  MechanicTrends.detail_year_box s1
  = Some (avail_or St.mem_Z (MechanicTrends.detail_year_box s) ay
            (avail_or St.mem_Z (MechanicTrends.detail_year s) ay ylast)) /\
  MechanicTrends.detail_mechanic_box s1
  = Some (avail_or St.mem_str (MechanicTrends.detail_mechanic_box s) am
            (avail_or St.mem_str (MechanicTrends.detail_mechanic s) am mfirst)).
Proof.
  destruct s as [? ? ? ? ? ? ? dy dyb dm dmb ? ?].
  unfold MechanicTrends.default_detail, MechanicTrends.in_years,
    MechanicTrends.in_mechs, avail_or.
  cbn [MechanicTrends.detail_year MechanicTrends.detail_year_box
       MechanicTrends.detail_mechanic MechanicTrends.detail_mechanic_box].
  destruct dy as [y|], dyb as [yb|], dm as [m|], dmb as [mb|];
    split_mem; split; reflexivity.
Qed.

Lemma desc_nan_last_spec a b :
  desc_nan_last a b = true <-> Spec.impact_not_below a b.
Proof.
  destruct a as [x|], b as [y|]; simpl; try tauto.
  - destruct (Rle_dec y x); split; auto; discriminate.
  - split; [discriminate | tauto].
Qed.

Lemma desc_nan_last_total a b :
  desc_nan_last a b = true \/ desc_nan_last b a = true.
Proof.
  rewrite !desc_nan_last_spec.
  destruct a as [x|], b as [y|]; simpl; auto.
  destruct (Rle_dec y x); [now left | right; lra].
Qed.

Lemma desc_nan_last_trans a b c :
  desc_nan_last a b = true -> desc_nan_last b c = true ->
  desc_nan_last a c = true.
Proof.
  rewrite !desc_nan_last_spec.
  destruct a as [x|], b as [y|], c as [z|]; simpl; auto; try tauto.
  intros. lra.
Qed.

Lemma Zleb_total a b : (a <=? b)%Z = true \/ (b <=? a)%Z = true.
Proof. rewrite !Z.leb_le. lia. Qed.

Lemma Zleb_trans a b c :
  (a <=? b)%Z = true -> (b <=? c)%Z = true -> (a <=? c)%Z = true.
Proof. rewrite !Z.leb_le. lia. Qed.

Lemma sorted_last_max (l : list Z) :
  StronglySorted (fun a b => (a <=? b)%Z = true) l -> l <> [] ->
  exists y0, last_opt l = Some y0 /\ In y0 l /\ Forall (fun y => (y <= y0)%Z) l.
Proof.
  unfold last_opt. induction 1 as [|x l Hs IH Hall]; [contradiction|].
  intros _. destruct l as [|x' l'].
  - exists x. repeat split; [now left|]. constructor; [lia | constructor].
  - destruct IH as (y0 & Hlast & Hin & Hmax); [discriminate|].
    exists y0. split; [|split].
    + cbn [rev] in *. destruct (rev l' ++ [x']) as [|h t]; [discriminate|].
      cbn in *. exact Hlast.
    + now right.
    + constructor; [|exact Hmax].
      rewrite Forall_forall in Hall. apply Z.leb_le. now apply Hall.
Qed.

Lemma avail_years_In grouped y :
  In y (MechanicTrends.avail_years grouped)
  <-> In y (map (fun g => fst (Frame.gkey g)) grouped).
Proof.
  apply (group_keys_In Z.eqb Z.leb (fun g : Frame.agg (Z * string) =>
                                      fst (Frame.gkey g)) Zeqb_spec).
Qed.

Lemma avail_mechs_In grouped m :
  In m (MechanicTrends.avail_mechs grouped)
  <-> In m (map (fun g => snd (Frame.gkey g)) grouped).
Proof.
  apply (group_keys_In String.eqb String.leb
           (fun g : Frame.agg (Z * string) => snd (Frame.gkey g)) Streqb_spec).
Qed.

Lemma avail_years_max grouped :
  grouped <> [] ->
  exists y0, last_opt (MechanicTrends.avail_years grouped) = Some y0 /\
             In y0 (MechanicTrends.avail_years grouped) /\
             Forall (fun y => (y <= y0)%Z) (MechanicTrends.avail_years grouped).
Proof.
  intros Hne. apply sorted_last_max.
  - apply sort_by_sorted; [apply Zleb_total | apply Zleb_trans].
  - destruct grouped as [|g grouped]; [contradiction|].
    intros E.
    assert (H : In (fst (Frame.gkey g))
                   (MechanicTrends.avail_years (g :: grouped))).
    { apply avail_years_In. now left. }
    rewrite E in H. contradiction.
Qed.

Lemma avail_mechs_nonempty grouped :
  grouped <> [] -> MechanicTrends.avail_mechs grouped <> [].
Proof.
  destruct grouped as [|g grouped]; [contradiction|]. intros _ E.
  assert (H : In (snd (Frame.gkey g))
                 (MechanicTrends.avail_mechs (g :: grouped))).
  { apply avail_mechs_In. now left. }
  rewrite E in H. contradiction.
Qed.

Lemma impact_ranked_In idf am m :
  In m (MechanicTrends.impact_ranked_mechs idf am) <->
  exists r, In r idf /\ MechanicTrends.i_mechanic r = m /\ In m am.
Proof.
  unfold MechanicTrends.impact_ranked_mechs, MechanicTrends.sorted_by_impact.
  rewrite in_map_iff. split.
  - intros (r & E & Hr). apply sort_by_In in Hr. apply filter_In in Hr.
    destruct Hr as [Hr Hm]. apply mem_str_In in Hm.
    exists r. subst m. auto.
  - intros (r & Hr & E & Hm). exists r. split; [exact E|].
    apply sort_by_In, filter_In. split; [exact Hr|].
    apply mem_str_In. now rewrite E.
Qed.

(** The first of the ranked mechanics has an Impact that none of the
    available mechanics exceeds. *)
Lemma impact_ranked_head idf am m0 rest :
  MechanicTrends.impact_ranked_mechs idf am = m0 :: rest ->
  exists r0, In r0 idf /\ MechanicTrends.i_mechanic r0 = m0 /\ In m0 am /\
    Forall (fun r => Spec.impact_not_below (MechanicTrends.impact r0)
                                           (MechanicTrends.impact r))
           (filter (fun r => St.mem_str (MechanicTrends.i_mechanic r) am) idf).
Proof.
  unfold MechanicTrends.impact_ranked_mechs, MechanicTrends.sorted_by_impact.
  set (leb := fun a b => desc_nan_last (MechanicTrends.impact a)
                                       (MechanicTrends.impact b)).
  set (l := filter _ idf).
  destruct (sort_by leb l) as [|r0 t] eqn:E; [discriminate|].
  cbn [map]. intros H. inversion H. subst.
  assert (Hin : In r0 l).
  { apply (sort_by_In leb). rewrite E. now left. }
  apply filter_In in Hin. destruct Hin as [Hin Hm]. apply mem_str_In in Hm.
  exists r0. repeat split; auto.
  apply Forall_forall. intros r Hr. apply desc_nan_last_spec.
  apply (sort_by_head leb) with (t := t) (l := l); auto.
  - intros a b. apply desc_nan_last_total.
  - intros a b c. apply desc_nan_last_trans.
Qed.

Lemma avail_or_mem {V} (mem : V -> list V -> bool) o l d :
  mem d l = true -> mem (avail_or mem o l d) l = true.
Proof.
  intros Hd. unfold avail_or. destruct o as [v|]; [|exact Hd].
  destruct (mem v l) eqn:E; assumption.
Qed.

Lemma listing_detail games clicked s :
  MechanicTrends.detail_year (fst (MechanicTrends.listing games clicked s))
  = MechanicTrends.detail_year s /\
  MechanicTrends.detail_mechanic (fst (MechanicTrends.listing games clicked s))
  = MechanicTrends.detail_mechanic s.
Proof.
  destruct (mechanic_listing_spec games clicked s) as [E _].
  cbv zeta in E. rewrite E. split; reflexivity.
Qed.

(** The year and the mechanic that a run of the drill-down selects. *)
Lemma drill_down_selected fd grouped idf click clicked s :
  grouped <> [] ->
  let ay := MechanicTrends.avail_years grouped in
  let am := MechanicTrends.avail_mechs grouped in
  let ranked := MechanicTrends.impact_ranked_mechs idf am in
  let s0 := MechanicTrends.sync_click click ay am s in
  let ylast := MechanicTrends.default 2020%Z (last_opt ay) in
  let mfirst := match ranked with
                | m :: _ => m
                | [] => match am with m :: _ => m | [] => EmptyString end
                end in
  let Y := avail_or St.mem_Z (MechanicTrends.detail_year_box s0) ay
             (avail_or St.mem_Z (MechanicTrends.detail_year s0) ay ylast) in
  let M := avail_or St.mem_str (MechanicTrends.detail_mechanic_box s0) am
             (avail_or St.mem_str (MechanicTrends.detail_mechanic s0) am
                       mfirst) in
  let s' := fst (MechanicTrends.drill_down fd grouped idf click clicked s) in
  MechanicTrends.detail_year s' = Some Y /\
  MechanicTrends.detail_mechanic s' = Some M /\
  In Y ay /\ In M am.
Proof.
  intros Hne ay am ranked s0 ylast mfirst Y M s'.
  assert (HY : St.mem_Z Y ay = true).
  { subst Y. do 2 apply avail_or_mem. apply mem_Z_In.
    destruct (avail_years_max grouped Hne) as (y0 & Hl & Hin & _).
    subst ylast. fold ay in Hl. rewrite Hl. exact Hin. }
  assert (HM : St.mem_str M am = true).
  { subst M. do 2 apply avail_or_mem. apply mem_str_In.
    subst mfirst. destruct ranked as [|m0 rest] eqn:Er.
    - pose proof (avail_mechs_nonempty grouped Hne) as Ha. fold am in Ha.
      destruct am as [|m am']; [contradiction | now left].
    - assert (Hin : In m0 ranked) by (rewrite Er; now left).
      apply impact_ranked_In in Hin. now destruct Hin as (_ & _ & _ & Hin). }
  split; [|split; [|split; [now apply mem_Z_In | now apply mem_str_In]]].
  - subst s'. unfold MechanicTrends.drill_down. cbv zeta.
    fold ay am ranked s0.
    destruct (default_detail_boxes ay am ranked s0) as [EY EM].
    cbv zeta in EY, EM. fold ylast mfirst Y M in EY, EM.
    rewrite EY, EM. unfold MechanicTrends.selectbox. rewrite HY, HM.
    destruct (truthy M && negb (Y =? 0)%Z); [|reflexivity].
    match goal with
    | |- context [if ?c then ?a else ?b] => destruct c
    end;
      (destruct (find _ grouped); [|reflexivity]);
      match goal with
      | |- context [MechanicTrends.listing ?g ?c ?x] =>
          pose proof (listing_detail g c x) as [Hd _];
          destruct (MechanicTrends.listing g c x)
      end; cbn [fst] in *; rewrite Hd; reflexivity.
  - subst s'. unfold MechanicTrends.drill_down. cbv zeta.
    fold ay am ranked s0.
    destruct (default_detail_boxes ay am ranked s0) as [EY EM].
    cbv zeta in EY, EM. fold ylast mfirst Y M in EY, EM.
    rewrite EY, EM. unfold MechanicTrends.selectbox. rewrite HY, HM.
    destruct (truthy M && negb (Y =? 0)%Z); [|reflexivity].
    match goal with
    | |- context [if ?c then ?a else ?b] => destruct c
    end;
      (destruct (find _ grouped); [|reflexivity]);
      match goal with
      | |- context [MechanicTrends.listing ?g ?c ?x] =>
          pose proof (listing_detail g c x) as [_ Hd];
          destruct (MechanicTrends.listing g c x)
      end; cbn [fst] in *; rewrite Hd; reflexivity.
Qed.



Lemma click_year_cases click ay am s :
  let s0 := MechanicTrends.sync_click click ay am s in
  match click_year click ay with
  | Some y => MechanicTrends.detail_year_box s0 = Some y /\
              St.mem_Z y ay = true
  | None => MechanicTrends.detail_year_box s0 = MechanicTrends.detail_year_box s
            /\ MechanicTrends.detail_year s0 = MechanicTrends.detail_year s
  end.
Proof.
  pose proof (sync_click_year click ay am s) as H. cbv zeta in *.
  unfold click_year. destruct (usable_click click) as [[y m]|]; [|exact H].
  destruct (St.mem_Z y ay) eqn:E; auto.
Qed.

Lemma click_mech_cases click ay am s :
  let s0 := MechanicTrends.sync_click click ay am s in
  match click_mech click am with
  | Some m => MechanicTrends.detail_mechanic_box s0 = Some m /\
              St.mem_str m am = true
  | None => MechanicTrends.detail_mechanic_box s0
            = MechanicTrends.detail_mechanic_box s
            /\ MechanicTrends.detail_mechanic s0
               = MechanicTrends.detail_mechanic s
  end.
Proof.
  pose proof (sync_click_mech click ay am s) as H. cbv zeta in *.
  unfold click_mech. destruct (usable_click click) as [[y m]|]; [|exact H].
  destruct (St.mem_str m am) eqn:E; auto.
Qed.

(** What comes before the drill-down in [main] leaves the four keys of the
    selection alone, and [main] reaches [drill_down] with a grouped frame
    that is not empty. *)
Lemma main_drill_down f inp s s' out :
  MechanicTrends.main f inp s = St.Done s' out ->
  same_detail_state s s' \/
  exists fd grouped idf ml s1,
    grouped <> [] /\ same_detail_state s s1 /\
    s' = fst (MechanicTrends.drill_down fd grouped idf
                (MechanicTrends.extract_selection
                   (snd (MechanicTrends.render_chart grouped ml
                           (MechanicTrends.chart_state inp))))
                (MechanicTrends.show_more inp) s1).
Proof.
  assert (Hrefl : forall a, same_detail_state a a)
    by (intros a; repeat split).
  unfold MechanicTrends.main.
  destruct (MechanicTrends.load_data f) as [raw|]; [|discriminate].
  destruct (is_empty raw).
  { intros E. inversion E. subst. left. apply Hrefl. }
  cbv zeta.
  set (s1 := MechanicTrends.setdefault MechanicTrends.year_range _ _ _).
  assert (H1 : same_detail_state s s1).
  { subst s1. destruct s as [rl yr ? ? ? ? ? ? ? ? ? ? ?].
    destruct rl, yr; repeat split. }
  set (idf := MechanicTrends.compute_impact _).
  assert (H2 : same_detail_state s1
                 (fst (fst (fst (MechanicTrends.render_sidebar raw idf inp s1))))).
  { clear H1. generalize s1. intros s0.
    unfold MechanicTrends.render_sidebar. cbv zeta. cbn [fst snd].
    destruct s0 as [? ? ? u t sm ? ? ? ? ? ? ?].
    unfold MechanicTrends.setdefault.
    destruct u as [[|]|], t, sm; repeat split. }
  destruct (MechanicTrends.render_sidebar raw idf inp s1)
    as [[[s2 fd] ml] rl]. cbn [fst] in H2.
  assert (H12 : same_detail_state s s2).
  { destruct H1 as (A & B & C & D), H2 as (A' & B' & C' & D').
    repeat split; congruence. }
  destruct (is_empty fd).
  { intros E. inversion E. subst. now left. }
  destruct (is_empty (MechanicTrends.default [] _)).
  { intros E. inversion E. subst. now left. }
  destruct (is_empty (Frame.groupby_agg _ _ _ _ _ _)) eqn:Eg.
  { intros E. inversion E. subst. now left. }
  match goal with
  | |- context [MechanicTrends.render_chart ?g ml ?c] =>
      set (grouped := g) in *;
      destruct (MechanicTrends.render_chart grouped ml c)
        as [chart_out cstate] eqn:Ec
  end.
  match goal with
  | |- context [MechanicTrends.drill_down fd grouped idf ?c ?k s2] =>
      destruct (MechanicTrends.drill_down fd grouped idf c k s2)
        as [s3 out3] eqn:Ed
  end.
  intros E. inversion E. subst s' out. right.
  exists fd, grouped, idf, ml, s2. split.
  { intros Hnil. rewrite Hnil in Eg. discriminate Eg. }
  split; [exact H12|].
  rewrite Ec. cbn [snd]. now rewrite Ed.
Qed.

(** C6 (amended).  For the drill-down of the mechanic page, which [main]
    reaches with a grouped frame that is not empty: a click with a year and a non-empty mechanic name sets the selected
    year to the clicked year when that year is available, and the selected
    mechanic to the clicked mechanic when that mechanic is available, each
    on its own; a component that the click does not set keeps the value of
    its select box when that value is still available; and with no value in
    the session the selected year is the largest available year and the
    selected mechanic is the first of the available mechanics ranked by
    Impact over the filtered frame, whose Impact none of them exceeds.  On
    the category page the selection returned by the chart has no effect on
    the run at all. *)
Theorem C6_drill_down_selection :
  forall (fd : list MechanicTrends.row)
         (grouped : list (Frame.agg (Z * string)))
         (idf : list MechanicTrends.impact_row)
         (click : option Z * option string) (clicked : bool)
         (s : MechanicTrends.session)
         (f : Db.file) (c1 c2 : option (option Z * option string))
         (cs : CategoryTrends.session),
    grouped <> [] ->
    let ay := MechanicTrends.avail_years grouped in
    let am := MechanicTrends.avail_mechs grouped in
    let visible :=
      filter (fun r => St.mem_str (MechanicTrends.i_mechanic r) am) idf in
    let s' := fst (MechanicTrends.drill_down fd grouped idf click clicked s) in
    (forall y, click_year click ay = Some y ->
               MechanicTrends.detail_year s' = Some y) /\
    (forall m, click_mech click am = Some m ->
               MechanicTrends.detail_mechanic s' = Some m) /\
    (forall yb, click_year click ay = None ->
                MechanicTrends.detail_year_box s = Some yb -> In yb ay ->
                MechanicTrends.detail_year s' = Some yb) /\
    (forall mb, click_mech click am = None ->
                MechanicTrends.detail_mechanic_box s = Some mb -> In mb am ->
                MechanicTrends.detail_mechanic s' = Some mb) /\
    (click_year click ay = None ->
     MechanicTrends.detail_year_box s = None ->
     MechanicTrends.detail_year s = None ->
     exists y0, MechanicTrends.detail_year s' = Some y0 /\ In y0 ay /\
                Forall (fun y => (y <= y0)%Z) ay) /\
    (click_mech click am = None ->
     MechanicTrends.detail_mechanic_box s = None ->
     MechanicTrends.detail_mechanic s = None ->
     exists m0, MechanicTrends.detail_mechanic s' = Some m0 /\ In m0 am /\
       (visible <> [] ->
        exists r0, In r0 idf /\ MechanicTrends.i_mechanic r0 = m0 /\
          Forall (fun r => Spec.impact_not_below (MechanicTrends.impact r0)
                                                 (MechanicTrends.impact r))
                 visible)) /\
    CategoryTrends.main f (CategoryTrends.mk_inputs c1 clicked) cs
    = CategoryTrends.main f (CategoryTrends.mk_inputs c2 clicked) cs.
Proof.
  intros fd grouped idf click clicked s f c1 c2 cs Hne ay am visible s'.
  destruct (drill_down_selected fd grouped idf click clicked s Hne)
    as (HY & HM & HYin & HMin).
  cbv zeta in HY, HM, HYin, HMin. fold ay am s' in HY, HM, HYin, HMin.
  pose proof (click_year_cases click ay am s) as Cy.
  pose proof (click_mech_cases click ay am s) as Cm.
  cbv zeta in Cy, Cm.
  repeat apply conj.
  - intros y E. rewrite E in Cy. destruct Cy as [Cy Hin].
    rewrite HY, Cy. cbn [avail_or]. now rewrite Hin.
  - intros m E. rewrite E in Cm. destruct Cm as [Cm Hin].
    rewrite HM, Cm. cbn [avail_or]. now rewrite Hin.
  - intros yb E Hb Hin. rewrite E in Cy. destruct Cy as [Cy _].
    rewrite HY, Cy, Hb. cbn [avail_or].
    apply mem_Z_In in Hin. now rewrite Hin.
  - intros mb E Hb Hin. rewrite E in Cm. destruct Cm as [Cm _].
    rewrite HM, Cm, Hb. cbn [avail_or].
    apply mem_str_In in Hin. now rewrite Hin.
  - intros E Hb Hd. rewrite E in Cy. destruct Cy as [Cy Cy'].
    rewrite HY, Cy, Cy', Hb, Hd. cbn [avail_or].
    destruct (avail_years_max grouped Hne) as (y0 & Hl & Hin & Hmax).
    fold ay in Hl, Hin, Hmax. rewrite Hl. exists y0. auto.
  - intros E Hb Hd. rewrite E in Cm. destruct Cm as [Cm Cm'].
    rewrite HM, Cm, Cm', Hb, Hd in *. cbn [avail_or] in *.
    eexists. split; [reflexivity|]. split; [exact HMin|].
    intros Hvis.
    destruct (MechanicTrends.impact_ranked_mechs idf am) as [|m0 rest] eqn:Er.
    + exfalso. apply Hvis.
      unfold MechanicTrends.impact_ranked_mechs,
        MechanicTrends.sorted_by_impact in Er.
      apply map_eq_nil in Er. apply length_zero_iff_nil.
      apply (f_equal (@List.length _)) in Er.
      now rewrite sort_by_length in Er.
    + destruct (impact_ranked_head idf am m0 rest Er)
        as (r0 & Hr0 & Hm0 & _ & Hall).
      exists r0. auto.
  - unfold CategoryTrends.main, CategoryTrends.render_chart.
    cbn [CategoryTrends.chart_state CategoryTrends.show_more].
    destruct (CategoryTrends.load_data f) as [raw|]; [|reflexivity].
    destruct (is_empty raw); [reflexivity|]. cbv zeta.
    destruct (CategoryTrends.render_sidebar raw _) as [[[fdc ml] rl] yr].
    destruct (is_empty (Frame.groupby_agg _ _ _ _ _ fdc)); reflexivity.
Qed.

(** On the category page a click on the point (2020, "strategygames"), a
    pair that is on the chart, changes nothing: the selected category is
    "abstracts", the first in alphabetical order, with or without the click,
    although the Impact plotted for "abstracts" is the lower of the two.  On
    the mechanic page, with 2019 selected, a click that carries the
    available year 2020 and a mechanic that is not available still moves the
    selected year to 2020. *)
Lemma C6_click_ignored_or_half_applied :
  let f := Db.Present Examples.db_two_categories in
  let click := Some (Some 2020%Z, Some "strategygames"%string) in
  let c0 := CategoryTrends.empty_session in
  let o_idle := CategoryTrends.main f (CategoryTrends.mk_inputs None false) c0 in
  let o_click :=
    CategoryTrends.main f (CategoryTrends.mk_inputs click false) c0 in
  let filtered :=
    fst (fst (fst (CategoryTrends.render_sidebar
                     (CategoryTrends.select_rows Examples.db_two_categories)
                     c0))) in
  let grouped :=
    Frame.groupby_agg year_name_eqb year_name_leb
      (fun r => (CategoryTrends.year r, CategoryTrends.category r))
      CategoryTrends.bgg_id CategoryTrends.rating_geek filtered in
  let g := Db.Present Examples.db_two_years in
  let idle := MechanicTrends.mk_inputs None None false in
  let m0 := MechanicTrends.empty_session in
  let s1 := St.state_or m0 (MechanicTrends.main g idle m0) in
  let s2 := St.state_or m0
              (MechanicTrends.main g idle
                 (MechanicTrends.set_detail_year_box 2019%Z s1)) in
  let stale := MechanicTrends.mk_selection (Some 2020%Z)
                 (Some "Worker Placement"%string) in
  let s3 := St.state_or m0
              (MechanicTrends.main g
                 (MechanicTrends.mk_inputs None (Some stale) false) s2) in
  (map Frame.gkey grouped
   = [(2020%Z, "abstracts"%string); (2020%Z, "strategygames"%string)] /\
   CategoryTrends.cat_selected_category (St.state_or c0 o_click)
   = Some "abstracts"%string /\
   St.cards (St.calls o_click) = [1%Z] /\
   CategoryTrends.cat_selected_category (St.state_or c0 o_idle)
   = Some "abstracts"%string /\
   exists va vs,
     map (CategoryTrends.chart_value impact_label) grouped
     = [Some va; Some vs] /\ (va < vs)%R) /\
  (MechanicTrends.detail_year s2 = Some 2019%Z /\
   MechanicTrends.detail_mechanic s2 = Some "Dice Rolling"%string /\
   MechanicTrends.detail_year s3 = Some 2020%Z /\
   MechanicTrends.detail_mechanic s3 = Some "Dice Rolling"%string).
Proof.
  cbv zeta. split.
  - split; [vm_compute; reflexivity|]. split; [vm_compute; reflexivity|].
    split; [vm_compute; reflexivity|]. split; [vm_compute; reflexivity|].
    assert (E : Frame.groupby_agg year_name_eqb year_name_leb
                  (fun r => (CategoryTrends.year r, CategoryTrends.category r))
                  CategoryTrends.bgg_id CategoryTrends.rating_geek
                  (fst (fst (fst (CategoryTrends.render_sidebar
                     (CategoryTrends.select_rows Examples.db_two_categories)
                     CategoryTrends.empty_session))))
                = [ Frame.mk_agg (2020%Z, "abstracts"%string) 1%nat
                                 (Some (5 # 1)%Q);
                    Frame.mk_agg (2020%Z, "strategygames"%string) 1%nat
                                 (Some (8 # 1)%Q) ]).
    { vm_compute. reflexivity. }
    rewrite E. eexists. eexists. split; [reflexivity|].
    unfold Np.log, Np.of_count, Q2R. cbn [Frame.count Qnum Qden INR].
    assert (H : (0 < ln (1 + 1))%R).
    { replace (1 + 1)%R with 2%R by lra. pose proof ln_lt_2. lra. }
    lra.
  - vm_compute. repeat split.
Qed.

(** C6 on the grouped frame of the two "Dice Rolling" games, from a fresh
    session: a click on (2019, "Dice Rolling") selects that pair, and
    without a click the selected year is the largest available one. *)
Lemma C6_witness :
  let grouped := Examples.grouped_two_years in
  let idf := Examples.impact_two_years in
  let s0 := MechanicTrends.empty_session in
  let click := (Some 2019%Z, Some "Dice Rolling"%string) in
  let s' := fst (MechanicTrends.drill_down [] grouped idf click false s0) in
  let s'' :=
    fst (MechanicTrends.drill_down [] grouped idf (None, None) false s0) in
  (MechanicTrends.detail_year s' = Some 2019%Z /\
   MechanicTrends.detail_mechanic s' = Some "Dice Rolling"%string) /\
  exists y0, MechanicTrends.detail_year s'' = Some y0 /\
             In y0 (MechanicTrends.avail_years grouped) /\
             Forall (fun y => (y <= y0)%Z) (MechanicTrends.avail_years grouped).
Proof.
  cbv zeta. split.
  - destruct (C6_drill_down_selection [] Examples.grouped_two_years
                Examples.impact_two_years
                (Some 2019%Z, Some "Dice Rolling"%string) false
                MechanicTrends.empty_session Db.Missing None None
                CategoryTrends.empty_session) as (Hy & Hm & _).
    + discriminate.
    + split; [apply Hy | apply Hm]; reflexivity.
  - destruct (C6_drill_down_selection [] Examples.grouped_two_years
                Examples.impact_two_years (None, None) false
                MechanicTrends.empty_session Db.Missing None None
                CategoryTrends.empty_session) as (_ & _ & _ & _ & Hd & _).
    + discriminate.
    + apply Hd; reflexivity.
Defined.

(* ================================================================== *)
(** ** The SQL text of the search page *)
(* ================================================================== *)

Lemma count_char_append c a b :
  count_char c (a ++ b)%string = (count_char c a + count_char c b)%nat.
Proof.
  induction a as [|x a IH]; [reflexivity|].
  cbn [String.append count_char]. rewrite IH. lia.
Qed.

(** A separator without the character adds nothing to the count. *)
Lemma count_char_concat c sep l :
  count_char c sep = 0%nat ->
  count_char c (String.concat sep l) = list_sum (map (count_char c) l).
Proof.
  intros Hsep. induction l as [|x l IH]; [reflexivity|].
  destruct l as [|y l].
  - cbn. lia.
  - change (String.concat sep (x :: y :: l))
      with (x ++ sep ++ String.concat sep (y :: l))%string.
    rewrite !count_char_append, IH, Hsep.
    unfold list_sum. cbn [map fold_right]. lia.
Qed.

Lemma placeholders_in_clause values :
  placeholders (fst (SearchSql._make_in_clause values)) = List.length values.
Proof.
  unfold SearchSql._make_in_clause. destruct values as [|v values];
    [reflexivity|].
  cbn [is_empty fst]. unfold placeholders.
  rewrite !count_char_append, count_char_concat by reflexivity.
  generalize (List.length (v :: values)). intros n.
  assert (E : list_sum (map (count_char "?") (repeat "?"%string n)) = n).
  { induction n as [|n IH]; [reflexivity|].
    unfold list_sum in *. cbn [repeat map fold_right]. rewrite IH.
    reflexivity. }
  rewrite E. cbn. lia.
Qed.

Lemma in_clause_params values :
  snd (SearchSql._make_in_clause values) = values.
Proof. now destruct values. Qed.

Lemma placeholders_cond c :
  placeholders (cond_sql c) = List.length (cond_params c).
Proof.
  destruct c as [| |y|d|names|names]; try reflexivity;
    unfold cond_sql, cond_params, placeholders;
    rewrite !count_char_append; fold (placeholders
      (fst (SearchSql._make_in_clause names)));
    rewrite placeholders_in_clause, length_map; cbn; lia.
Qed.

Lemma build_game_query_text q :
  SearchSql._build_game_query q
  = (String.concat " AND " (map cond_sql (GameSearch._build_game_query q)),
     flat_map cond_params (GameSearch._build_game_query q)).
Proof.
  destruct q as [ms d ts y].
  unfold SearchSql._build_game_query, GameSearch._build_game_query.
  cbn [GameSearch.year GameSearch.rank_domain GameSearch.mechanics
       GameSearch.themes].
  destruct y as [| |y]; destruct d as [d|];
    try destruct (truthy d);
    destruct ms as [|m ms]; destruct ts as [|t ts];
    cbn [is_empty app map flat_map cond_params SearchSql._make_in_clause
         fst snd];
    rewrite ?app_nil_r; reflexivity.
Qed.

Lemma placeholders_where q :
  placeholders (fst (SearchSql._build_game_query q))
  = List.length (snd (SearchSql._build_game_query q)).
Proof.
  rewrite build_game_query_text. cbn [fst snd]. unfold placeholders.
  rewrite count_char_concat by reflexivity.
  induction (GameSearch._build_game_query q) as [|c cs IH]; [reflexivity|].
  cbn [map flat_map]. rewrite length_app, <- IH.
  unfold list_sum. cbn [fold_right]. f_equal. apply placeholders_cond.
Qed.

(** X1.  The WHERE clause that [_build_game_query] writes is "1=1" followed,
    each after " AND ", by one fragment per filter in use, in the order
    year, category, mechanics, themes; the parameters it returns are the
    values of these filters in the same order; and the text holds exactly
    one placeholder per parameter. *)
Theorem X1_search_where_clause_text :
  forall q : GameSearch.filters,
    let conds := GameSearch._build_game_query q in
    fst (SearchSql._build_game_query q)
    = String.concat " AND " (map cond_sql conds) /\
    snd (SearchSql._build_game_query q) = flat_map cond_params conds /\
    hd_error conds = Some GameSearch.always /\
    placeholders (fst (SearchSql._build_game_query q))
    = List.length (snd (SearchSql._build_game_query q)).
Proof.
  intros q conds. pose proof (placeholders_where q) as Hp.
  rewrite build_game_query_text in *. cbn [fst snd] in *.
  repeat split. exact Hp.
Qed.

(** X2.  Both statements that [query_games_page] sends hold as many
    placeholders as parameters are passed with them: the count statement
    those of the WHERE clause, the page statement three more, for the
    selected domain, the limit and the offset. *)
Theorem X2_search_statements_bind_every_placeholder :
  forall (q : GameSearch.filters) (limit offset : nat),
    let st := SearchSql.query_games_page_statements q limit offset in
    placeholders (fst (fst st)) = List.length (snd (fst st)) /\
    placeholders (fst (snd st)) = List.length (snd (snd st)) /\
    List.length (snd (snd st)) = (List.length (snd (fst st)) + 3)%nat.
Proof.
  intros q limit offset. unfold SearchSql.query_games_page_statements.
  pose proof (placeholders_where q) as H.
  destruct (SearchSql._build_game_query q) as [w ps]. cbn [fst snd] in *.
  unfold SearchSql.count_sql, SearchSql.page_sql, placeholders in *.
  rewrite !count_char_append, H, !length_app. cbn. lia.
Qed.

(* ================================================================== *)
(** ** The rows of the search query *)
(* ================================================================== *)

Lemma firstn_skipn_tile {A} (a b : nat) (l : list A) :
  firstn a l ++ firstn b (skipn a l) = firstn (a + b) l.
Proof.
  revert l. induction a as [|a IH]; intros l; [reflexivity|].
  destruct l as [|x l]; [now destruct b|].
  cbn [firstn skipn Nat.add app]. now rewrite IH.
Qed.

Lemma search_total_matches db q limit offset :
  fst (GameSearch.query_games_page db q limit offset)
  = List.length (GameSearch.matches db q).
Proof.
  unfold GameSearch.query_games_page, GameSearch.matches. cbn [fst].
  now rewrite sort_by_length, length_map.
Qed.

(** X3.  The total that [query_games_page] returns is the number of
    matching games whatever the limit and the offset; a page holds [limit]
    rows or what is left after the offset; and the page at offset [n]
    continues the first [n] rows: the two together are the first
    [n + limit] rows, so "show more" only adds rows below the ones shown. *)
Theorem X3_search_pages_tile :
  forall (db : Db.t) (q : GameSearch.filters) (limit n : nat),
    let total := List.length (GameSearch.matches db q) in
    fst (GameSearch.query_games_page db q limit n) = total /\
    List.length (snd (GameSearch.query_games_page db q limit n))
    = Nat.min limit (total - n) /\
    snd (GameSearch.query_games_top_n db q n)
    ++ snd (GameSearch.query_games_page db q limit n)
    = snd (GameSearch.query_games_top_n db q (n + limit)).
Proof.
  intros db q limit n total. split; [apply search_total_matches|].
  unfold GameSearch.query_games_top_n, GameSearch.query_games_page.
  cbn [snd skipn]. split.
  - rewrite length_firstn, length_skipn. reflexivity.
  - apply firstn_skipn_tile.
Qed.

Lemma min_rank_spec (col : list (option Z)) :
  match GameSearch.min_rank col with
  | Some k => In (Some k) col /\
              forall k', In (Some k') col -> (k <= k')%Z
  | None => forall v, In v col -> v = None
  end.
Proof.
  induction col as [|v col IH]; cbn [GameSearch.min_rank fold_right].
  - intros v [].
  - fold (GameSearch.min_rank col).
    destruct v as [x|], (GameSearch.min_rank col) as [y|].
    + destruct IH as [Hin Hmin]. split.
      * destruct (Z.min_spec x y) as [[_ ->]|[_ ->]];
          [now left | now right].
      * intros k' [E|H]; [inversion E; lia|].
        specialize (Hmin k' H). lia.
    + split; [now left|]. intros k' [E|H]; [inversion E; lia|].
      specialize (IH _ H). discriminate.
    + destruct IH as [Hin Hmin]. split; [now right|].
      intros k' [E|H]; [discriminate | now apply Hmin].
    + intros v [<-|H]; [reflexivity | now apply IH].
Qed.

Lemma rank_in_least db d g : least_rank db d g (GameSearch.rank_in db d g).
Proof.
  unfold GameSearch.rank_in.
  set (rows := filter _ (Db.ranks db)).
  assert (Hrows : forall r, In r rows <->
            In r (Db.ranks db) /\ Db.r_bgg_id r = Db.bgg_id g /\
            Db.domain r = d).
  { intros r. unfold rows. rewrite filter_In, andb_true_iff, Z.eqb_eq,
      String.eqb_eq. tauto. }
  pose proof (min_rank_spec (map Db.rank rows)) as H.
  destruct (GameSearch.min_rank (map Db.rank rows)) as [k|];
    cbn [least_rank].
  - destruct H as [Hin Hmin]. split.
    + apply in_map_iff in Hin. destruct Hin as (r & E & Hr).
      apply Hrows in Hr. exists r. tauto.
    + intros r k' Hr Hid Hd E. apply Hmin. rewrite <- E.
      apply in_map, Hrows. auto.
  - intros r Hr Hid Hd. apply H. apply in_map, Hrows. auto.
Qed.

Lemma in_matches db q r :
  In r (GameSearch.matches db q) ->
  In (GameSearch.game r) (Db.games db) /\
  GameSearch.where_clause db (GameSearch._build_game_query q)
                          (GameSearch.game r) = true /\
  GameSearch.overall_rank r
  = GameSearch.rank_in db "overall" (GameSearch.game r) /\
  GameSearch.selected_rank r
  = GameSearch.rank_in db
      match GameSearch.rank_domain q with
      | Some d => if truthy d then d else "overall"%string
      | None => "overall"%string
      end (GameSearch.game r).
Proof.
  unfold GameSearch.matches. intros H. apply sort_by_In in H.
  apply in_map_iff in H. destruct H as (g & <- & Hg).
  apply filter_In in Hg. cbn. tauto.
Qed.

Lemma matches_selected_rank db q r d :
  In r (GameSearch.matches db q) ->
  GameSearch.rank_domain q = Some d -> truthy d = true ->
  GameSearch.selected_rank r = GameSearch.rank_in db d (GameSearch.game r) /\
  GameSearch.selected_rank r <> None.
Proof.
  intros Hm Ed Et.
  destruct (in_matches db q r Hm) as (_ & Hw & _ & Es).
  rewrite Ed, Et in Es. split; [exact Es|].
  unfold GameSearch.where_clause, GameSearch._build_game_query in Hw.
  rewrite Ed, Et in Hw. rewrite !forallb_app in Hw.
  rewrite !andb_true_iff in Hw. destruct Hw as (_ & _ & Hd & _).
  cbn [forallb] in Hd. rewrite andb_true_r in Hd.
  apply holds_exists_rank in Hd. destruct Hd as (row & Hin & Hid & Hdom & Hk).
  intros E. pose proof (rank_in_least db d (GameSearch.game r)) as Hl.
  rewrite <- Es, E in Hl. cbn [least_rank] in Hl. apply Hk. now apply Hl.
Qed.

(** X4.  In every row that the search returns, [overall_rank] is the least
    rank of the game in the domain "overall" (missing when it has none);
    with no category chosen [selected_rank] is the same value; and with a
    category chosen [selected_rank] is never missing: it is the least rank
    of the game in that category. *)
Theorem X4_search_row_ranks :
  forall (db : Db.t) (q : GameSearch.filters) (limit n : nat),
    Forall (fun r =>
      least_rank db "overall" (GameSearch.game r) (GameSearch.overall_rank r)
      /\
      match GameSearch.rank_domain q with
      | Some d =>
          if truthy d then
            least_rank db d (GameSearch.game r) (GameSearch.selected_rank r)
            /\ GameSearch.selected_rank r <> None
          else GameSearch.selected_rank r = GameSearch.overall_rank r
      | None => GameSearch.selected_rank r = GameSearch.overall_rank r
      end)
    (snd (GameSearch.query_games_page db q limit n)).
Proof.
  intros db q limit n. apply Forall_forall. intros r Hr.
  unfold GameSearch.query_games_page in Hr. cbn [snd] in Hr.
  apply In_firstn in Hr.
  assert (Hm : In r (GameSearch.matches db q)).
  { rewrite <- (firstn_skipn n). apply in_or_app. now right. }
  destruct (in_matches db q r Hm) as (_ & _ & Eo & Es).
  split; [rewrite Eo; apply rank_in_least|].
  destruct (GameSearch.rank_domain q) as [d|] eqn:Ed;
    [|now rewrite Es, Eo].
  destruct (truthy d) eqn:Et; [|now rewrite Es, Eo].
  destruct (matches_selected_rank db q r d Hm Ed Et) as [E Hne].
  split; [rewrite E; apply rank_in_least | exact Hne].
Qed.

(** Two sorted lists with the same elements are equal when the order is
    antisymmetric. *)
Lemma sorted_perm_eq {A} (leb : A -> A -> bool) (l l' : list A) :
  (forall a, leb a a = true) ->
  (forall a b, leb a b = true -> leb b a = true -> a = b) ->
  StronglySorted (fun a b => leb a b = true) l ->
  StronglySorted (fun a b => leb a b = true) l' ->
  Permutation l l' -> l = l'.
Proof.
  intros Hrefl Hanti Hs. revert l'.
  induction Hs as [|x l Hs IH Hall]; intros l' Hs' Hp.
  - apply Permutation_nil in Hp. now subst.
  - destruct Hs' as [|y l' Hs' Hall'].
    + apply Permutation_sym, Permutation_nil in Hp. discriminate.
    + assert (E : x = y).
      { assert (Hx : In x (y :: l'))
          by (eapply Permutation_in; [exact Hp | now left]).
        assert (Hy : In y (x :: l))
          by (eapply Permutation_in;
              [apply Permutation_sym; exact Hp | now left]).
        rewrite Forall_forall in Hall, Hall'.
        destruct Hx as [->|Hx]; [reflexivity|].
        destruct Hy as [->|Hy]; [reflexivity|].
        apply Hanti; auto. }
      subst y. f_equal. apply IH; [exact Hs'|].
      eapply Permutation_cons_inv. exact Hp.
Qed.

Lemma ascii_compare_trans_lt a b c :
  Ascii.compare a b = Lt -> Ascii.compare b c = Lt -> Ascii.compare a c = Lt.
Proof.
  unfold Ascii.compare. rewrite !N.compare_lt_iff. lia.
Qed.

Lemma string_compare_trans_lt a : forall b c,
  String.compare a b = Lt -> String.compare b c = Lt ->
  String.compare a c = Lt.
Proof.
  induction a as [|x a IH]; intros [|y b] [|z c]; cbn; try congruence.
  destruct (Ascii.compare x y) eqn:Exy; try discriminate.
  - apply Ascii.compare_eq_iff in Exy. subst y.
    destruct (Ascii.compare x z); try congruence. apply IH.
  - destruct (Ascii.compare y z) eqn:Eyz; try discriminate.
    + apply Ascii.compare_eq_iff in Eyz. subst z. now rewrite Exy.
    + now rewrite (ascii_compare_trans_lt _ _ _ Exy Eyz).
Qed.

Lemma string_leb_refl a : String.leb a a = true.
Proof. destruct (String.leb_total a a); assumption. Qed.

Lemma string_leb_trans a b c :
  String.leb a b = true -> String.leb b c = true -> String.leb a c = true.
Proof.
  unfold String.leb.
  destruct (String.compare a b) eqn:Eab; try discriminate; intros _;
    destruct (String.compare b c) eqn:Ebc; try discriminate; intros _.
  - apply String.compare_eq_iff in Eab. subst. now rewrite Ebc.
  - apply String.compare_eq_iff in Eab. subst. now rewrite Ebc.
  - apply String.compare_eq_iff in Ebc. subst. now rewrite Eab.
  - now rewrite (string_compare_trans_lt _ _ _ Eab Ebc).
Qed.

Lemma sort_strings_perm (l l' : list string) :
  Permutation l l' -> sort_by String.leb l = sort_by String.leb l'.
Proof.
  intros Hp.
  apply (sorted_perm_eq String.leb); auto using string_leb_refl,
    String.leb_antisym.
  - apply sort_by_sorted; [apply String.leb_total | apply string_leb_trans].
  - apply sort_by_sorted; [apply String.leb_total | apply string_leb_trans].
  - rewrite <- (sort_by_perm String.leb l), <- (sort_by_perm String.leb l').
    exact Hp.
Qed.

Lemma mem_str_perm v (l l' : list string) :
  Permutation l l' -> St.mem_str v l = St.mem_str v l'.
Proof.
  intros Hp. apply eq_true_iff_eq. rewrite !mem_str_In.
  split; apply Permutation_in; [|apply Permutation_sym]; exact Hp.
Qed.

Lemma existsb_pointwise {A} (f g : A -> bool) (l : list A) :
  (forall a, f a = g a) -> existsb f l = existsb g l.
Proof.
  intros H. induction l as [|a l IH]; [reflexivity|].
  cbn. now rewrite H, IH.
Qed.

Lemma is_empty_perm {A} (l l' : list A) :
  Permutation l l' -> is_empty l = is_empty l'.
Proof.
  intros Hp. destruct l, l'; try reflexivity.
  - apply Permutation_nil in Hp. discriminate.
  - apply Permutation_sym, Permutation_nil in Hp. discriminate.
Qed.

(** X5.  The order in which the mechanics and the themes were picked does
    not matter: two forms whose picks are the same up to order give the same
    total, the same rows in the same order and the same query key. *)
Theorem X5_search_ignores_pick_order :
  forall (db : Db.t) (ms ms' ts ts' : list string) (d : option string)
         (y : GameSearch.year_choice) (limit n : nat),
    Permutation ms ms' -> Permutation ts ts' ->
    GameSearch.query_games_page db (GameSearch.mk_filters ms d ts y) limit n
    = GameSearch.query_games_page db (GameSearch.mk_filters ms' d ts' y)
                                  limit n /\
    GameSearch.query_key (GameSearch.mk_filters ms d ts y)
    = GameSearch.query_key (GameSearch.mk_filters ms' d ts' y).
Proof.
  intros db ms ms' ts ts' d y limit n Hm Ht. split.
  - assert (Hw : forall g,
      GameSearch.where_clause db
        (GameSearch._build_game_query (GameSearch.mk_filters ms d ts y)) g
      = GameSearch.where_clause db
        (GameSearch._build_game_query (GameSearch.mk_filters ms' d ts' y)) g).
    { intros g. unfold GameSearch.where_clause, GameSearch._build_game_query.
      cbn [GameSearch.year GameSearch.rank_domain GameSearch.mechanics
           GameSearch.themes].
      rewrite !forallb_app.
      rewrite (is_empty_perm _ _ Hm), (is_empty_perm _ _ Ht).
      assert (E1 : GameSearch.holds db g (GameSearch.exists_mechanic ms)
                   = GameSearch.holds db g (GameSearch.exists_mechanic ms')).
      { cbn [GameSearch.holds]. apply existsb_pointwise. intros m.
        now rewrite (mem_str_perm _ _ _ Hm). }
      assert (E2 : GameSearch.holds db g (GameSearch.exists_category ts)
                   = GameSearch.holds db g (GameSearch.exists_category ts')).
      { cbn [GameSearch.holds]. apply existsb_pointwise. intros m.
        now rewrite (mem_str_perm _ _ _ Ht). }
      destruct (is_empty ms'), (is_empty ts'); cbn [forallb];
        rewrite ?E1, ?E2; reflexivity. }
    unfold GameSearch.query_games_page, GameSearch.matches.
    cbn [GameSearch.rank_domain].
    now rewrite (filter_ext _ _ Hw).
  - unfold GameSearch.query_key.
    cbn [GameSearch.year GameSearch.rank_domain GameSearch.mechanics
         GameSearch.themes].
    now rewrite (sort_strings_perm _ _ Hm), (sort_strings_perm _ _ Ht).
Qed.

(** X5 on the one-game database, with two mechanics picked in the two
    orders. *)
Lemma X5_search_ignores_pick_order_witness :
  GameSearch.query_games_page Examples.db_1990
    (GameSearch.mk_filters ["Dice Rolling"; "Area Control"]%string None []
                           GameSearch.year_all) 10 0
  = GameSearch.query_games_page Examples.db_1990
      (GameSearch.mk_filters ["Area Control"; "Dice Rolling"]%string None []
                             GameSearch.year_all) 10 0.
Proof.
  apply (X5_search_ignores_pick_order Examples.db_1990
           ["Dice Rolling"; "Area Control"]%string
           ["Area Control"; "Dice Rolling"]%string [] [] None
           GameSearch.year_all 10 0).
  - apply perm_swap.
  - apply perm_nil.
Defined.

(* ================================================================== *)
(** ** The options of the search sidebar *)
(* ================================================================== *)

Lemma unique_strings_NoDup l : NoDup (Frame.unique String.eqb l).
Proof.
  pose proof (dedup_on_NoDup String.eqb (fun k => k) Streqb_spec l) as H.
  now rewrite map_id in H.
Qed.

Lemma unique_strings_In x l : In x (Frame.unique String.eqb l) <-> In x l.
Proof.
  pose proof (dedup_on_keys String.eqb (fun k => k) Streqb_spec x l) as H.
  now rewrite !map_id in H.
Qed.

Lemma unique_Z_NoDup l : NoDup (Frame.unique Z.eqb l).
Proof.
  pose proof (dedup_on_NoDup Z.eqb (fun k => k) Zeqb_spec l) as H.
  now rewrite map_id in H.
Qed.

Lemma unique_Z_In x l : In x (Frame.unique Z.eqb l) <-> In x l.
Proof.
  pose proof (dedup_on_keys Z.eqb (fun k => k) Zeqb_spec x l) as H.
  now rewrite !map_id in H.
Qed.

Lemma sort_by_NoDup {A} (leb : A -> A -> bool) l :
  NoDup l -> NoDup (sort_by leb l).
Proof. apply Permutation_NoDup, sort_by_perm. Qed.

Lemma sort_strings_sorted l :
  StronglySorted (fun a b => String.leb a b = true) (sort_by String.leb l).
Proof.
  apply sort_by_sorted; [apply String.leb_total | apply string_leb_trans].
Qed.

Lemma distinct_names_spec col :
  let l := SearchSidebar.distinct_names col in
  StronglySorted (fun a b => String.leb a b = true) l /\
  NoDup l /\
  forall n, In n l <-> In n col /\ SearchSidebar.trim n <> EmptyString.
Proof.
  cbv zeta. unfold SearchSidebar.distinct_names.
  split; [apply sort_strings_sorted|]. split.
  - apply sort_by_NoDup, unique_strings_NoDup.
  - intros n. rewrite sort_by_In, unique_strings_In, filter_In,
      negb_true_iff.
    destruct (String.eqb_spec (SearchSidebar.trim n) EmptyString) as [E|E];
      [rewrite E|]; intuition congruence.
Qed.

(** X6.  The mechanics and the themes that the sidebar offers are the
    names of the tables [mechanics] and [categories] that are not blank,
    each once, in ascending order. *)
Theorem X6_search_name_options :
  forall db : Db.t,
    match SearchSidebar.get_filter_options (Db.Present db) with
    | Some (mechanics, _, themes, _) =>
        (StronglySorted (fun a b => String.leb a b = true) mechanics /\
         NoDup mechanics /\
         forall n, In n mechanics <->
                   In n (map Db.n_name (Db.mechanics db)) /\
                   SearchSidebar.trim n <> EmptyString) /\
        (StronglySorted (fun a b => String.leb a b = true) themes /\
         NoDup themes /\
         forall n, In n themes <->
                   In n (map Db.n_name (Db.categories db)) /\
                   SearchSidebar.trim n <> EmptyString)
    | None => False
    end.
Proof.
  intros db. cbn [SearchSidebar.get_filter_options].
  split; apply distinct_names_spec.
Qed.

Lemma filter_not_overall_In d l :
  In d (filter (fun d => negb (String.eqb d "overall")) l) <->
  In d l /\ d <> "overall"%string.
Proof.
  rewrite filter_In, negb_true_iff.
  destruct (String.eqb_spec d "overall"); intuition congruence.
Qed.

(** X7.  The categories that the sidebar offers are the rank domains that
    are not blank, each once; when "overall" is one of them it comes first;
    and the other domains are in ascending order. *)
Theorem X7_search_domain_options :
  forall db : Db.t,
    match SearchSidebar.get_filter_options (Db.Present db) with
    | Some (_, domains, _, _) =>
        NoDup domains /\
        (forall d, In d domains <->
                   In d (map Db.domain (Db.ranks db)) /\
                   SearchSidebar.trim d <> EmptyString) /\
        (In "overall"%string domains ->
         hd_error domains = Some "overall"%string) /\
        StronglySorted (fun a b => String.leb a b = true)
          (filter (fun d => negb (String.eqb d "overall")) domains)
    | None => False
    end.
Proof.
  intros db. cbn [SearchSidebar.get_filter_options].
  destruct (distinct_names_spec (map Db.domain (Db.ranks db)))
    as (Hs & Hn & Hin).
  set (ds := SearchSidebar.distinct_names (map Db.domain (Db.ranks db))) in *.
  destruct (St.mem_str "overall" ds) eqn:Eo.
  - apply mem_str_In in Eo. split; [|split; [|split]].
    + constructor.
      * rewrite filter_not_overall_In. tauto.
      * now apply NoDup_filter.
    + intros d. rewrite <- Hin. cbn [In]. rewrite filter_not_overall_In.
      destruct (String.eqb_spec d "overall") as [->|Hne].
      * tauto.
      * split; [intros [E|[H _]]; [congruence | exact H]|]. auto.
    + reflexivity.
    + match goal with
      | |- StronglySorted ?R (filter ?f (_ :: ?l)) =>
          change (StronglySorted R (filter f l))
      end.
      apply StronglySorted_filter, StronglySorted_filter. exact Hs.
  - split; [exact Hn|]. split; [exact Hin|]. split.
    + intros H. apply mem_str_In in H. congruence.
    + now apply StronglySorted_filter.
Qed.

Lemma int_str y : SearchSidebar.int (SearchSidebar.str y) = Some y.
Proof.
  unfold SearchSidebar.int, SearchSidebar.str.
  rewrite DecimalString.NilZero.isi.
  - cbn [option_map]. now rewrite DecimalZ.of_to.
  - destruct y as [|p|p]; cbn; try discriminate.
    intros E. inversion E as [E'].
    now apply DecimalPos.Unsigned.to_uint_nonnil in E'.
  - destruct y as [|p|p]; cbn; try discriminate.
    intros E. inversion E as [E'].
    now apply DecimalPos.Unsigned.to_uint_nonnil in E'.
Qed.

Lemma str_not_keyword y :
  String.eqb (SearchSidebar.str y) "All" = false /\
  String.eqb (SearchSidebar.str y) "<0" = false.
Proof.
  pose proof (int_str y) as H.
  split; apply String.eqb_neq; intros E; rewrite E in H; discriminate H.
Qed.

Lemma render_sidebar_year ms d ts y sub :
  SearchSidebar.render_sidebar
    (SearchSidebar.mk_form ms d ts (SearchSidebar.str y) sub)
  = Some (sub,
          GameSearch.mk_filters ms
            (if String.eqb d "All" then None else Some d) ts
            (GameSearch.year_is y)).
Proof.
  unfold SearchSidebar.render_sidebar.
  cbn [SearchSidebar.year SearchSidebar.rank_domain SearchSidebar.mechanics
       SearchSidebar.themes SearchSidebar.submitted].
  destruct (str_not_keyword y) as [-> ->]. now rewrite int_str.
Qed.

Lemma sorted_desc_strict (l : list Z) :
  NoDup l ->
  StronglySorted (fun a b => (b <=? a)%Z = true) l ->
  StronglySorted (fun a b => (b < a)%Z) l.
Proof.
  intros Hn Hs. induction Hs as [|x l Hs IH Hall]; [constructor|].
  inversion Hn as [|? ? Hx Hn']; subst.
  constructor; [now apply IH|].
  rewrite Forall_forall in *. intros y Hy.
  specialize (Hall y Hy). apply Z.leb_le in Hall.
  assert (y <> x) by (intros ->; contradiction). lia.
Qed.

Lemma dropna_In {V} (v : V) col : In v (Frame.dropna col) <-> In (Some v) col.
Proof.
  unfold Frame.dropna. rewrite in_flat_map. split.
  - intros ([x|] & Hx & H); [|contradiction].
    destruct H as [->|[]]. exact Hx.
  - intros H. exists (Some v). split; [exact H | now left].
Qed.

Lemma years_raw_In db y :
  In y (sort_by Z.leb
          (Frame.unique Z.eqb
             (Frame.dropna (map Db.year_published (Db.games db))))) <->
  exists g, In g (Db.games db) /\ Db.year_published g = Some y.
Proof.
  rewrite sort_by_In, unique_Z_In, dropna_In, in_map_iff.
  split; intros (g & H1 & H2); exists g; tauto.
Qed.

(** X8.  The year entries that the sidebar offers are the positive
    publication years of the games, each once, newest first, written in
    decimal, followed by the one entry ["<0"] exactly when some game has a
    year that is not positive; [render_sidebar] converts the entry of a
    year back to that year, and raises on no entry of the select box. *)
Theorem X8_search_year_options :
  forall db : Db.t,
    match SearchSidebar.get_filter_options (Db.Present db) with
    | Some (_, _, _, years) =>
        exists (pos_years : list Z) (tail : list string),
          years = map SearchSidebar.str pos_years ++ tail /\
          StronglySorted (fun a b => (b < a)%Z) pos_years /\
          (forall y, In y pos_years <->
                     (0 < y)%Z /\
                     exists g, In g (Db.games db) /\
                               Db.year_published g = Some y) /\
          ((tail = ["<0"%string] /\
            exists g y, In g (Db.games db) /\
                        Db.year_published g = Some y /\ (y <= 0)%Z) \/
           (tail = [] /\
            forall g y, In g (Db.games db) ->
                        Db.year_published g = Some y -> (0 < y)%Z)) /\
          (forall y ms d ts sub,
              SearchSidebar.render_sidebar
                (SearchSidebar.mk_form ms d ts (SearchSidebar.str y) sub)
              = Some (sub,
                      GameSearch.mk_filters ms
                        (if String.eqb d "All" then None else Some d) ts
                        (GameSearch.year_is y))) /\
          (forall o ms d ts sub,
              In o ("All"%string :: years) ->
              SearchSidebar.render_sidebar
                (SearchSidebar.mk_form ms d ts o sub) <> None)
    | None => False
    end.
Proof.
  intros db. cbn [SearchSidebar.get_filter_options].
  set (years_raw := sort_by Z.leb _).
  set (pos := sort_by (fun a b => (b <=? a)%Z) _).
  set (tail := if existsb (fun y => (y <=? 0)%Z) years_raw
               then ["<0"%string] else []).
  assert (Hraw : forall y, In y years_raw <->
            exists g, In g (Db.games db) /\ Db.year_published g = Some y)
    by apply years_raw_In.
  assert (Hpos : forall y, In y pos <->
            (0 < y)%Z /\ exists g, In g (Db.games db) /\
                                   Db.year_published g = Some y).
  { intros y. unfold pos. rewrite sort_by_In, filter_In, Hraw.
    rewrite Z.gtb_lt. tauto. }
  assert (Ey : (if existsb (fun y => (y <=? 0)%Z) years_raw
                then map SearchSidebar.str pos ++ ["<0"%string]
                else map SearchSidebar.str pos)
               = map SearchSidebar.str pos ++ tail).
  { unfold tail. destruct (existsb _ years_raw);
      [reflexivity | now rewrite app_nil_r]. }
  rewrite Ey. clear Ey.
  exists pos, tail. split; [reflexivity|].
  split.
  { apply sorted_desc_strict.
    - unfold pos. apply sort_by_NoDup, NoDup_filter.
      unfold years_raw. apply sort_by_NoDup, unique_Z_NoDup.
    - unfold pos. apply sort_by_sorted.
      + intros a b. rewrite !Z.leb_le. lia.
      + intros a b c. rewrite !Z.leb_le. lia. }
  split; [exact Hpos|]. split.
  { unfold tail. destruct (existsb _ years_raw) eqn:E.
    - left. split; [reflexivity|]. apply existsb_exists in E.
      destruct E as (y & Hy & Hle). apply Hraw in Hy.
      destruct Hy as (g & Hg & Eg). apply Z.leb_le in Hle.
      exists g, y. auto.
    - right. split; [reflexivity|]. intros g y Hg Eg.
      destruct (Z.ltb_spec 0 y) as [H|H]; [exact H|].
      exfalso. assert (Hex : existsb (fun y => (y <=? 0)%Z) years_raw = true).
      { apply existsb_exists. exists y. split.
        - apply Hraw. exists g. auto.
        - now apply Z.leb_le. }
      congruence. }
  split; [intros; apply render_sidebar_year|].
  intros o ms d ts sub Ho.
  destruct Ho as [<-|Ho]; [discriminate|].
  apply in_app_or in Ho. destruct Ho as [Ho|Ho].
  - apply in_map_iff in Ho. destruct Ho as (y & <- & _).
    rewrite render_sidebar_year. discriminate.
  - unfold tail in Ho. destruct (existsb _ years_raw); [|contradiction].
    destruct Ho as [<-|[]]. discriminate.
Qed.

(* ================================================================== *)
(** ** The displayed mechanics of the mechanic page *)
(* ================================================================== *)

Lemma truthy_spec s : truthy s = true <-> s <> EmptyString.
Proof.
  unfold truthy. rewrite negb_true_iff.
  destruct (String.eqb_spec s EmptyString); intuition congruence.
Qed.

(** A sorted list of strings without duplicates is what sorting any list
    with the same elements, each once, gives. *)
Lemma sort_strings_canonical (l l' : list string) :
  StronglySorted (fun a b => String.leb a b = true) l' -> NoDup l' ->
  NoDup l -> (forall x, In x l <-> In x l') ->
  sort_by String.leb l = l'.
Proof.
  intros Hs Hn' Hn Hin.
  apply (sorted_perm_eq String.leb); auto using string_leb_refl,
    String.leb_antisym, sort_strings_sorted.
  rewrite <- (sort_by_perm String.leb l).
  now apply NoDup_Permutation.
Qed.

Lemma add_mechanic_selected s m :
  MechanicTrends.mechanic_to_add s = Some m -> truthy m = true ->
  MechanicTrends._add_mechanic s
  = MechanicTrends.set_use_impact_top_n false
      (MechanicTrends.set_selected_mechanics
         (sort_by String.leb
            (Frame.unique String.eqb
               (m :: MechanicTrends.default []
                       (MechanicTrends.selected_mechanics s)))) s).
Proof.
  intros E Ht. unfold MechanicTrends._add_mechanic. rewrite E.
  cbn [MechanicTrends.default]. now rewrite Ht.
Qed.

(** X9.  The callback that adds the mechanic picked in the select box does
    nothing when the pick is empty; otherwise the displayed mechanics
    become the former ones and the pick, each once, in ascending order, the
    top-N mode is switched off, and running the callback again changes
    nothing more. *)
Theorem X9_add_mechanic_callback :
  forall s : MechanicTrends.session,
    let pick := MechanicTrends.default EmptyString
                  (MechanicTrends.mechanic_to_add s) in
    let before := MechanicTrends.default []
                    (MechanicTrends.selected_mechanics s) in
    let s' := MechanicTrends._add_mechanic s in
    (pick = EmptyString -> s' = s) /\
    (pick <> EmptyString ->
     exists after,
       MechanicTrends.selected_mechanics s' = Some after /\
       StronglySorted (fun a b => String.leb a b = true) after /\
       NoDup after /\
       (forall m, In m after <-> m = pick \/ In m before) /\
       MechanicTrends.use_impact_top_n s' = Some false /\
       MechanicTrends._add_mechanic s' = s').
Proof.
  intros s pick before s'. split.
  - intros E. unfold s', MechanicTrends._add_mechanic. fold pick.
    now rewrite E.
  - intros Hne. apply truthy_spec in Hne.
    set (after := sort_by String.leb
                    (Frame.unique String.eqb (pick :: before))).
    assert (Es' : s' = MechanicTrends.set_use_impact_top_n false
                         (MechanicTrends.set_selected_mechanics after s)).
    { unfold s', MechanicTrends._add_mechanic. fold pick. now rewrite Hne. }
    assert (Hs : StronglySorted (fun a b => String.leb a b = true) after)
      by apply sort_strings_sorted.
    assert (Hn : NoDup after)
      by apply sort_by_NoDup, unique_strings_NoDup.
    assert (Hin : forall m, In m after <-> m = pick \/ In m before).
    { intros m. unfold after. rewrite sort_by_In, unique_strings_In.
      cbn [In]. intuition. }
    exists after. rewrite Es'. repeat split; auto; try apply Hin.
    unfold MechanicTrends._add_mechanic.
    cbn [MechanicTrends.set_use_impact_top_n
         MechanicTrends.set_selected_mechanics
         MechanicTrends.mechanic_to_add MechanicTrends.selected_mechanics
         MechanicTrends.default].
    fold pick. rewrite Hne.
    assert (E : sort_by String.leb
                  (Frame.unique String.eqb (pick :: after)) = after).
    { apply sort_strings_canonical; auto using unique_strings_NoDup.
      intros x. rewrite unique_strings_In. cbn [In]. split; [|auto].
      intros [<-|H]; [apply Hin; now left | exact H]. }
    rewrite E. reflexivity.
Qed.

Lemma filter_all {A} (f : A -> bool) l :
  (forall x, In x l -> f x = true) -> filter f l = l.
Proof.
  induction l as [|x l IH]; intros H; [reflexivity|].
  cbn. rewrite (H x (or_introl eq_refl)). f_equal.
  apply IH. intros y Hy. apply H. now right.
Qed.

Lemma neqb_true (m x : string) :
  negb (String.eqb x m) = true <-> x <> m.
Proof.
  rewrite negb_true_iff. destruct (String.eqb_spec x m); intuition congruence.
Qed.

(** X10.  The callback of the "X" button of a mechanic leaves the other
    displayed mechanics, in ascending order and without the removed one,
    and switches the top-N mode off; it undoes the addition of a mechanic
    that was not displayed. *)
Theorem X10_remove_mechanic_callback :
  forall (s : MechanicTrends.session) (m : string),
    let before := MechanicTrends.default []
                    (MechanicTrends.selected_mechanics s) in
    let s' := MechanicTrends._remove_mechanic m s in
    (exists after,
       MechanicTrends.selected_mechanics s' = Some after /\
       StronglySorted (fun a b => String.leb a b = true) after /\
       (forall x, In x after <-> In x before /\ x <> m) /\
       (forall x, x <> m -> count_occ string_dec after x
                            = count_occ string_dec before x)) /\
    MechanicTrends.use_impact_top_n s' = Some false /\
    (MechanicTrends.mechanic_to_add s = Some m -> m <> EmptyString ->
     StronglySorted (fun a b => String.leb a b = true) before ->
     NoDup before -> ~ In m before ->
     MechanicTrends.selected_mechanics
       (MechanicTrends._remove_mechanic m (MechanicTrends._add_mechanic s))
     = Some before).
Proof.
  intros s m before s'. split; [|split; [reflexivity|]].
  - eexists. split; [reflexivity|].
    split; [apply sort_strings_sorted|]. split.
    + intros x. rewrite sort_by_In, filter_In. fold before.
      now rewrite neqb_true.
    + intros x Hx. fold before.
      rewrite <- (proj1 (Permutation_count_occ string_dec _ _)
                        (sort_by_perm String.leb _) x).
      clear -Hx. induction before as [|y l IH]; [reflexivity|].
      cbn [filter]. destruct (String.eqb_spec y m) as [->|Hy]; cbn [negb].
      * rewrite count_occ_cons_neq by congruence. exact IH.
      * cbn [count_occ]. destruct (string_dec y x); now rewrite IH.
  - intros Ea Hne Hs Hn Hnin.
    rewrite (add_mechanic_selected s m Ea) by now apply truthy_spec.
    unfold MechanicTrends._remove_mechanic.
    cbn [MechanicTrends.set_use_impact_top_n
         MechanicTrends.set_selected_mechanics
         MechanicTrends.selected_mechanics MechanicTrends.default].
    fold before. f_equal.
    apply sort_strings_canonical; auto.
    + apply NoDup_filter, sort_by_NoDup, unique_strings_NoDup.
    + intros x. rewrite filter_In, sort_by_In, unique_strings_In, neqb_true.
      cbn [In]. split.
      * intros [[E|H] Hx]; [congruence | exact H].
      * intros H. split; [now right|]. intros ->. contradiction.
Qed.

(** X10 on a session that displays "Area Control" alone: "Dice Rolling" is
    added, then removed, and "Area Control" is displayed alone again. *)
Lemma X10_remove_mechanic_callback_witness :
  MechanicTrends.selected_mechanics
    (MechanicTrends._remove_mechanic "Dice Rolling"
       (MechanicTrends._add_mechanic
          (MechanicTrends.set_mechanic_to_add "Dice Rolling"
             (MechanicTrends.set_selected_mechanics ["Area Control"%string]
                MechanicTrends.empty_session))))
  = Some ["Area Control"%string].
Proof.
  destruct (X10_remove_mechanic_callback
              (MechanicTrends.set_mechanic_to_add "Dice Rolling"
                 (MechanicTrends.set_selected_mechanics
                    ["Area Control"%string] MechanicTrends.empty_session))
              "Dice Rolling"%string) as (_ & _ & H).
  apply H.
  - reflexivity.
  - discriminate.
  - repeat constructor.
  - repeat constructor. intros [].
  - intros [E|[]]. discriminate E.
Defined.

Lemma sorted_by_count_In m idf :
  In m (MechanicTrends.sorted_by_count idf)
  <-> In m (map MechanicTrends.i_mechanic idf).
Proof.
  unfold MechanicTrends.sorted_by_count. rewrite !in_map_iff.
  split; intros (r & E & H); exists r; (split; [exact E|]).
  - now apply sort_by_In in H.
  - now apply sort_by_In.
Qed.

Lemma sorted_by_impact_In m idf :
  In m (MechanicTrends.sorted_by_impact idf)
  <-> In m (map MechanicTrends.i_mechanic idf).
Proof.
  unfold MechanicTrends.sorted_by_impact. rewrite !in_map_iff.
  split; intros (r & E & H); exists r; (split; [exact E|]).
  - now apply sort_by_In in H.
  - now apply sort_by_In.
Qed.

Lemma render_sidebar_selected df idf inp s :
  let s' := fst (fst (fst (MechanicTrends.render_sidebar df idf inp s))) in
  let top_n :=
    MechanicTrends.default
      (MechanicTrends.default 10%nat (MechanicTrends.impact_top_n s))
      (MechanicTrends.top_n_slider inp) in
  let valid m := St.mem_str m (MechanicTrends.sorted_by_count idf) in
  MechanicTrends.impact_top_n s' = Some top_n /\
  MechanicTrends.selected_mechanics s'
  = Some (filter valid
            match MechanicTrends.use_impact_top_n s with
            | Some false =>
                MechanicTrends.default
                  (firstn 10 (MechanicTrends.sorted_by_count idf))
                  (MechanicTrends.selected_mechanics s)
            | _ => firstn top_n (MechanicTrends.sorted_by_impact idf)
            end).
Proof.
  unfold MechanicTrends.render_sidebar. cbv zeta. cbn [fst snd].
  destruct s as [? ? ? u t sm ? ? ? ? ? ? ?].
  unfold MechanicTrends.setdefault.
  destruct u as [[|]|], t, sm; split; reflexivity.
Qed.

(** X11.  After [render_sidebar] every displayed mechanic is a mechanic of
    the impact frame; in the top-N mode, which is also the mode of a fresh
    session, the displayed mechanics are the first N of the ranking by
    Impact, N being the value of the slider; otherwise they are the former
    ones without those that are no longer in the data, in the same
    order. *)
Theorem X11_render_sidebar_displayed_mechanics :
  forall (df : list MechanicTrends.row)
         (idf : list MechanicTrends.impact_row)
         (inp : MechanicTrends.inputs) (s : MechanicTrends.session),
    let s' := fst (fst (fst (MechanicTrends.render_sidebar df idf inp s))) in
    let top_n :=
      MechanicTrends.default
        (MechanicTrends.default 10%nat (MechanicTrends.impact_top_n s))
        (MechanicTrends.top_n_slider inp) in
    exists displayed,
      MechanicTrends.selected_mechanics s' = Some displayed /\
      Forall (fun m => In m (map MechanicTrends.i_mechanic idf)) displayed /\
      MechanicTrends.impact_top_n s' = Some top_n /\
      (MechanicTrends.use_impact_top_n s <> Some false ->
       displayed = firstn top_n (MechanicTrends.sorted_by_impact idf)) /\
      (forall former,
         MechanicTrends.use_impact_top_n s = Some false ->
         MechanicTrends.selected_mechanics s = Some former ->
         displayed
         = filter (fun m => St.mem_str m (map MechanicTrends.i_mechanic idf))
                  former).
Proof.
  intros df idf inp s s' top_n.
  destruct (render_sidebar_selected df idf inp s) as [Hn Hsel].
  cbv zeta in Hn, Hsel. fold s' top_n in Hn, Hsel.
  assert (Hvalid : forall m,
            St.mem_str m (MechanicTrends.sorted_by_count idf)
            = St.mem_str m (map MechanicTrends.i_mechanic idf)).
  { intros m. apply eq_true_iff_eq.
    now rewrite !mem_str_In, sorted_by_count_In. }
  eexists. split; [exact Hsel|]. split; [|split; [exact Hn|split]].
  - apply Forall_forall. intros m Hm. apply filter_In in Hm.
    destruct Hm as [_ Hm]. apply mem_str_In in Hm.
    now apply sorted_by_count_In.
  - intros Hmode.
    assert (E : match MechanicTrends.use_impact_top_n s with
                | Some false =>
                    MechanicTrends.default
                      (firstn 10 (MechanicTrends.sorted_by_count idf))
                      (MechanicTrends.selected_mechanics s)
                | _ => firstn top_n (MechanicTrends.sorted_by_impact idf)
                end = firstn top_n (MechanicTrends.sorted_by_impact idf)).
    { destruct (MechanicTrends.use_impact_top_n s) as [[|]|];
        [reflexivity | contradiction | reflexivity]. }
    rewrite E. apply filter_all. intros m Hm. apply In_firstn in Hm.
    apply mem_str_In, sorted_by_count_In.
    exact (proj1 (sorted_by_impact_In _ _) Hm).
  - intros former Hmode Hf. rewrite Hmode, Hf.
    cbn [MechanicTrends.default]. apply filter_ext. exact Hvalid.
Qed.

Lemma render_sidebar_manual df idf inp s l :
  MechanicTrends.use_impact_top_n s = Some false ->
  MechanicTrends.selected_mechanics s = Some l ->
  MechanicTrends.selected_mechanics
    (fst (fst (fst (MechanicTrends.render_sidebar df idf inp s))))
  = Some (filter (fun m => St.mem_str m (MechanicTrends.sorted_by_count idf))
                 l).
Proof.
  intros Hu Hl.
  destruct (render_sidebar_selected df idf inp s) as [_ Hsel].
  cbv zeta in Hsel. now rewrite Hsel, Hu, Hl.
Qed.

(** X12.  What the two callbacks did holds on the next run of the page,
    whatever the top-N mode was: a mechanic removed with its "X" button is
    not displayed, and a mechanic of the data added through the select box
    is. *)
Theorem X12_sidebar_keeps_manual_changes :
  forall (df : list MechanicTrends.row)
         (idf : list MechanicTrends.impact_row)
         (inp : MechanicTrends.inputs) (s : MechanicTrends.session)
         (m : string),
    let displayed_after s0 :=
      MechanicTrends.default []
        (MechanicTrends.selected_mechanics
           (fst (fst (fst (MechanicTrends.render_sidebar df idf inp s0))))) in
    ~ In m (displayed_after (MechanicTrends._remove_mechanic m s)) /\
    (MechanicTrends.mechanic_to_add s = Some m -> m <> EmptyString ->
     In m (map MechanicTrends.i_mechanic idf) ->
     In m (displayed_after (MechanicTrends._add_mechanic s))).
Proof.
  intros df idf inp s m displayed_after. split.
  - unfold displayed_after.
    erewrite render_sidebar_manual; [|reflexivity|reflexivity].
    cbn [MechanicTrends.default]. rewrite filter_In, sort_by_In, filter_In.
    rewrite neqb_true. tauto.
  - intros Ea Hne Hin. unfold displayed_after.
    rewrite (add_mechanic_selected s m Ea) by now apply truthy_spec.
    erewrite render_sidebar_manual; [|reflexivity|reflexivity].
    cbn [MechanicTrends.default]. rewrite filter_In, sort_by_In,
      unique_strings_In, mem_str_In, sorted_by_count_In.
    split; [now left | exact Hin].
Qed.

(** X12 on the impact frame of "Dice Rolling": once picked in the select
    box of a fresh session, the mechanic is displayed on the next run. *)
Lemma X12_sidebar_keeps_manual_changes_witness :
  In "Dice Rolling"%string
     (MechanicTrends.default []
        (MechanicTrends.selected_mechanics
           (fst (fst (fst (MechanicTrends.render_sidebar []
                             Examples.impact_two_years
                             (MechanicTrends.mk_inputs None None false)
                             (MechanicTrends._add_mechanic
                                (MechanicTrends.set_mechanic_to_add
                                   "Dice Rolling"
                                   MechanicTrends.empty_session)))))))).
Proof.
  destruct (X12_sidebar_keeps_manual_changes [] Examples.impact_two_years
              (MechanicTrends.mk_inputs None None false)
              (MechanicTrends.set_mechanic_to_add "Dice Rolling"
                 MechanicTrends.empty_session) "Dice Rolling"%string)
    as [_ H].
  apply H.
  - reflexivity.
  - discriminate.
  - left. reflexivity.
Defined.

(** X13.  The select box "search and add" always holds its current pick
    among its options; its first option is the empty entry; it offers
    every mechanic of the data that is not displayed, and nothing else
    besides the empty entry and the current pick. *)
Theorem X13_picker_options :
  forall (idf : list MechanicTrends.impact_row) (s : MechanicTrends.session),
    let pick := MechanicTrends.default EmptyString
                  (MechanicTrends.mechanic_to_add s) in
    let displayed := MechanicTrends.default []
                       (MechanicTrends.selected_mechanics s) in
    let options := MechanicPicker.offered idf s in
    In pick options /\
    hd_error options = Some EmptyString /\
    (forall m, In m (map MechanicTrends.i_mechanic idf) ->
               ~ In m displayed -> In m options) /\
    (forall m, In m options ->
               m = EmptyString \/ m = pick \/
               (In m (map MechanicTrends.i_mechanic idf) /\
                ~ In m displayed)).
Proof.
  intros idf s pick displayed options.
  unfold options, MechanicPicker.offered. fold pick displayed.
  set (rem := MechanicPicker.remaining _ displayed).
  assert (Hrem : forall m, In m rem <->
            In m (map MechanicTrends.i_mechanic idf) /\ ~ In m displayed).
  { intros m. unfold rem, MechanicPicker.remaining.
    rewrite filter_In, sort_by_In, sorted_by_count_In, negb_true_iff.
    destruct (St.mem_str m displayed) eqn:E.
    - apply mem_str_In in E. intuition congruence.
    - split; [|tauto]. intros [H _]. split; [exact H|].
      intros Hd. apply mem_str_In in Hd. congruence. }
  unfold MechanicPicker.options.
  destruct (truthy pick && negb (St.mem_str pick (EmptyString :: rem)))
    eqn:E.
  - cbn [app]. repeat split.
    + right. now left.
    + intros m H1 H2. right. right. apply Hrem. auto.
    + intros m [<-|[<-|H]]; [now left | right; now left |].
      right. right. now apply Hrem.
  - repeat split.
    + apply andb_false_iff in E. destruct E as [E|E].
      * left. unfold truthy in E. apply negb_false_iff in E.
        symmetry. now apply String.eqb_eq.
      * apply negb_false_iff in E. now apply mem_str_In.
    + intros m H1 H2. right. apply Hrem. auto.
    + intros m [<-|H]; [now left|]. right. right. now apply Hrem.
Qed.

(* ================================================================== *)
(** ** The lower half of the category page *)
(* ================================================================== *)

Lemma Rle_dec_total (a b : R) :
  (if Rle_dec b a then true else false) = true \/
  (if Rle_dec a b then true else false) = true.
Proof.
  destruct (Rle_dec b a); [now left|]. right.
  destruct (Rle_dec a b); [reflexivity | lra].
Qed.

Lemma Rle_dec_trans (a b c : R) :
  (if Rle_dec b a then true else false) = true ->
  (if Rle_dec c b then true else false) = true ->
  (if Rle_dec c a then true else false) = true.
Proof.
  destruct (Rle_dec b a), (Rle_dec c b), (Rle_dec c a);
    try discriminate; try reflexivity. lra.
Qed.

Lemma length_firstn_le {A} n (l : list A) : (List.length (firstn n l) <= n)%nat.
Proof. rewrite length_firstn. lia. Qed.

(** X14.  The Top-20 chart of the category page draws at most twenty bars,
    by decreasing value; every bar is a mechanic of the frame with the
    value of the chosen metric, none has a missing value; and the chart is
    replaced by a notice exactly when no mechanic has a value. *)
Theorem X14_bar_chart_top_twenty :
  forall (mech_df : list (Frame.agg string)) (metric_label : string),
    let out := CategoryTrends.render_mechanic_bar_chart mech_df
                 metric_label in
    let valued a :=
      negb (is_none (CategoryTrends.bar_value metric_label a)) in
    (if existsb valued mech_df
     then exists bars,
            out = [St.bar_chart bars] /\ bars <> [] /\
            (List.length bars <= 20)%nat /\
            StronglySorted (fun a b => (snd b <= snd a)%R) bars /\
            Forall (fun bar =>
                      exists a, In a mech_df /\ Frame.gkey a = fst bar /\
                                CategoryTrends.bar_value metric_label a
                                = Some (snd bar)) bars
     else exists msg, out = [St.info msg]).
Proof.
  intros mech_df metric_label out valued.
  unfold out, CategoryTrends.render_mechanic_bar_chart.
  set (vals := flat_map _ mech_df).
  assert (Hvals : forall bar, In bar vals <->
            exists a, In a mech_df /\ Frame.gkey a = fst bar /\
                      CategoryTrends.bar_value metric_label a
                      = Some (snd bar)).
  { intros [m v]. unfold vals. rewrite in_flat_map. cbn [fst snd]. split.
    - intros (a & Ha & H). exists a.
      destruct (CategoryTrends.bar_value metric_label a) as [w|];
        [|contradiction].
      destruct H as [E|[]]. inversion E. subst. auto.
    - intros (a & Ha & Ek & Ev). exists a. split; [exact Ha|].
      rewrite Ev, Ek. now left. }
  destruct (existsb valued mech_df) eqn:Ex.
  - apply existsb_exists in Ex. destruct Ex as (a & Ha & Hv).
    destruct mech_df as [|a0 mech_df']; [contradiction|].
    cbn [is_empty].
    assert (Hne : vals <> []).
    { unfold valued in Hv.
      destruct (CategoryTrends.bar_value metric_label a) as [v|] eqn:Ev;
        [|discriminate].
      intros E. assert (Hin : In (Frame.gkey a, v) vals).
      { apply Hvals. exists a. auto. }
      rewrite E in Hin. contradiction. }
    rewrite (is_empty_false _ Hne).
    set (sorted := sort_by (fun a b : string * R =>
                              if Rle_dec (snd b) (snd a) then true else false)
                           vals).
    exists (Frame.head 20 sorted). split; [reflexivity|].
    assert (Hsne : sorted <> []).
    { intros E. apply Hne. apply (f_equal (@List.length _)) in E.
      unfold sorted in E. rewrite sort_by_length in E.
      now apply length_zero_iff_nil. }
    split; [|split; [apply length_firstn_le|split]].
    + unfold Frame.head. destruct sorted; [contradiction | discriminate].
    + apply StronglySorted_firstn.
      eapply StronglySorted_impl;
        [|apply sort_by_sorted;
          [intros x y; apply Rle_dec_total
          |intros x y z; apply Rle_dec_trans]].
      intros x y H. cbv beta in H.
      destruct (Rle_dec (snd y) (snd x)); [assumption | discriminate].
    + apply Forall_forall. intros bar Hb. apply In_firstn in Hb.
      apply sort_by_In in Hb. now apply Hvals.
  - destruct mech_df as [|a0 mech_df']; [eexists; reflexivity|].
    cbn [is_empty].
    assert (Hnil : vals = []).
    { destruct vals as [|bar vals']; [reflexivity|]. exfalso.
      assert (Hin : In bar (bar :: vals')) by now left.
      apply Hvals in Hin. destruct Hin as (a & Ha & _ & Ev).
      assert (Hex : existsb valued (a0 :: mech_df') = true).
      { apply existsb_exists. exists a. split; [exact Ha|].
        unfold valued. now rewrite Ev. }
      congruence. }
    rewrite Hnil. cbn [is_empty]. eexists. reflexivity.
Qed.

Lemma unique_Z_length_pos (l : list Z) :
  l <> [] -> (1 <= List.length (Frame.unique Z.eqb l))%nat.
Proof.
  intros Hne. destruct l as [|x l]; [contradiction|].
  assert (Hin : In x (Frame.unique Z.eqb (x :: l)))
    by (apply unique_Z_In; now left).
  destruct (Frame.unique Z.eqb (x :: l)); [contradiction | cbn; lia].
Qed.

Lemma groupby_agg_keys {A K} (keq kleb : K -> K -> bool) (key : A -> K)
    (bgg_id : A -> Z) (rating_geek : A -> option Q) (df : list A) :
  map Frame.gkey (Frame.groupby_agg keq kleb key bgg_id rating_geek df)
  = Frame.group_keys keq kleb key df.
Proof.
  unfold Frame.groupby_agg. rewrite map_map. cbn [Frame.agg_group Frame.gkey].
  apply map_id.
Qed.

Lemma In_map_sort_by {A B} (f : A -> B) (leb : A -> A -> bool) x l :
  In x (map f (sort_by leb l)) <-> In x (map f l).
Proof.
  rewrite !in_map_iff. split; intros (a & E & H); exists a;
    (split; [exact E|]).
  - exact (proj1 (sort_by_In leb a l) H).
  - exact (proj2 (sort_by_In leb a l) H).
Qed.

Lemma swap_range (a b : Z) :
  (if a >? b then (b, a) else (a, b))%Z
  = (if b >? a then (a, b) else (b, a))%Z.
Proof.
  destruct (Z.gtb_spec a b), (Z.gtb_spec b a); try reflexivity; try lia.
  assert (a = b) by lia. now subst.
Qed.

(** X15.  [query_top_mechanics_by_category] returns one row per mechanic of
    the games it joins, the rows by decreasing number of games, each with at
    least one game; and a year range given in the reverse order gives the
    same rows. *)
Theorem X15_top_mechanics_rows :
  forall (db : Db.t) (cat : string) (y1 y2 rank_limit : Z),
    match CategoryTrends.query_top_mechanics_by_category (Db.Present db) cat
            (y1, y2) rank_limit with
    | Some rows =>
        NoDup (map Frame.gkey rows) /\
        StronglySorted
          (fun a b => (Frame.count b <= Frame.count a)%nat) rows /\
        Forall (fun a => (1 <= Frame.count a)%nat) rows /\
        (forall m, In m (map Frame.gkey rows) <->
                   exists g, In (m, g)
                               (CategoryTrends.joined db cat
                                  (Z.min y1 y2) (Z.max y1 y2) rank_limit)) /\
        CategoryTrends.query_top_mechanics_by_category (Db.Present db) cat
          (y2, y1) rank_limit = Some rows
    | None => False
    end.
Proof.
  intros db cat y1 y2 rank_limit.
  unfold CategoryTrends.query_top_mechanics_by_category. cbn [fst snd].
  rewrite (swap_range y2 y1).
  assert (E : (if (y1 >? y2)%Z then (y2, y1) else (y1, y2))
              = (Z.min y1 y2, Z.max y1 y2)).
  { destruct (Z.gtb_spec y1 y2); f_equal; lia. }
  rewrite E. clear E.
  set (rows := CategoryTrends.joined db cat _ _ rank_limit).
  set (grouped := Frame.groupby_agg _ _ _ _ _ rows).
  assert (Hkeys : map Frame.gkey grouped
                  = Frame.group_keys String.eqb String.leb fst rows)
    by apply groupby_agg_keys.
  split; [|split; [|split; [|split; [|reflexivity]]]].
  - eapply Permutation_NoDup.
    + apply Permutation_map, sort_by_perm.
    + rewrite Hkeys. unfold Frame.group_keys.
      apply sort_by_NoDup, unique_strings_NoDup.
  - eapply StronglySorted_impl; [|apply sort_by_sorted].
    + intros a b H. cbv beta in H. now apply Nat.leb_le in H.
    + intros a b. rewrite !Nat.leb_le. lia.
    + intros a b c. rewrite !Nat.leb_le. lia.
  - apply Forall_forall. intros a Ha. apply sort_by_In in Ha.
    revert a Ha. apply Forall_forall.
    apply groupby_agg_Forall; [apply Streqb_spec|].
    intros k Hk. cbn [Frame.agg_group Frame.count]. unfold Frame.nunique.
    apply unique_Z_length_pos. intros Hnil.
    apply map_eq_nil in Hnil.
    now apply (group_nonempty String.eqb fst Streqb_spec k rows).
  - intros m.
    rewrite In_map_sort_by.
    rewrite Hkeys, (group_keys_In String.eqb String.leb fst Streqb_spec).
    rewrite in_map_iff. split.
    + intros ([m' g] & <- & H). now exists g.
    + intros (g & H). exists (m, g). auto.
Qed.

Lemma joined_In db cat s e rl m g :
  In (m, g) (CategoryTrends.joined db cat s e rl) ->
  In g (Db.games db) /\
  exists ro rc y k,
    In ro (Db.ranks db) /\ In rc (Db.ranks db) /\
    Db.r_bgg_id ro = Db.bgg_id g /\ Db.r_bgg_id rc = Db.bgg_id g /\
    Db.domain ro = "overall"%string /\ Db.rank ro = Some k /\
    (k <= rl)%Z /\ Db.domain rc = cat /\
    Db.year_published g = Some y /\ (s <= y <= e)%Z.
Proof.
  unfold CategoryTrends.joined. rewrite in_flat_map.
  intros (g' & Hg & H). apply in_flat_map in H.
  destruct H as (ro & Hro & H). apply in_flat_map in H.
  destruct H as (rc & Hrc & H). apply in_flat_map in H.
  destruct H as (mr & Hmr & H).
  match type of H with
  | In _ (if ?c then _ else _) => destruct c eqn:Ec; [|contradiction]
  end.
  destruct H as [E|[]]. inversion E. subst g' m. clear E.
  rewrite !andb_true_iff in Ec.
  destruct Ec as (((((((E1 & E2) & _) & E4) & E5) & E6) & _) & E8).
  split; [exact Hg|].
  destruct (Db.rank ro) as [k|] eqn:Ek; [|discriminate].
  destruct (Db.year_published g) as [y|] eqn:Ey; [|discriminate].
  exists ro, rc, y, k.
  apply Z.eqb_eq in E1, E2. apply String.eqb_eq in E4, E6.
  apply Z.leb_le in E5. apply andb_true_iff in E8.
  rewrite !Z.leb_le in E8. repeat split; auto; lia.
Qed.

Lemma category_select_rows_In db g ro rc y :
  In g (Db.games db) -> In ro (Db.ranks db) -> In rc (Db.ranks db) ->
  Db.r_bgg_id ro = Db.bgg_id g -> Db.r_bgg_id rc = Db.bgg_id g ->
  Db.domain ro = "overall"%string -> Db.domain rc <> "overall"%string ->
  Db.year_published g = Some y ->
  In (CategoryTrends.mk_row (Db.bgg_id g) (Db.name g) y (Db.rating_geek g)
                            (Db.rank ro) (Db.domain rc))
     (CategoryTrends.select_rows db).
Proof.
  intros Hg Hro Hrc E1 E2 E3 E4 Ey.
  unfold CategoryTrends.select_rows. apply in_flat_map.
  exists g. split; [exact Hg|]. rewrite Ey.
  apply in_flat_map. exists ro. split; [exact Hro|].
  rewrite E1, Z.eqb_refl, E3. cbn [andb String.eqb].
  replace (String.eqb "overall" "overall") with true by reflexivity.
  apply in_flat_map. exists rc. split; [exact Hrc|].
  rewrite E2, Z.eqb_refl. cbn [andb].
  destruct (String.eqb_spec (Db.domain rc) "overall"); [contradiction|].
  now left.
Qed.

(** X16.  For a category other than "overall" and a year range in order, no
    mechanic of the Top-20 query counts more games than the listing of the
    category holds: every game that the query counts is a game of the
    listing below the chart. *)
Theorem X16_top_mechanics_within_listing :
  forall (db : Db.t) (cat : string) (y1 y2 rank_limit : Z),
    cat <> "overall"%string -> (y1 <= y2)%Z ->
    let filtered_df :=
      filter (CategoryTrends.rank_year_mask rank_limit (y1, y2))
             (CategoryTrends.select_rows db) in
    let total_games :=
      List.length (CategoryTrends.games_in_range filtered_df cat) in
    match CategoryTrends.query_top_mechanics_by_category (Db.Present db) cat
            (y1, y2) rank_limit with
    | Some rows =>
        Forall (fun a => (Frame.count a <= total_games)%nat) rows
    | None => False
    end.
Proof.
  intros db cat y1 y2 rl Hcat Hy filtered_df total_games.
  unfold CategoryTrends.query_top_mechanics_by_category. cbn [fst snd].
  assert (E : (if (y1 >? y2)%Z then (y2, y1) else (y1, y2)) = (y1, y2)).
  { destruct (Z.gtb_spec y1 y2); [lia | reflexivity]. }
  rewrite E. clear E.
  apply Forall_forall. intros a Ha. apply sort_by_In in Ha.
  revert a Ha. apply Forall_forall.
  apply groupby_agg_Forall; [apply Streqb_spec|].
  intros k _. cbn [Frame.agg_group Frame.count]. unfold Frame.nunique.
  unfold total_games.
  rewrite <- (length_map CategoryTrends.bgg_id
                (CategoryTrends.games_in_range filtered_df cat)).
  apply NoDup_incl_length; [apply unique_Z_NoDup|].
  intros x Hx. apply (proj1 (unique_Z_In _ _)) in Hx.
  apply in_map_iff in Hx.
  destruct Hx as ([m g] & <- & Hmg). apply filter_In in Hmg.
  destruct Hmg as [Hmg _]. cbn [snd].
  apply joined_In in Hmg.
  destruct Hmg as (Hg & ro & rc & y & r & Hro & Hrc & E1 & E2 & E3 & Er &
                   Hr & Ec & Ey & Hyr).
  unfold CategoryTrends.games_in_range.
  change (Db.bgg_id g) with
    (CategoryTrends.bgg_id
       (CategoryTrends.mk_row (Db.bgg_id g) (Db.name g) y (Db.rating_geek g)
          (Db.rank ro) (Db.domain rc))).
  apply listed_complete. apply filter_In. split.
  - unfold filtered_df. apply filter_In. split.
    + apply category_select_rows_In; auto. congruence.
    + unfold CategoryTrends.rank_year_mask.
      cbn [CategoryTrends.overall_rank CategoryTrends.year fst snd].
      rewrite Er. rewrite !andb_true_iff, Z.geb_le, !Z.leb_le. lia.
  - cbn [CategoryTrends.category]. now apply String.eqb_eq.
Qed.

(** X16 on the one-game database: "Dice Rolling" counts one game of the
    domain "strategygames", and the listing holds one game. *)
Lemma X16_top_mechanics_within_listing_witness :
  match CategoryTrends.query_top_mechanics_by_category
          (Db.Present Examples.db_1990) "strategygames" (1990, 1990)%Z
          30000%Z with
  | Some rows =>
      Forall (fun a =>
                (Frame.count a
                 <= List.length
                      (CategoryTrends.games_in_range
                         (filter (CategoryTrends.rank_year_mask 30000%Z
                                    (1990, 1990)%Z)
                            (CategoryTrends.select_rows Examples.db_1990))
                         "strategygames"))%nat) rows
  | None => False
  end.
Proof.
  apply (X16_top_mechanics_within_listing Examples.db_1990 "strategygames"
           1990%Z 1990%Z 30000%Z).
  - discriminate.
  - lia.
Defined.

Lemma category_defaults_same s :
  let s1 := CategoryTrends.setdefault CategoryTrends.cat_year_range
              CategoryTrends.set_cat_year_range (2005, 2025)%Z
              (CategoryTrends.setdefault CategoryTrends.cat_rank_limit
                 CategoryTrends.set_cat_rank_limit 10000%Z s) in
  CategoryTrends.default 10000%Z (CategoryTrends.cat_rank_limit s1)
  = CategoryTrends.default 10000%Z (CategoryTrends.cat_rank_limit s) /\
  CategoryTrends.default (2005, 2025)%Z (CategoryTrends.cat_year_range s1)
  = CategoryTrends.default (2005, 2025)%Z (CategoryTrends.cat_year_range s) /\
  CategoryTrends.cat_selected_category s1
  = CategoryTrends.cat_selected_category s /\
  CategoryTrends.cat_metric_radio s1 = CategoryTrends.cat_metric_radio s.
Proof.
  destruct s as [rl yr ? ? ?]. destruct rl, yr; repeat split.
Qed.

(** X17.  On the category page the select box keeps the category chosen
    before when the filters still leave games of it, and falls back to the
    first category in alphabetical order otherwise, also on a fresh
    session; with no category left the key is not touched; and the page
    never raises on a database. *)
Theorem X17_category_selection_rule :
  forall (db : Db.t) (inp : CategoryTrends.inputs)
         (s : CategoryTrends.session),
    let filtered_df :=
      filter (CategoryTrends.rank_year_mask
                (CategoryTrends.default 10000%Z
                   (CategoryTrends.cat_rank_limit s))
                (CategoryTrends.default (2005, 2025)%Z
                   (CategoryTrends.cat_year_range s)))
             (CategoryTrends.select_rows db) in
    let avail := CategoryTrends.avail_cats filtered_df in
    match CategoryTrends.main (Db.Present db) inp s with
    | St.Done s' _ =>
        match avail with
        | [] => CategoryTrends.cat_selected_category s'
                = CategoryTrends.cat_selected_category s
        | first_cat :: _ =>
            CategoryTrends.cat_selected_category s'
            = Some (avail_or St.mem_str
                      (CategoryTrends.cat_selected_category s) avail
                      first_cat) /\
            Forall (fun c => String.leb first_cat c = true) avail
        end
    | St.Raised => False
    end.
Proof.
  intros db inp s filtered_df avail.
  unfold CategoryTrends.main. cbn [CategoryTrends.load_data].
  destruct (is_empty (CategoryTrends.select_rows db)) eqn:Eraw.
  { assert (Enil : avail = []).
    { unfold avail, filtered_df.
      destruct (CategoryTrends.select_rows db); [reflexivity|discriminate]. }
    now rewrite Enil. }
  cbv zeta.
  destruct (category_defaults_same s) as (Erl & Eyr & Esel & _).
  cbv zeta in Erl, Eyr, Esel.
  set (s1 := CategoryTrends.setdefault CategoryTrends.cat_year_range _ _ _)
    in *.
  unfold CategoryTrends.render_sidebar. rewrite Erl, Eyr.
  fold filtered_df. fold avail.
  destruct (CategoryTrends.render_chart _ _ _) as [chart_out cstate].
  destruct avail as [|first_cat rest] eqn:Ea; [exact Esel|].
  assert (Hfirst : St.mem_str first_cat (first_cat :: rest) = true)
    by (apply mem_str_In; now left).
  assert (Hsorted : Forall (fun c => String.leb first_cat c = true)
                           (first_cat :: rest)).
  { pose proof (sort_strings_sorted
                  (Frame.unique String.eqb
                     (map CategoryTrends.category filtered_df))) as Hs.
    fold (CategoryTrends.avail_cats filtered_df) in Hs.
    fold avail in Hs. rewrite Ea in Hs.
    apply StronglySorted_inv in Hs. destruct Hs as [_ Hall].
    constructor; [apply string_leb_refl | exact Hall]. }
  match goal with
  | |- context [if (?a >? ?b)%Z then ?x else ?y] =>
      destruct (if (a >? b)%Z then x else y) as [start_y end_y]
  end.
  match goal with
  | |- context [CategoryTrends.query_top_mechanics_by_category ?f ?c ?r ?l] =>
      destruct (CategoryTrends.query_top_mechanics_by_category f c r l)
        as [mech_df|] eqn:Eq
  end.
  2:{ unfold CategoryTrends.query_top_mechanics_by_category in Eq.
      destruct (if _ >? _ then _ else _)%Z in Eq. discriminate. }
  match goal with
  | |- context [CategoryTrends.listing ?g ?c ?x] =>
      pose proof (category_listing_spec g c x) as [El _];
      destruct (CategoryTrends.listing g c x) as [s3 out3]
  end.
  cbv zeta in El. cbn [fst] in El. subst s3.
  split; [|exact Hsorted].
  cbn [CategoryTrends.set_games_show_n_cat
       CategoryTrends.set_cat_selected_category
       CategoryTrends.cat_selected_category].
  rewrite Esel. unfold avail_or, CategoryTrends.default.
  destruct (CategoryTrends.cat_selected_category s) as [c|];
    [reflexivity | now rewrite Hfirst].
Qed.

(* ================================================================== *)
(** ** The drill-down of the mechanic page *)
(* ================================================================== *)

Lemma filter_filter_implied {A} (f g : A -> bool) (l : list A) :
  (forall x, f x = true -> g x = true) ->
  filter f (filter g l) = filter f l.
Proof.
  intros H. induction l as [|x l IH]; [reflexivity|].
  cbn [filter]. destruct (g x) eqn:Eg.
  - cbn [filter]. now rewrite IH.
  - rewrite IH. destruct (f x) eqn:Ef; [|reflexivity].
    apply H in Ef. congruence.
Qed.

(** The number of distinct identifiers of some rows is the number of rows
    that [drop_duplicates] keeps, in whatever order the rows come. *)
Lemma nunique_drop_duplicates {A} (bgg_id : A -> Z) (rows rows' : list A) :
  Permutation rows rows' ->
  Frame.nunique (map bgg_id rows)
  = List.length (Frame.drop_duplicates bgg_id rows').
Proof.
  intros Hp. unfold Frame.nunique, Frame.drop_duplicates.
  rewrite <- (length_map bgg_id (Frame.dedup_on Z.eqb bgg_id rows')).
  apply Permutation_length, NoDup_Permutation.
  - apply unique_Z_NoDup.
  - apply dedup_on_NoDup, Zeqb_spec.
  - intros x. rewrite unique_Z_In, (dedup_on_keys Z.eqb bgg_id Zeqb_spec).
    split; apply Permutation_in, Permutation_map;
      [|apply Permutation_sym]; exact Hp.
Qed.

(** X18.  The Popularity figure of the panel is the number of games of the
    listing under it: the count of the selected (year, mechanic) group of
    the chart equals the number of games listed for that year and
    mechanic. *)
Theorem X18_panel_popularity_is_listing_size :
  forall (filtered_df : list MechanicTrends.row) (selected : list string)
         (y : Z) (m : string) (r : Frame.agg (Z * string)),
    let chart_data :=
      filter (fun r => St.mem_str (MechanicTrends.mechanic r) selected)
             filtered_df in
    let grouped :=
      Frame.groupby_agg year_name_eqb year_name_leb
        (fun r => (MechanicTrends.year r, MechanicTrends.mechanic r))
        MechanicTrends.bgg_id MechanicTrends.rating_geek chart_data in
    find (fun g => year_name_eqb (Frame.gkey g) (y, m)) grouped = Some r ->
    Frame.count r
    = List.length (MechanicTrends.games_in_year filtered_df y m) /\
    (1 <= Frame.count r)%nat.
Proof.
  intros fd selected y m r chart_data grouped Hfind.
  apply find_some in Hfind. destruct Hfind as [Hin Hk].
  apply year_name_eqb_spec in Hk.
  unfold grouped, Frame.groupby_agg in Hin. apply in_map_iff in Hin.
  destruct Hin as (k & <- & Hkeys). cbn [Frame.agg_group Frame.gkey] in Hk.
  subst k. cbn [Frame.agg_group Frame.count].
  apply (group_keys_In year_name_eqb year_name_leb _ year_name_eqb_spec)
    in Hkeys.
  pose proof Hkeys as Hkeys'.
  apply in_map_iff in Hkeys. destruct Hkeys as (row & Erow & Hrow).
  apply filter_In in Hrow. destruct Hrow as [_ Hsel].
  pose proof (f_equal snd Erow) as Em. cbn [snd] in Em. rewrite Em in Hsel.
  assert (Eg : Frame.group year_name_eqb
                 (fun r => (MechanicTrends.year r, MechanicTrends.mechanic r))
                 (y, m) chart_data
               = filter (fun r => (MechanicTrends.year r =? y)%Z
                                  && String.eqb (MechanicTrends.mechanic r) m)
                        fd).
  { unfold Frame.group, chart_data.
    apply (filter_filter_implied
             (fun r => year_name_eqb
                         (MechanicTrends.year r, MechanicTrends.mechanic r)
                         (y, m))).
    intros x Hx. apply year_name_eqb_spec in Hx.
    apply (f_equal snd) in Hx. cbn [snd] in Hx. rewrite Hx. exact Hsel. }
  split.
  - rewrite Eg. unfold MechanicTrends.games_in_year.
    apply nunique_drop_duplicates. apply sort_by_perm.
  - unfold Frame.nunique. apply unique_Z_length_pos. intros Hnil.
    apply map_eq_nil in Hnil.
    now apply (group_nonempty year_name_eqb
                 (fun r => (MechanicTrends.year r, MechanicTrends.mechanic r))
                 year_name_eqb_spec (y, m) chart_data).
Qed.

(** X18 on the three games of 2020 with "Dice Rolling": the group counts
    three games and three games are listed. *)
Lemma X18_panel_popularity_is_listing_size_witness :
  match find (fun g => year_name_eqb (Frame.gkey g)
                                     (2020%Z, "Dice Rolling"%string))
          (Frame.groupby_agg year_name_eqb year_name_leb
             (fun r => (MechanicTrends.year r, MechanicTrends.mechanic r))
             MechanicTrends.bgg_id MechanicTrends.rating_geek
             (filter (fun r => St.mem_str (MechanicTrends.mechanic r)
                                          ["Dice Rolling"%string])
                     Examples.rows_abc)) with
  | Some r =>
      Frame.count r
      = List.length (MechanicTrends.games_in_year Examples.rows_abc 2020%Z
                       "Dice Rolling")
  | None => False
  end.
Proof.
  destruct (find _ _) as [r|] eqn:E.
  - apply (X18_panel_popularity_is_listing_size Examples.rows_abc
             ["Dice Rolling"%string] 2020%Z "Dice Rolling"%string r E).
  - vm_compute in E. discriminate E.
Defined.

Lemma listing_no_chart games clicked s :
  existsb St.is_chart (snd (MechanicTrends.listing games clicked s)) = false.
Proof.
  unfold MechanicTrends.listing. cbv zeta.
  match goal with
  | |- context [(?a <? ?b)%nat] => destruct (a <? b)%nat
  end; [destruct clicked|]; cbn [snd]; rewrite ?existsb_app;
    cbn [existsb St.is_chart orb];
    rewrite ?orb_false_r; induction (Frame.head _ games);
    cbn [map existsb St.is_chart orb]; auto.
Qed.

Lemma drill_down_no_chart fd grouped idf click clicked s :
  existsb St.is_chart
    (snd (MechanicTrends.drill_down fd grouped idf click clicked s)) = false.
Proof.
  unfold MechanicTrends.drill_down. cbv zeta.
  destruct (MechanicTrends.selectbox St.mem_str _ _) as [m|];
    [|destruct (MechanicTrends.selectbox St.mem_Z _ _); reflexivity].
  destruct (MechanicTrends.selectbox St.mem_Z _ _) as [y|]; [|reflexivity].
  destruct (truthy m && negb (y =? 0)%Z); [|reflexivity].
  destruct (find _ grouped); [|reflexivity].
  match goal with
  | |- context [MechanicTrends.listing ?g ?c ?x] =>
      pose proof (listing_no_chart g c x) as H;
      destruct (MechanicTrends.listing g c x) as [s3 out3]
  end.
  cbn [snd] in *. cbn [existsb St.is_chart orb]. exact H.
Qed.

Lemma not_chart_In c out :
  existsb St.is_chart out = false -> In c out -> St.is_chart c = false.
Proof.
  intros H Hin. destruct (St.is_chart c) eqn:E; [|reflexivity].
  assert (existsb St.is_chart out = true)
    by (apply existsb_exists; eauto).
  congruence.
Qed.

(** X19.  Whenever the mechanic page draws its line chart, the year and the
    mechanic that the run leaves selected for the drill-down are a year and
    a mechanic of the points of that chart. *)
Theorem X19_selection_is_on_the_chart :
  forall (f : Db.file) (inp : MechanicTrends.inputs)
         (s s' : MechanicTrends.session) (out : list St.call)
         (marks : list St.mark),
    MechanicTrends.main f inp s = St.Done s' out ->
    In (St.line_chart marks) out ->
    exists y m,
      MechanicTrends.detail_year s' = Some y /\
      MechanicTrends.detail_mechanic s' = Some m /\
      In y (map St.m_year marks) /\ In m (map St.m_series marks).
Proof.
  intros f inp s s' out marks. unfold MechanicTrends.main.
  destruct (MechanicTrends.load_data f) as [raw|]; [|discriminate].
  destruct (is_empty raw).
  { intros E Hin. inversion E. subst.
    destruct Hin as [H|[H|[]]]; discriminate H. }
  cbv zeta.
  destruct (MechanicTrends.render_sidebar raw _ inp _) as [[[s2 fd] ml] rl].
  destruct (is_empty fd).
  { intros E Hin. inversion E. subst.
    destruct Hin as [H|[H|[]]]; discriminate H. }
  destruct (is_empty (MechanicTrends.default [] _)).
  { intros E Hin. inversion E. subst.
    destruct Hin as [H|[H|[]]]; discriminate H. }
  destruct (is_empty (Frame.groupby_agg _ _ _ _ _ _)) eqn:Eg.
  { intros E Hin. inversion E. subst.
    destruct Hin as [H|[H|[]]]; discriminate H. }
  match goal with
  | |- context [MechanicTrends.render_chart ?g ml ?c] =>
      set (grouped := g) in *
  end.
  assert (Hne : grouped <> []).
  { intros Hnil. rewrite Hnil in Eg. discriminate Eg. }
  unfold MechanicTrends.render_chart. rewrite Eg.
  destruct (forallb _ grouped);
    match goal with
    | |- context [MechanicTrends.drill_down fd grouped ?i ?c ?k s2] =>
        pose proof (drill_down_selected fd grouped i c k s2 Hne) as Hsel;
        pose proof (drill_down_no_chart fd grouped i c k s2) as Hno;
        destruct (MechanicTrends.drill_down fd grouped i c k s2)
          as [s3 out3]
    end; cbv zeta in Hsel; cbn [fst snd] in Hsel, Hno;
    destruct Hsel as (HY & HM & HYin & HMin);
    intros E Hin; inversion E; subst s' out;
    cbn [app] in Hin;
    (destruct Hin as [H|[H|Hin]];
     [discriminate H | |
      apply (not_chart_In _ _ Hno) in Hin; discriminate Hin]).
  - discriminate H.
  - inversion H. subst marks.
    eexists. eexists. split; [exact HY|]. split; [exact HM|].
    rewrite !map_map. cbn [MechanicTrends.mark_of St.m_year St.m_series].
    split.
    + exact (proj1 (avail_years_In _ _) HYin).
    + exact (proj1 (avail_mechs_In _ _) HMin).
Qed.

(** X19 on the two "Dice Rolling" games, first run on a fresh session. *)
Lemma X19_selection_is_on_the_chart_witness :
  let f := Db.Present Examples.db_two_years in
  let idle := MechanicTrends.mk_inputs None None false in
  let o := MechanicTrends.main f idle MechanicTrends.empty_session in
  exists y m,
    MechanicTrends.detail_year
      (St.state_or MechanicTrends.empty_session o) = Some y /\
    MechanicTrends.detail_mechanic
      (St.state_or MechanicTrends.empty_session o) = Some m.
Proof.
  intros f idle o.
  destruct (X19_selection_is_on_the_chart f idle MechanicTrends.empty_session
              (St.state_or MechanicTrends.empty_session o) (St.calls o)
              (map (MechanicTrends.mark_of popularity_label)
                   Examples.grouped_two_years))
    as (y & m & Hy & Hm & _).
  - apply returned_Done. vm_compute. reflexivity.
  - vm_compute. right. left. reflexivity.
  - exists y, m. split; assumption.
Defined.

Lemma filter_defaults_keep_mode s :
  let s1 := MechanicTrends.setdefault MechanicTrends.year_range
              MechanicTrends.set_year_range (2005, 2025)%Z
              (MechanicTrends.setdefault MechanicTrends.rank_limit
                 MechanicTrends.set_rank_limit 10000%Z s) in
  MechanicTrends.use_impact_top_n s1 = MechanicTrends.use_impact_top_n s /\
  MechanicTrends.selected_mechanics s1 = MechanicTrends.selected_mechanics s.
Proof.
  destruct s as [rl yr ? ? ? ? ? ? ? ? ? ? ?]. destruct rl, yr; split;
    reflexivity.
Qed.

(** X20.  When the last displayed mechanic has been removed with its "X"
    button, the mechanic page draws neither a chart nor a card: it returns
    after the title and one notice. *)
Theorem X20_removing_every_mechanic_leaves_a_notice :
  forall (db : Db.t) (inp : MechanicTrends.inputs)
         (s : MechanicTrends.session) (m : string),
    Forall (fun x => x = m)
           (MechanicTrends.default [] (MechanicTrends.selected_mechanics s)) ->
    exists s' notice,
      MechanicTrends.main (Db.Present db) inp
        (MechanicTrends._remove_mechanic m s)
      = St.Done s' [St.title; notice] /\
      (exists msg, notice = St.warning msg \/ notice = St.info msg) /\
      MechanicTrends.selected_mechanics s' = Some [].
Proof.
  intros db inp s m Hall.
  set (s0 := MechanicTrends._remove_mechanic m s).
  assert (Hsel0 : MechanicTrends.selected_mechanics s0 = Some []).
  { unfold s0, MechanicTrends._remove_mechanic.
    cbn [MechanicTrends.set_use_impact_top_n
         MechanicTrends.set_selected_mechanics
         MechanicTrends.selected_mechanics].
    assert (E : filter (fun x => negb (String.eqb x m))
                  (MechanicTrends.default []
                     (MechanicTrends.selected_mechanics s)) = []).
    { induction Hall as [|x l Hx _ IH]; [reflexivity|].
      cbn [filter]. subst x. now rewrite String.eqb_refl. }
    now rewrite E. }
  assert (Hmode0 : MechanicTrends.use_impact_top_n s0 = Some false)
    by reflexivity.
  unfold MechanicTrends.main. cbn [MechanicTrends.load_data].
  destruct (is_empty (MechanicTrends.select_rows db)).
  { exists s0. eexists. split; [reflexivity|]. split; [|exact Hsel0].
    eexists. left. reflexivity. }
  cbv zeta.
  destruct (filter_defaults_keep_mode s0) as [Em Es]. cbv zeta in Em, Es.
  set (s1 := MechanicTrends.setdefault MechanicTrends.year_range _ _ _) in *.
  rewrite Hmode0 in Em. rewrite Hsel0 in Es.
  match goal with
  | |- context [MechanicTrends.render_sidebar ?r ?i inp s1] =>
      pose proof (render_sidebar_manual r i inp s1 [] Em Es) as Hrs;
      destruct (MechanicTrends.render_sidebar r i inp s1)
        as [[[s2 fd] ml] rl]
  end.
  cbn [fst filter] in Hrs.
  destruct (is_empty fd).
  { exists s2. eexists. split; [reflexivity|]. split; [|exact Hrs].
    eexists. right. reflexivity. }
  rewrite Hrs. cbn [MechanicTrends.default is_empty].
  exists s2. eexists. split; [reflexivity|]. split; [|exact Hrs].
  eexists. left. reflexivity.
Qed.

(** X20 on the two games of "Dice Rolling", after its removal from a session
    that displays it alone. *)
Lemma X20_removing_every_mechanic_leaves_a_notice_witness :
  exists s' notice,
    MechanicTrends.main (Db.Present Examples.db_two_years)
      (MechanicTrends.mk_inputs None None false)
      (MechanicTrends._remove_mechanic "Dice Rolling"
         (MechanicTrends.set_selected_mechanics ["Dice Rolling"%string]
            MechanicTrends.empty_session))
    = St.Done s' [St.title; notice].
Proof.
  destruct (X20_removing_every_mechanic_leaves_a_notice Examples.db_two_years
              (MechanicTrends.mk_inputs None None false)
              (MechanicTrends.set_selected_mechanics ["Dice Rolling"%string]
                 MechanicTrends.empty_session) "Dice Rolling"%string)
    as (s' & notice & E & _).
  - repeat constructor.
  - exists s', notice. exact E.
Defined.

(* ================================================================== *)
(** ** The y axis of the mechanic chart *)
(* ================================================================== *)





(* ================================================================== *)
(** ** The descriptions of the mechanics *)
(* ================================================================== *)

Lemma dict_get_set k v d k' :
  MechanicDescriptions.dict_get k' (MechanicDescriptions.dict_set k v d)
  = if String.eqb k k' then Some v else MechanicDescriptions.dict_get k' d.
Proof.
  induction d as [|[k0 v0] d IH]; cbn [MechanicDescriptions.dict_set
                                        MechanicDescriptions.dict_get].
  - reflexivity.
  - destruct (String.eqb_spec k0 k) as [->|Hne];
      cbn [MechanicDescriptions.dict_get].
    + destruct (String.eqb k k'); reflexivity.
    + rewrite IH. destruct (String.eqb_spec k0 k') as [->|Hne'].
      * destruct (String.eqb_spec k k'); [congruence | reflexivity].
      * reflexivity.
Qed.

Lemma find_app {A} (f : A -> bool) l1 l2 :
  find f (l1 ++ l2) = match find f l1 with
                      | Some x => Some x
                      | None => find f l2
                      end.
Proof.
  induction l1 as [|a l1 IH]; [reflexivity|].
  cbn [app find]. destruct (f a); [reflexivity | exact IH].
Qed.

Lemma load_rows_get strip rows : forall acc m,
  MechanicDescriptions.dict_get m
    (fold_left (MechanicDescriptions.add_row strip) rows acc)
  = if truthy m then
      match last_row m rows with
      | Some r => Some (info_of strip r)
      | None => MechanicDescriptions.dict_get m acc
      end
    else MechanicDescriptions.dict_get m
           (fold_left (MechanicDescriptions.add_row strip) rows acc).
Proof.
  induction rows as [|r rows IH]; intros acc m.
  - cbn. now destruct (truthy m).
  - destruct (truthy m) eqn:Em; [|reflexivity].
    cbn [fold_left]. rewrite IH, Em. unfold last_row. cbn [rev].
    rewrite find_app. fold (last_row m rows).
    destruct (last_row m rows) as [r'|]; [reflexivity|].
    cbn [find]. unfold MechanicDescriptions.add_row.
    destruct (MechanicDescriptions.mechanic r) as [k|]; [|reflexivity].
    destruct (truthy k) eqn:Ek.
    + rewrite dict_get_set. destruct (String.eqb k m); reflexivity.
    + unfold truthy in Ek. apply negb_false_iff, String.eqb_eq in Ek.
      subst k. destruct (String.eqb_spec EmptyString m) as [<-|];
        [discriminate Em | reflexivity].
Qed.

Lemma load_rows_no_empty_key strip rows : forall acc,
  MechanicDescriptions.dict_get EmptyString acc = None ->
  MechanicDescriptions.dict_get EmptyString
    (fold_left (MechanicDescriptions.add_row strip) rows acc) = None.
Proof.
  induction rows as [|r rows IH]; intros acc Hacc; [exact Hacc|].
  cbn [fold_left]. apply IH. unfold MechanicDescriptions.add_row.
  destruct (MechanicDescriptions.mechanic r) as [k|]; [|exact Hacc].
  destruct (truthy k) eqn:Ek; [|exact Hacc].
  rewrite dict_get_set. destruct (String.eqb_spec k EmptyString) as [->|];
    [discriminate Ek | exact Hacc].
Qed.

(** X22.  [load_mechanic_descriptions_from_db] stores, for every mechanic
    name that is not empty, the stripped description and URL of the last
    row of the table with that name, and nothing under the empty name; when
    the file is missing it returns the empty dict, and the panel then prints
    the placeholder for every mechanic. *)
Theorem X22_descriptions_last_row_wins :
  forall (strip : string -> string)
         (rows : list MechanicDescriptions.desc_row)
         (table : option (list MechanicDescriptions.desc_row))
         (m : string),
    match MechanicDescriptions.load_mechanic_descriptions_from_db strip true
            (Some rows) with
    | Some desc_map =>
        MechanicDescriptions.dict_get m desc_map
        = if truthy m then option_map (info_of strip) (last_row m rows)
          else None
    | None => False
    end /\
    match MechanicDescriptions.load_mechanic_descriptions_from_db strip false
            table with
    | Some desc_map =>
        desc_map = [] /\
        MechanicDescriptions.description_lines desc_map m
        = ["（無介紹文字）"%string]
    | None => False
    end.
Proof.
  intros strip rows table m. split.
  - cbn [MechanicDescriptions.load_mechanic_descriptions_from_db negb].
    destruct (truthy m) eqn:Em.
    + rewrite load_rows_get, Em. cbn [MechanicDescriptions.dict_get].
      now destruct (last_row m rows).
    + unfold truthy in Em. apply negb_false_iff, String.eqb_eq in Em.
      subst m. now apply load_rows_no_empty_key.
  - cbn. split; reflexivity.
Qed.

(* ================================================================== *)
(** ** The entry script *)
(* ================================================================== *)

(** X23.  With the database file missing, every entry of the menu returns
    normally and leaves the session as it was, after a title and one
    message, without a chart or a card; an entry that is none of the three
    pages never reads the file; and on a file that the queries fail on,
    only the ranking page catches the failure. *)
Theorem X23_app_without_database :
  forall (selected : string) (inp : App.inputs) (s : App.session),
    (exists notice,
        App.app selected Db.Missing inp s = St.Done s [St.title; notice] /\
        St.is_chart notice = false /\ St.cards [notice] = []) /\
    (String.eqb selected "Mechanics" = false ->
     String.eqb selected "Ranking" = false ->
     String.eqb selected "Categories" = false ->
     forall f, App.app selected f inp s
               = App.app selected Db.Missing inp s) /\
    (exists msg,
        App.app "Ranking" Db.Unreadable inp s
        = St.Done s [St.title; St.error msg]) /\
    App.app "Mechanics" Db.Unreadable inp s = St.Raised /\
    App.app "Categories" Db.Unreadable inp s = St.Raised.
Proof.
  intros selected inp s. destruct s as [ms cs gs].
  split; [|split; [|split; [|split]]].
  - unfold App.app.
    destruct (String.eqb selected "Mechanics");
      [eexists; split; [reflexivity | split; reflexivity]|].
    destruct (String.eqb selected "Ranking");
      [eexists; split; [reflexivity | split; reflexivity]|].
    destruct (String.eqb selected "Categories");
      eexists; (split; [reflexivity | split; reflexivity]).
  - intros E1 E2 E3 f. unfold App.app. now rewrite E1, E2, E3.
  - eexists. reflexivity.
  - reflexivity.
  - reflexivity.
Qed.

(* ================================================================== *)
(** ** The selection state of a chart *)
(* ================================================================== *)

Lemma extract_year_agrees int_of_str v :
  fst (Py.mechanic_extract_selection int_of_str v)
  = fst (Py.category_extract_selection int_of_str v).
Proof.
  unfold Py.mechanic_extract_selection, Py.category_extract_selection.
  destruct (negb (Py.truthy v)); [reflexivity|].
  destruct v as [| | | | |cs]; try reflexivity.
  cbv zeta.
  destruct (Py.or_ _ (Py.Dict cs)) as [| | | | |sd]; try reflexivity.
  destruct (Py.has_key sd "point_select"); [|reflexivity].
  destruct (Py.get sd "point_select") as [|b|z|t|items|it]; try reflexivity.
  - destruct items as [|x items]; [reflexivity|].
    destruct x as [|b|z|t|l|it]; cbn [Py.truthy];
      try reflexivity; try (destruct b; reflexivity);
      try (destruct (negb _); reflexivity).
    destruct it as [|kv it]; cbn [is_empty negb]; [|reflexivity].
    cbn [Py.get Py.int fst]. reflexivity.
  - destruct it as [|kv it]; cbn [Py.truthy is_empty negb]; [|reflexivity].
    cbn [Py.get Py.int fst]. reflexivity.
Qed.

(** X24.  [extract_selection] reads a clicked point in each of the shapes
    that a selection state takes, and a year given as a string is converted
    when [int] accepts it; a state that is [None], an empty dict or not a
    dict gives [(None, None)]; and on every state the function of the
    mechanic page and that of the category page return the same year. *)
Theorem X24_extract_selection_shapes :
  forall (int_of_str : string -> option Z) (y : Z) (ys m : string)
         (rest : list (string * Py.value)) (junk v : Py.value),
    let item := Py.Dict (("year"%string, Py.Int y)
                         :: ("mechanic"%string, Py.Str m) :: rest) in
    let item_s := Py.Dict (("year"%string, Py.Str ys)
                           :: ("mechanic"%string, Py.Str m) :: rest) in
    Forall (fun state =>
              Py.mechanic_extract_selection int_of_str state
              = (Py.Int y, Py.Str m) /\
              as_click (Py.mechanic_extract_selection int_of_str state)
              = MechanicTrends.extract_selection
                  (Some (MechanicTrends.mk_selection (Some y) (Some m))))
           (point_states item) /\
    Forall (fun state =>
              Py.mechanic_extract_selection int_of_str state
              = (match int_of_str ys with
                 | Some z => Py.Int z
                 | None => Py.Str ys
                 end, Py.Str m))
           (point_states item_s) /\
    Py.mechanic_extract_selection int_of_str Py.None_
    = (Py.None_, Py.None_) /\
    Py.mechanic_extract_selection int_of_str (Py.Dict [])
    = (Py.None_, Py.None_) /\
    (match junk with
     | Py.Dict _ => True
     | _ => Py.mechanic_extract_selection int_of_str junk
            = (Py.None_, Py.None_)
     end) /\
    fst (Py.mechanic_extract_selection int_of_str v)
    = fst (Py.category_extract_selection int_of_str v).
Proof.
  intros int_of_str y ys m rest junk v item item_s.
  split; [|split; [|split; [|split; [|split]]]].
  - repeat constructor.
  - repeat constructor.
  - reflexivity.
  - reflexivity.
  - unfold Py.mechanic_extract_selection.
    destruct junk; try exact I; destruct (negb _); reflexivity.
  - apply extract_year_agrees.
Qed.

(* ================================================================== *)
(** ** The ranking of the mechanics by Impact *)
(* ================================================================== *)

Lemma sorted_split {A} (R : A -> A -> Prop) n l :
  StronglySorted R l ->
  Forall (fun a => Forall (R a) (skipn n l)) (firstn n l).
Proof.
  intros Hs. revert n. induction Hs as [|x l Hs IH Hall]; intros [|n];
    cbn [firstn skipn]; try constructor.
  - rewrite Forall_forall in *. intros y Hy. apply Hall.
    rewrite <- (firstn_skipn n l). apply in_or_app. now right.
  - apply IH.
Qed.

(** X25.  [compute_impact] has one row per mechanic of the frame, and the
    top-N mode displays the N mechanics with the highest Impact: none of the
    mechanics left out has an Impact above that of a displayed one (a missing
    Impact counting as the lowest), and no mechanic is displayed twice. *)
Theorem X25_top_n_are_the_highest_impact :
  forall (filtered_df : list MechanicTrends.row) (top_n : nat),
    let impact_df := MechanicTrends.compute_impact filtered_df in
    let ranked :=
      sort_by (fun a b => desc_nan_last (MechanicTrends.impact a)
                                        (MechanicTrends.impact b))
              impact_df in
    NoDup (map MechanicTrends.i_mechanic impact_df) /\
    (forall m, In m (map MechanicTrends.i_mechanic impact_df) <->
               In m (map MechanicTrends.mechanic filtered_df)) /\
    firstn top_n (MechanicTrends.sorted_by_impact impact_df)
    = map MechanicTrends.i_mechanic (firstn top_n ranked) /\
    NoDup (firstn top_n (MechanicTrends.sorted_by_impact impact_df)) /\
    (List.length (firstn top_n (MechanicTrends.sorted_by_impact impact_df))
     <= top_n)%nat /\
    Forall (fun shown =>
              Forall (fun left_out =>
                        Spec.impact_not_below
                          (MechanicTrends.impact shown)
                          (MechanicTrends.impact left_out))
                     (skipn top_n ranked))
           (firstn top_n ranked).
Proof.
  intros fd top_n impact_df ranked.
  assert (Hkeys : map MechanicTrends.i_mechanic impact_df
                  = Frame.group_keys String.eqb String.leb
                      MechanicTrends.mechanic fd).
  { unfold impact_df, MechanicTrends.compute_impact.
    rewrite map_map.
    rewrite <- (groupby_agg_keys String.eqb String.leb
                  MechanicTrends.mechanic MechanicTrends.bgg_id
                  MechanicTrends.rating_geek fd).
    apply map_ext. reflexivity. }
  assert (Hnd : NoDup (map MechanicTrends.i_mechanic impact_df)).
  { rewrite Hkeys. unfold Frame.group_keys.
    apply sort_by_NoDup, unique_strings_NoDup. }
  assert (Hfirst : firstn top_n (MechanicTrends.sorted_by_impact impact_df)
                   = map MechanicTrends.i_mechanic (firstn top_n ranked)).
  { unfold MechanicTrends.sorted_by_impact. fold ranked.
    now rewrite firstn_map. }
  split; [exact Hnd|]. split.
  { intros m. rewrite Hkeys.
    apply (group_keys_In String.eqb String.leb MechanicTrends.mechanic
             Streqb_spec). }
  split; [exact Hfirst|]. split.
  { apply NoDup_firstn. unfold MechanicTrends.sorted_by_impact.
    eapply Permutation_NoDup; [|exact Hnd].
    apply Permutation_map, sort_by_perm. }
  split; [apply length_firstn_le|].
  apply sorted_split.
  eapply StronglySorted_impl;
    [|apply sort_by_sorted;
      [intros a b; apply desc_nan_last_total
      |intros a b c; apply desc_nan_last_trans]].
  intros a b H. cbv beta in H. now apply desc_nan_last_spec.
Qed.

(* ================================================================== *)
(** ** "Show more" on the search page, rerun included *)
(* ================================================================== *)

Lemma search_ends_with_snoc l x :
  GameSearch.ends_with_rerun (l ++ [x])
  = match x with St.rerun => true | _ => false end.
Proof.
  unfold GameSearch.ends_with_rerun, last_opt.
  rewrite rev_app_distr. reflexivity.
Qed.

Lemma search_ends_with_cards {A} (f : A -> St.call) (l : list A) :
  (forall a, f a <> St.rerun) ->
  GameSearch.ends_with_rerun (St.title :: map f l) = false.
Proof.
  intros Hf. destruct (exists_last (l := St.title :: map f l)) as (l' & x & E);
    [discriminate|].
  rewrite E, search_ends_with_snoc.
  assert (Hx : In x (St.title :: map f l))
    by (rewrite E; apply in_or_app; right; now left).
  destruct Hx as [<-|Hx]; [reflexivity|].
  apply in_map_iff in Hx. destruct Hx as (a & <- & _).
  specialize (Hf a). destruct (f a); try reflexivity. contradiction.
Qed.

Lemma search_main_rerun db inp s :
  let q := GameSearch.form inp in
  let total := List.length (GameSearch.matches db q) in
  let n := if GameSearch.submitted inp then 10%nat
           else GameSearch.default 10%nat (GameSearch.results_show_n s) in
  let shown := Nat.min n total in
  GameSearch.ends_with_rerun
    (St.calls (GameSearch.main (Db.Present db) inp s))
  = GameSearch.show_more inp && (shown <? total)%nat.
Proof.
  intros q total n shown.
  unfold GameSearch.main. cbn [GameSearch.get_filter_options].
  unfold GameSearch.query_games_top_n, GameSearch.query_games_page.
  rewrite search_total. fold q. fold total. cbn [skipn].
  set (s1 := GameSearch.setdefault GameSearch._last_query_key _ _ _).
  assert (En : GameSearch.results_show_n s1 = Some n).
  { subst s1 n. destruct s as [? ? [c|] [k|]];
      destruct (GameSearch.submitted inp); reflexivity. }
  rewrite En. cbn [GameSearch.default].
  assert (Elen : List.length (firstn n (GameSearch.matches db q)) = shown).
  { now rewrite length_firstn. }
  rewrite Elen.
  destruct (total =? 0)%nat eqn:E0.
  - apply Nat.eqb_eq in E0. cbn [St.calls].
    replace (shown <? total)%nat with false.
    + now rewrite andb_false_r.
    + symmetry. apply Nat.ltb_ge. subst shown. lia.
  - destruct (shown <? total)%nat eqn:Elt.
    + destruct (GameSearch.show_more inp); cbn [St.calls andb].
      * rewrite app_comm_cons.
        change [St.button "show_more"; St.rerun]
          with ([St.button "show_more"] ++ [St.rerun]).
        rewrite app_assoc. apply search_ends_with_snoc.
      * rewrite app_comm_cons. apply search_ends_with_snoc.
    + rewrite andb_false_r. cbn [St.calls].
      apply search_ends_with_cards. discriminate.
Qed.

(** X26.  A click on "show more" on the search page, followed through the
    rerun it asks for, ends on a page that lists the first [n + 10] matches,
    or all of them when there are fewer, [n] being the counter before the
    click; the counter is then that number or was left alone, and no
    further rerun is asked for. *)
Theorem X26_search_show_more_run :
  forall (db : Db.t) (q : GameSearch.filters) (s : GameSearch.session),
    let total := List.length (GameSearch.matches db q) in
    let n := GameSearch.default 10%nat (GameSearch.results_show_n s) in
    exists s' out,
      GameSearch.run (Db.Present db) (GameSearch.mk_inputs false q true) s
      = St.Done s' out /\
      St.cards out
      = map (fun r => Db.bgg_id (GameSearch.game r))
            (firstn (n + 10) (GameSearch.matches db q)) /\
      shown_count (GameSearch.results_show_n s') total
      = Nat.min (n + 10) total /\
      GameSearch.ends_with_rerun out = false.
Proof.
  intros db q s total n.
  set (click := GameSearch.mk_inputs false q true).
  set (idle := GameSearch.mk_inputs false q false).
  destruct (search_main_spec db click s) as (s1 & out1 & E1 & N1 & C1).
  pose proof (search_main_rerun db click s) as R1.
  cbv zeta in N1, C1, R1.
  cbn [GameSearch.form GameSearch.submitted GameSearch.show_more click andb]
    in N1, C1, R1.
  fold total n in N1, C1, R1. rewrite E1 in R1. cbn [St.calls] in R1.
  unfold GameSearch.run. rewrite E1, R1.
  destruct (Nat.min n total <? total)%nat eqn:Elt.
  - apply Nat.ltb_lt in Elt.
    destruct (search_main_spec db idle s1) as (s2 & out2 & E2 & N2 & C2).
    pose proof (search_main_rerun db idle s1) as R2.
    cbv zeta in N2, C2, R2.
    cbn [GameSearch.form GameSearch.submitted GameSearch.show_more idle andb]
      in N2, C2, R2.
    fold total in N2, C2, R2. rewrite N1 in N2, C2. rewrite E2 in R2.
    cbn [GameSearch.default St.calls] in N2, C2, R2.
    change (GameSearch.mk_inputs false (GameSearch.form click) false)
      with idle.
    rewrite E2. exists s2, out2. split; [reflexivity|].
    split; [|split; [|exact R2]].
    + rewrite C2. f_equal.
      replace (Nat.min (Nat.min total (n + 10)) total)
        with (Nat.min (n + 10) total) by lia.
      unfold total. apply firstn_min_length.
    + rewrite N2. unfold shown_count. lia.
  - apply Nat.ltb_ge in Elt. exists s1, out1. split; [reflexivity|].
    split; [|split; [|exact R1]].
    + rewrite C1. f_equal. unfold total in *. rewrite firstn_min_length.
      rewrite !firstn_all2; [reflexivity | lia | lia].
    + rewrite N1. unfold shown_count. fold n. lia.
Qed.

(* ================================================================== *)
(** ** The points of the mechanic chart *)
(* ================================================================== *)

Lemma year_name_keys_NoDup {A} (key : A -> Z * string) (df : list A) :
  NoDup (Frame.group_keys year_name_eqb year_name_leb key df).
Proof.
  unfold Frame.group_keys. apply sort_by_NoDup.
  pose proof (dedup_on_NoDup year_name_eqb (fun k => k) year_name_eqb_spec
                (map key df)) as H.
  now rewrite map_id in H.
Qed.

(** X27.  The frame that the mechanic page plots has one point per (year,
    mechanic) pair; every point is of a displayed mechanic, of a year
    within the range of the year slider, and counts at least one game. *)
Theorem X27_chart_points :
  forall (raw_df : list MechanicTrends.row)
         (impact_df : list MechanicTrends.impact_row)
         (inp : MechanicTrends.inputs) (s : MechanicTrends.session),
    let s' :=
      fst (fst (fst (MechanicTrends.render_sidebar raw_df impact_df inp s))) in
    let filtered_df :=
      snd (fst (fst (MechanicTrends.render_sidebar raw_df impact_df inp s))) in
    let selected :=
      MechanicTrends.default [] (MechanicTrends.selected_mechanics s') in
    let year_range :=
      MechanicTrends.default (2005, 2025)%Z (MechanicTrends.year_range s) in
    let grouped :=
      Frame.groupby_agg year_name_eqb year_name_leb
        (fun r => (MechanicTrends.year r, MechanicTrends.mechanic r))
        MechanicTrends.bgg_id MechanicTrends.rating_geek
        (filter (fun r => St.mem_str (MechanicTrends.mechanic r) selected)
                filtered_df) in
    NoDup (map Frame.gkey grouped) /\
    Forall (fun g =>
              In (snd (Frame.gkey g)) selected /\
              (fst year_range <= fst (Frame.gkey g) <= snd year_range)%Z /\
              (1 <= Frame.count g)%nat)
           grouped.
Proof.
  intros raw idf inp s s' fd selected yr grouped.
  assert (Hfd : fd = filter (MechanicTrends.rank_year_mask
                               (MechanicTrends.default 10000%Z
                                  (MechanicTrends.rank_limit s)) yr) raw)
    by reflexivity.
  split.
  - unfold grouped. rewrite groupby_agg_keys. apply year_name_keys_NoDup.
  - unfold grouped. apply groupby_agg_Forall; [apply year_name_eqb_spec|].
    intros k Hk. cbn [Frame.agg_group Frame.gkey Frame.count].
    pose proof Hk as Hk'. apply in_map_iff in Hk.
    destruct Hk as (r & <- & Hr). apply filter_In in Hr.
    destruct Hr as [Hr Hsel]. cbn [fst snd].
    split; [now apply mem_str_In|]. split.
    + rewrite Hfd in Hr. apply filter_In in Hr. destruct Hr as [_ Hm].
      unfold MechanicTrends.rank_year_mask in Hm.
      rewrite !andb_true_iff in Hm. destruct Hm as [[_ H1] H2].
      apply Z.geb_le in H1. apply Z.leb_le in H2. lia.
    + unfold Frame.nunique. apply unique_Z_length_pos. intros Hnil.
      apply map_eq_nil in Hnil. revert Hnil.
      now apply (group_nonempty year_name_eqb
                   (fun r => (MechanicTrends.year r, MechanicTrends.mechanic r))
                   year_name_eqb_spec).
Qed.

(** X28.  A card of the search page shows the entry "Selected Rank" only
    when a category other than "overall" is chosen: with no category, or
    with "overall", no row of the result passes the test of the card; and
    with another category the entry is shown exactly for the games that
    have an overall rank different from their rank in the category. *)
Theorem X28_selected_rank_needs_a_category :
  forall (db : Db.t) (q : GameSearch.filters) (limit n : nat),
    let rows := snd (GameSearch.query_games_page db q limit n) in
    ((GameSearch.rank_domain q = None \/
      GameSearch.rank_domain q = Some EmptyString \/
      GameSearch.rank_domain q = Some "overall"%string) ->
     Forall (fun r => SearchCard.shows_selected_rank r = false) rows) /\
    (forall d, GameSearch.rank_domain q = Some d -> d <> EmptyString ->
       Forall (fun r =>
                 exists k, GameSearch.selected_rank r = Some k /\
                   (SearchCard.shows_selected_rank r = true <->
                    exists k', GameSearch.overall_rank r = Some k' /\
                               k <> k'))
              rows).
Proof.
  intros db q limit n rows.
  assert (Hrows : forall r, In r rows -> In r (GameSearch.matches db q)).
  { intros r Hr. unfold rows, GameSearch.query_games_page in Hr.
    cbn [snd] in Hr. apply In_firstn in Hr.
    rewrite <- (firstn_skipn n). apply in_or_app. now right. }
  split.
  - intros Hd. apply Forall_forall. intros r Hr.
    destruct (in_matches db q r (Hrows r Hr)) as (_ & _ & Eo & Es).
    assert (E : GameSearch.selected_rank r = GameSearch.overall_rank r).
    { rewrite Es, Eo. destruct Hd as [->|[->| ->]]; reflexivity. }
    unfold SearchCard.shows_selected_rank. rewrite E.
    destruct (GameSearch.overall_rank r); [|reflexivity].
    now rewrite Z.eqb_refl.
  - intros d Ed Hne.
    assert (Et : truthy d = true) by now apply truthy_spec.
    apply Forall_forall. intros r Hr.
    destruct (matches_selected_rank db q r d (Hrows r Hr) Ed Et)
      as [_ Hsome].
    destruct (GameSearch.selected_rank r) as [k|] eqn:Ek; [|contradiction].
    exists k. split; [reflexivity|].
    unfold SearchCard.shows_selected_rank. rewrite Ek.
    destruct (GameSearch.overall_rank r) as [k'|].
    + rewrite negb_true_iff, Z.eqb_neq. split.
      * intros H. exists k'. auto.
      * intros (k0 & E & H). inversion E. now subst.
    + split; [discriminate | intros (k0 & E & _); discriminate].
Qed.
